(** * Housing-finance assistant: the chat client and the agent turn it consumes

    The development embeds
    - the Pinia store [useHousingStore] (stores/housing.js): the actions
      [sendMessage], [sendMessageStream], [handleStreamEvent],
      [isReportResponse], [resetCurrentSession], [resetAllSessions],
      [initializeSession], [addMessage], [handleError];
    - the API client [HousingAPI] (api/housing.js): [sendChatMessage],
      [sendChatMessageStream] with its server-sent-event line parser,
      [resetSession], [resetAllSessions];
    - the server side of a turn (agent loop, session store, event encoder),
      which the client only talks to over HTTP;
    - the getters of the store, the response interceptor and the text
      helpers of the API client, and the validation and formatting
      utilities (utils/validation.js, utils/format.js).

    Strings are byte strings holding UTF-8, so [String.length "购房"] is 6.
    Concatenation, prefix tests and substring search on well-formed UTF-8
    agree with the same operations on JavaScript's UTF-16 strings. *)

From Stdlib Require Import String Ascii List Bool Arith Lia.
From stdpp Require Import base option list strings pretty gmap.
Import ListNotations.
Open Scope string_scope.
Open Scope list_scope.

(* ===================================================================== *)
(** ** JavaScript string and truthiness primitives used by the client     *)
(* ===================================================================== *)

Module JS.

(** A value read from a JSON object field that the wire protocol types as a
    string: [None] stands for [undefined] (field absent) or [null], which
    every reader below treats alike. *)
Definition value := option string.

(** Truthiness: [undefined], [null] and [''] are falsy. *)
Definition truthy (v : value) : bool :=
  match v with
  | Some s => negb (String.eqb s "")
  | None => false
  end.

(** [a || b] on two values. *)
Definition or (a b : value) : value := if truthy a then a else b.

(** [a || 'literal']: the result is always a string. *)
Definition or_str (a : value) (d : string) : string :=
  match a with
  | Some s => if String.eqb s "" then d else s
  | None => d
  end.

(** [s.startsWith(p)] *)
Definition startsWith (s p : string) : bool := String.prefix p s.

(** [s.includes(sub)] *)
Fixpoint includes (s sub : string) : bool :=
  String.prefix sub s ||
  match s with
  | EmptyString => false
  | String _ r => includes r sub
  end.

(** [s.slice(n)] for [n >= 0]; the client only slices off ASCII prefixes. *)
Fixpoint slice (n : nat) (s : string) : string :=
  match n, s with
  | O, _ => s
  | S _, EmptyString => EmptyString
  | S k, String _ r => slice k r
  end.

Definition byte_is (c : ascii) (n : nat) : bool := Nat.eqb (nat_of_ascii c) n.

(** ECMAScript WhiteSpace and LineTerminator code points below U+0080:
    TAB, LF, VT, FF, CR, SPACE. *)
Definition ascii_ws (c : ascii) : bool :=
  byte_is c 9 || byte_is c 10 || byte_is c 11 || byte_is c 12 ||
  byte_is c 13 || byte_is c 32.

(** One white-space code point at the head of the UTF-8 text, if any; the
    result is the text after it. Beyond ASCII these are U+00A0, U+1680,
    U+2000..U+200A, U+2028, U+2029, U+202F, U+205F, U+3000 and U+FEFF. *)
Definition ws_head (s : string) : option string :=
  match s with
  | EmptyString => None
  | String c r =>
    if ascii_ws c then Some r else
    match r with
    | String c2 r2 =>
      if byte_is c 194 && byte_is c2 160 then Some r2 else
      match r2 with
      | String c3 r3 =>
        let n3 := nat_of_ascii c3 in
        if byte_is c 225 && byte_is c2 154 && byte_is c3 128 then Some r3
        else if byte_is c 226 && byte_is c2 128 &&
                ((Nat.leb 128 n3 && Nat.leb n3 138) || byte_is c3 168 ||
                 byte_is c3 169 || byte_is c3 175) then Some r3
        else if byte_is c 226 && byte_is c2 129 && byte_is c3 159 then Some r3
        else if byte_is c 227 && byte_is c2 128 && byte_is c3 128 then Some r3
        else if byte_is c 239 && byte_is c2 187 && byte_is c3 191 then Some r3
        else None
      | EmptyString => None
      end
    | EmptyString => None
    end
  end.

(** The same code points read backwards, on the reversed text. *)
Definition ws_last (s : string) : option string :=
  match s with
  | EmptyString => None
  | String c r =>
    if ascii_ws c then Some r else
    match r with
    | String c2 r2 =>
      if byte_is c 160 && byte_is c2 194 then Some r2 else
      match r2 with
      | String c3 r3 =>
        let n := nat_of_ascii c in
        if byte_is c 128 && byte_is c2 154 && byte_is c3 225 then Some r3
        else if ((Nat.leb 128 n && Nat.leb n 138) || byte_is c 168 ||
                 byte_is c 169 || byte_is c 175) &&
                byte_is c2 128 && byte_is c3 226 then Some r3
        else if byte_is c 159 && byte_is c2 129 && byte_is c3 226 then Some r3
        else if byte_is c 128 && byte_is c2 128 && byte_is c3 227 then Some r3
        else if byte_is c 191 && byte_is c2 187 && byte_is c3 239 then Some r3
        else None
      | EmptyString => None
      end
    | EmptyString => None
    end
  end.

Fixpoint strip (head : string -> option string) (fuel : nat) (s : string) : string :=
  match fuel with
  | O => s
  | S k => match head s with
           | Some r => strip head k r
           | None => s
           end
  end.

Fixpoint rev_string (acc s : string) : string :=
  match s with
  | EmptyString => acc
  | String c r => rev_string (String c acc) r
  end.

Definition trimStart (s : string) : string := strip ws_head (String.length s) s.

Definition trimEnd (s : string) : string :=
  rev_string "" (strip ws_last (String.length s) (rev_string "" s)).

(** [s.trim()] *)
Definition trim (s : string) : string := trimEnd (trimStart s).

Definition newline : ascii := ascii_of_nat 10.

(** [s.split('\n')]: never empty, [''.split('\n')] is [['']]. *)
Fixpoint split_newline (s : string) : list string :=
  match s with
  | EmptyString => [EmptyString]
  | String c r =>
    if Ascii.eqb c newline then EmptyString :: split_newline r
    else match split_newline r with
         | l :: ls => String c l :: ls
         | [] => [String c EmptyString]
         end
  end.

(** How a call ends: it returns, or it throws. State changes made before a
    throw stay in place, so every effectful function below returns the state
    together with its completion. *)
Record Error := {
  err_message : string;
  (* error.response?.data?.detail, which axios attaches to HTTP failures *)
  response_detail : value
}.

Inductive completion :=
| Returned
| Threw (e : Error).

Definition plainError (m : string) : Error :=
  {| err_message := m; response_detail := None |}.

(** Reading [.includes] of [undefined]. *)
Definition TypeError_includes : Error :=
  plainError "Cannot read properties of undefined (reading 'includes')".

(** A parameter with a default value: the default applies when the argument
    is omitted or [undefined]. *)
Definition default_param {A} (arg : option A) (d : A) : A :=
  match arg with
  | Some a => a
  | None => d
  end.

End JS.

(* ===================================================================== *)
(** ** api/housing.js: the HTTP client                                    *)
(* ===================================================================== *)

Module HousingAPI.

(** The payload of one stream event after [JSON.parse], reduced to the
    fields the store reads. In the wire protocol the payload is a JSON
    object and all of these fields are strings. *)
Record EventData := {
  data_content : JS.value;
  data_message : JS.value;
  data_tool_name : JS.value;
  data_error : JS.value;
  data_conversation_id : JS.value;
  data_response : JS.value
}.

(** Body of [POST /chat]. *)
Record ChatRequest := {
  req_message : string;
  req_stream : bool;
  req_conversation_id : JS.value;
  req_max_iterations : Z
}.

(** [response.data] of a non-streaming chat call, as the response
    interceptor hands it over. *)
Record ChatResponse := {
  resp_response : JS.value;
  resp_message : JS.value;
  resp_conversation_id : JS.value
}.

(** A promise settles: resolved with a value or rejected with an error. *)
Inductive Settled (A : Type) :=
| Resolved (a : A)
| Rejected (e : JS.Error).
Arguments Resolved {A} a.
Arguments Rejected {A} e.

(** What [fetch] and the body reader give to [sendChatMessageStream]. A
    chunk is the text that [decoder.decode(value, { stream: true })] adds
    to the buffer; in this byte-level model decoding is the identity (the
    streaming decoder holds back at most an unfinished multi-byte sequence,
    which holds no line feed). *)
Inductive StreamResponse :=
| FetchRejected (e : JS.Error)
| NotOk (status : nat) (errorText : string)
(* the reads yield [chunks] in order; then the reader reports [done]
   ([None]) or a read is rejected ([Some e]) *)
| Body (chunks : list string) (readFailure : option JS.Error).

(** The network and the server behind it, as seen from the client.
    [post_reset] receives the [conversation_id] of the JSON body, [None]
    when the request has no body. *)
Record Transport := {
  post_chat : ChatRequest -> Settled ChatResponse;
  fetch_chat : ChatRequest -> StreamResponse;
  post_reset : option string -> Settled unit
}.

Definition defaultMaxIterations : Z := 15.

(** [static async sendChatMessage(message, conversationId = null,
    maxIterations = 15)] *)
Definition sendChatMessage (net : Transport) (message : string)
    (conversationId : JS.value) (maxIterations : option Z)
  : Settled ChatResponse :=
  post_chat net
    {| req_message := message;
       req_stream := false;
       req_conversation_id := conversationId;
       req_max_iterations := JS.default_param maxIterations defaultMaxIterations |}.

(** The request body that [sendChatMessageStream] serialises. *)
Definition streamRequest (message : string) (conversationId : JS.value)
    (maxIterations : option Z) : ChatRequest :=
  {| req_message := message;
     req_stream := true;
     req_conversation_id := conversationId;
     req_max_iterations := JS.default_param maxIterations defaultMaxIterations |}.

(** The callback [(eventType, data) => ...] as a function on the state of
    its owner: it returns the new state and how the call completed. *)
Definition Callback (Receiver : Type) : Type :=
  string -> EventData -> Receiver -> Receiver * JS.completion.

Section StreamParser.

(** [JSON.parse] followed by reading the fields: [None] when it throws. *)
Variable JSON_parse : string -> option EventData.

(** The state of whoever receives the events. *)
Context {Receiver : Type}.
Variable onEvent : Callback Receiver.

(** Body of [for (const line of lines)]. An exception of [JSON.parse] or of
    the callback is caught and logged; what the callback changed before it
    threw stays changed. *)
Definition processLine (line : string) (st : option string * Receiver)
  : option string * Receiver :=
  let '(currentEvent, s) := st in
  let trimmedLine := JS.trim line in
  if JS.startsWith trimmedLine "event: " then
    (Some (JS.slice 7 trimmedLine), s)
  else if JS.startsWith trimmedLine "data: " then
    if JS.truthy currentEvent then
      match JSON_parse (JS.slice 6 trimmedLine) with
      | Some data => (currentEvent, fst (onEvent (default "" currentEvent) data s))
      | None => (currentEvent, s)
      end
    else (currentEvent, s)
  else if String.eqb trimmedLine "" then (None, s)
  else (currentEvent, s).

Definition processLines (lines : list string) (st : option string * Receiver)
  : option string * Receiver :=
  fold_left (fun acc line => processLine line acc) lines st.

(** One round of [while (true)] after a successful read: append the chunk,
    split, keep the last piece as the new buffer, handle the others. *)
Definition processChunk (chunk : string) (st : string * (option string * Receiver))
  : string * (option string * Receiver) :=
  let '(buffer, inner) := st in
  let lines := JS.split_newline (buffer +:+ chunk) in
  (List.last lines "", processLines (removelast lines) inner).

Definition readAll (chunks : list string) (st : string * (option string * Receiver))
  : string * (option string * Receiver) :=
  fold_left (fun acc chunk => processChunk chunk acc) chunks st.

(** [static async sendChatMessageStream(message, onEvent,
    conversationId = null, maxIterations = 15)]; every error is logged and
    thrown again. *)
Definition sendChatMessageStream (net : Transport) (message : string)
    (conversationId : JS.value) (maxIterations : option Z) (s : Receiver)
  : Receiver * JS.completion :=
  match fetch_chat net (streamRequest message conversationId maxIterations) with
  | FetchRejected e => (s, JS.Threw e)
  | NotOk status errorText =>
    (s, JS.Threw (JS.plainError ("HTTP error! status: " +:+ pretty status +:+
                                 ", body: " +:+ errorText)))
  | Body chunks readFailure =>
    let s' := snd (snd (readAll chunks ("", (None, s)))) in
    match readFailure with
    | None => (s', JS.Returned)
    | Some e => (s', JS.Threw e)
    end
  end.

End StreamParser.

(** The calls the parser makes, in order: the parser run with a callback
    that only records its arguments. *)
Definition record_call (eventType : string) (data : EventData)
    (log : list (string * EventData)) : list (string * EventData) * JS.completion :=
  (log ++ [(eventType, data)], JS.Returned).

Definition callbacks (JSON_parse : string -> option EventData)
    (chunks : list string) : list (string * EventData) :=
  snd (snd (readAll JSON_parse record_call chunks ("", (None, [])))).

(** [static async resetSession(conversationId)]: the id travels in the JSON
    body of [POST /reset]. *)
Definition resetSession (net : Transport) (conversationId : string) : Settled unit :=
  post_reset net (Some conversationId).

(** [static async resetAllSessions()]: [POST /reset] without a body. *)
Definition resetAllSessions (net : Transport) : Settled unit :=
  post_reset net None.

End HousingAPI.

(* ===================================================================== *)
(** ** stores/housing.js: the Pinia store                                 *)
(* ===================================================================== *)

Module Store.
Import HousingAPI.

(** [currentStep]: 'input' | 'chat' | 'result' *)
Inductive Step := StepInput | StepChat | StepResult.

(** [role] of a history entry: 'user' | 'assistant' *)
Inductive Role := user | assistant.

(** An entry of [conversationHistory]. Its [id] (clock plus random number)
    and [timestamp] are written once and never read by the store; they are
    left out. [content] is whatever was passed to [addMessage], which may be
    [undefined]. *)
Record Message := {
  role : Role;
  content : JS.value
}.

Inductive ToolStatus := running | completed.

(** An entry of [currentToolCalls], again without [id] and [timestamp]. *)
Record ToolCall := {
  tool_name : string;
  status : ToolStatus;
  message : string
}.

Record ReportData := {
  report_content : string;
  report_conversationId : JS.value
}.

(** The part of [state()] that the chat and session actions touch
    ([userProfile], [reportUrl], [shareUrl] and [currentSessionInfo] are
    not). [sessions] keeps the conversation ids of the listed summaries. *)
Record State := {
  userInput : string;
  conversationHistory : list Message;
  currentStep : Step;
  isStreaming : bool;
  streamingMessage : string;
  currentToolCalls : list ToolCall;
  streamingProgress : string;
  reportData : option ReportData;
  loading : bool;
  error : JS.value;
  conversationId : JS.value;
  sessions : list string
}.

Definition initialState : State :=
  {| userInput := ""; conversationHistory := []; currentStep := StepInput;
     isStreaming := false; streamingMessage := ""; currentToolCalls := [];
     streamingProgress := ""; reportData := None; loading := false;
     error := None; conversationId := None; sessions := [] |}.

(** Assignments [this.field = v]. *)
Definition set_userInput (v : string) (s : State) : State :=
  {| userInput := v; conversationHistory := conversationHistory s;
     currentStep := currentStep s; isStreaming := isStreaming s;
     streamingMessage := streamingMessage s; currentToolCalls := currentToolCalls s;
     streamingProgress := streamingProgress s; reportData := reportData s;
     loading := loading s; error := error s; conversationId := conversationId s;
     sessions := sessions s |}.

Definition set_conversationHistory (v : list Message) (s : State) : State :=
  {| userInput := userInput s; conversationHistory := v;
     currentStep := currentStep s; isStreaming := isStreaming s;
     streamingMessage := streamingMessage s; currentToolCalls := currentToolCalls s;
     streamingProgress := streamingProgress s; reportData := reportData s;
     loading := loading s; error := error s; conversationId := conversationId s;
     sessions := sessions s |}.

Definition set_currentStep (v : Step) (s : State) : State :=
  {| userInput := userInput s; conversationHistory := conversationHistory s;
     currentStep := v; isStreaming := isStreaming s;
     streamingMessage := streamingMessage s; currentToolCalls := currentToolCalls s;
     streamingProgress := streamingProgress s; reportData := reportData s;
     loading := loading s; error := error s; conversationId := conversationId s;
     sessions := sessions s |}.

Definition set_isStreaming (v : bool) (s : State) : State :=
  {| userInput := userInput s; conversationHistory := conversationHistory s;
     currentStep := currentStep s; isStreaming := v;
     streamingMessage := streamingMessage s; currentToolCalls := currentToolCalls s;
     streamingProgress := streamingProgress s; reportData := reportData s;
     loading := loading s; error := error s; conversationId := conversationId s;
     sessions := sessions s |}.

Definition set_streamingMessage (v : string) (s : State) : State :=
  {| userInput := userInput s; conversationHistory := conversationHistory s;
     currentStep := currentStep s; isStreaming := isStreaming s;
     streamingMessage := v; currentToolCalls := currentToolCalls s;
     streamingProgress := streamingProgress s; reportData := reportData s;
     loading := loading s; error := error s; conversationId := conversationId s;
     sessions := sessions s |}.

Definition set_currentToolCalls (v : list ToolCall) (s : State) : State :=
  {| userInput := userInput s; conversationHistory := conversationHistory s;
     currentStep := currentStep s; isStreaming := isStreaming s;
     streamingMessage := streamingMessage s; currentToolCalls := v;
     streamingProgress := streamingProgress s; reportData := reportData s;
     loading := loading s; error := error s; conversationId := conversationId s;
     sessions := sessions s |}.

Definition set_streamingProgress (v : string) (s : State) : State :=
  {| userInput := userInput s; conversationHistory := conversationHistory s;
     currentStep := currentStep s; isStreaming := isStreaming s;
     streamingMessage := streamingMessage s; currentToolCalls := currentToolCalls s;
     streamingProgress := v; reportData := reportData s;
     loading := loading s; error := error s; conversationId := conversationId s;
     sessions := sessions s |}.

Definition set_reportData (v : option ReportData) (s : State) : State :=
  {| userInput := userInput s; conversationHistory := conversationHistory s;
     currentStep := currentStep s; isStreaming := isStreaming s;
     streamingMessage := streamingMessage s; currentToolCalls := currentToolCalls s;
     streamingProgress := streamingProgress s; reportData := v;
     loading := loading s; error := error s; conversationId := conversationId s;
     sessions := sessions s |}.

Definition set_loading (v : bool) (s : State) : State :=
  {| userInput := userInput s; conversationHistory := conversationHistory s;
     currentStep := currentStep s; isStreaming := isStreaming s;
     streamingMessage := streamingMessage s; currentToolCalls := currentToolCalls s;
     streamingProgress := streamingProgress s; reportData := reportData s;
     loading := v; error := error s; conversationId := conversationId s;
     sessions := sessions s |}.

Definition set_error (v : JS.value) (s : State) : State :=
  {| userInput := userInput s; conversationHistory := conversationHistory s;
     currentStep := currentStep s; isStreaming := isStreaming s;
     streamingMessage := streamingMessage s; currentToolCalls := currentToolCalls s;
     streamingProgress := streamingProgress s; reportData := reportData s;
     loading := loading s; error := v; conversationId := conversationId s;
     sessions := sessions s |}.

Definition set_conversationId (v : JS.value) (s : State) : State :=
  {| userInput := userInput s; conversationHistory := conversationHistory s;
     currentStep := currentStep s; isStreaming := isStreaming s;
     streamingMessage := streamingMessage s; currentToolCalls := currentToolCalls s;
     streamingProgress := streamingProgress s; reportData := reportData s;
     loading := loading s; error := error s; conversationId := v;
     sessions := sessions s |}.

Definition set_sessions (v : list string) (s : State) : State :=
  {| userInput := userInput s; conversationHistory := conversationHistory s;
     currentStep := currentStep s; isStreaming := isStreaming s;
     streamingMessage := streamingMessage s; currentToolCalls := currentToolCalls s;
     streamingProgress := streamingProgress s; reportData := reportData s;
     loading := loading s; error := error s; conversationId := conversationId s;
     sessions := v |}.

(** [initializeSession()] *)
Definition initializeSession (s : State) : State :=
  set_currentStep StepInput (set_conversationHistory [] (set_conversationId None s)).

(** [addMessage(role, content)]: push at the end of the history. *)
Definition addMessage (r : Role) (c : JS.value) (s : State) : State :=
  set_conversationHistory (conversationHistory s ++ [{| role := r; content := c |}]) s.

(** [handleError(message, error)] *)
Definition handleError (msg : string) (e : JS.Error) (s : State) : State :=
  if JS.truthy (JS.response_detail e)
  then set_error (Some (msg +:+ ": " +:+ default "" (JS.response_detail e))) s
  else set_error (Some msg) s.

Definition reportMarkers : list string :=
  ["购房资金方案报告"; "总成本概览"; "月供压力分析"].

(** [isReportResponse(message)]: [None] when [message] is [undefined], where
    reading [message.includes] throws a TypeError. *)
Definition isReportResponse (m : JS.value) : option bool :=
  match m with
  | None => None
  | Some text =>
    Some (JS.includes text "购房资金方案报告" ||
          JS.includes text "总成本概览" ||
          JS.includes text "月供压力分析")
  end.

(** The [find] of the tool_result case followed by the two assignments to
    the entry found: the first running entry of that name is completed. *)
Fixpoint completeRunningTool (name resultMessage : string) (calls : list ToolCall)
  : list ToolCall :=
  match calls with
  | [] => []
  | tool :: rest =>
    match status tool with
    | running =>
      if String.eqb (tool_name tool) name
      then {| tool_name := tool_name tool; status := completed;
              message := resultMessage |} :: rest
      else tool :: completeRunningTool name resultMessage rest
    | completed => tool :: completeRunningTool name resultMessage rest
    end
  end.

(** The entry that [find] returns in the tool_result case. *)
Definition findRunningTool (name : string) (calls : list ToolCall) : option ToolCall :=
  List.find (fun tool =>
               String.eqb (tool_name tool) name &&
               match status tool with running => true | completed => false end)
            calls.

(** The message recorded at done: [streamingMessage || data.response ||
    data.message]. *)
Definition fullMessage (data : EventData) (s : State) : JS.value :=
  JS.or (JS.or (Some (streamingMessage s)) (data_response data)) (data_message data).

(** The 'complete' / 'done' case. *)
Definition handleDone (data : EventData) (s : State) : State * JS.completion :=
  let s1 := if JS.truthy (data_conversation_id data)
            then set_conversationId (data_conversation_id data) s else s in
  let full := fullMessage data s1 in
  let s2 := addMessage assistant full s1 in
  match isReportResponse full with
  | None => (s2, JS.Threw JS.TypeError_includes)
  | Some isReport =>
    let s3 := if isReport
              then set_currentStep StepResult
                     (set_reportData
                        (Some {| report_content := default "" full;
                                 report_conversationId := data_conversation_id data |})
                        s2)
              else s2 in
    (set_currentToolCalls []
       (set_streamingProgress "" (set_streamingMessage "" s3)), JS.Returned)
  end.

(** [handleStreamEvent(eventType, data)] *)
Definition handleStreamEvent (eventType : string) (data : EventData) (s : State)
  : State * JS.completion :=
  if String.eqb eventType "message" || String.eqb eventType "response_chunk" then
    (set_streamingMessage
       (streamingMessage s +:+
        JS.or_str (JS.or (data_content data) (data_message data)) "") s,
     JS.Returned)
  else if String.eqb eventType "tool_call" then
    let toolName := JS.or_str (data_tool_name data) "工具" in
    let toolMessage :=
      JS.or_str (data_message data) ("正在调用 " +:+ toolName +:+ "...") in
    (set_streamingProgress toolMessage
       (set_currentToolCalls
          (currentToolCalls s ++
           [{| tool_name := toolName; status := running; message := toolMessage |}]) s),
     JS.Returned)
  else if String.eqb eventType "tool_result" then
    let resultToolName := JS.or_str (data_tool_name data) "工具" in
    let resultMessage :=
      JS.or_str (data_message data) (resultToolName +:+ " 执行完成") in
    (set_streamingProgress resultMessage
       (set_currentToolCalls
          (completeRunningTool resultToolName resultMessage (currentToolCalls s)) s),
     JS.Returned)
  else if String.eqb eventType "thinking" then
    (set_streamingProgress (JS.or_str (data_message data) "正在思考...") s, JS.Returned)
  else if String.eqb eventType "response_start" then
    (set_streamingProgress "正在生成回复..." s, JS.Returned)
  else if String.eqb eventType "response_end" then
    (set_streamingProgress "" s, JS.Returned)
  else if String.eqb eventType "error" then
    (handleError "流式响应错误"
       (JS.plainError (default "" (JS.or (data_error data) (data_message data)))) s,
     JS.Returned)
  else if String.eqb eventType "complete" || String.eqb eventType "done" then
    handleDone data s
  else (s, JS.Returned).

(** The [catch] block shared by [sendMessage] and [sendMessageStream]. *)
Definition popTrailingUserMessage (s : State) : State :=
  match List.last (map Some (conversationHistory s)) None with
  | Some {| role := user |} =>
    set_conversationHistory (removelast (conversationHistory s)) s
  | _ => s
  end.

Definition onSendFailure (msg : string) (e : JS.Error) (s : State) : State :=
  set_currentStep StepInput (popTrailingUserMessage (handleError msg e s)).

(** [async sendMessage(input)] *)
Definition sendMessage (net : Transport) (input : string) (s : State) : State :=
  if String.eqb (JS.trim input) "" then s else
  let s0 := set_userInput input (set_error None (set_loading true s)) in
  (* try *)
  let s1 := set_currentStep StepChat (addMessage user (Some input) s0) in
  let tried :=
    match HousingAPI.sendChatMessage net input (conversationId s1) None with
    | Rejected e => (s1, JS.Threw e)
    | Resolved response =>
      let s2 := if JS.truthy (resp_conversation_id response)
                then set_conversationId (resp_conversation_id response) s1 else s1 in
      let reply := JS.or (resp_response response) (resp_message response) in
      let s3 := addMessage assistant reply s2 in
      match isReportResponse reply with
      | None => (s3, JS.Threw JS.TypeError_includes)
      | Some isReport =>
        if isReport
        then (set_currentStep StepResult
                (set_reportData
                   (Some {| report_content := default "" reply;
                            report_conversationId := resp_conversation_id response |})
                   s3), JS.Returned)
        else (s3, JS.Returned)
      end
    end in
  (* catch *)
  let caught :=
    match snd tried with
    | JS.Threw e => onSendFailure "发送消息失败" e (fst tried)
    | JS.Returned => fst tried
    end in
  (* finally *)
  set_loading false caught.

(** [async sendMessageStream(input)] *)
Definition sendMessageStream (JSON_parse : string -> option EventData)
    (net : Transport) (input : string) (s : State) : State :=
  if String.eqb (JS.trim input) "" then s else
  let s0 := set_currentToolCalls []
              (set_streamingProgress ""
                 (set_streamingMessage ""
                    (set_userInput input (set_error None (set_isStreaming true s))))) in
  (* try *)
  let s1 := set_currentStep StepChat (addMessage user (Some input) s0) in
  let tried :=
    HousingAPI.sendChatMessageStream JSON_parse handleStreamEvent net input
      (conversationId s1) None s1 in
  (* catch *)
  let caught :=
    match snd tried with
    | JS.Threw e => onSendFailure "发送流式消息失败" e (fst tried)
    | JS.Returned => fst tried
    end in
  (* finally *)
  set_isStreaming false caught.

(** [async resetCurrentSession()]: the result is [undefined] ([None]) when
    there is no conversation id, otherwise [true] or [false]. *)
Definition resetCurrentSession (net : Transport) (s : State) : State * option bool :=
  match conversationId s with
  | Some id =>
    if String.eqb id "" then (s, None) else
    match HousingAPI.resetSession net id with
    | Resolved _ => (initializeSession s, Some true)
    | Rejected e => (handleError "重置会话失败" e s, Some false)
    end
  | None => (s, None)
  end.

(** [async resetAllSessions()] *)
Definition resetAllSessions (net : Transport) (s : State) : State * bool :=
  match HousingAPI.resetAllSessions net with
  | Resolved _ => (set_sessions [] (initializeSession s), true)
  | Rejected e => (handleError "重置所有会话失败" e s, false)
  end.

End Store.

(* ===================================================================== *)
(** ** The server side of a turn                                          *)
(* ===================================================================== *)

(** The agent loop, its session store and its event encoder run in the
    Python back end, which the client reaches over HTTP only. They are
    modelled from the specification (sections 3, 4.3 to 4.5, 6 and 8). *)

Module SessionStore.

(** Modelled from the spec: the data model of section 3 (the back end's
    message and conversation types are not among the sources). *)
Record ToolCallRequest := {
  call_id : string;
  call_tool : string;
  call_args : string
}.

(** Modelled from the spec: the outcome of a tool call, "result payload OR
    error descriptor" (section 3; the tagged variant of section 9). *)
Inductive ToolCallOutcome :=
| Success (payload : string)
| ToolError (kind detail : string).

(** Modelled from the spec: "role ∈ {User, Assistant, ToolResult}". *)
Inductive MessageRole := User | Assistant | ToolResult.

(** Modelled from the spec: a message of section 3, with its optional
    requests (assistant) and its optional outcome (tool result, keyed by
    the request id). *)
Record Message := {
  msg_role : MessageRole;
  msg_content : option string;
  msg_requests : list ToolCallRequest;
  msg_outcome : option (string * ToolCallOutcome)
}.

(** Modelled from the spec: "status ∈ {Active, Completed, Failed}". *)
Inductive Status := Active | Completed | Failed.

(** Modelled from the spec: the conversation of section 3 (the
    last-activity timestamp plays no part below and is left out). *)
Record Conversation := {
  identifier : string;
  messages : list Message;
  iteration_counter : nat;
  conv_status : Status;
  created_at : nat
}.

(** Modelled from the spec: "Conversation created on first message for a
    given id", with "iteration counter (starts at 0)" and no message. *)
Definition newConversation (id : string) (now : nat) : Conversation :=
  {| identifier := id; messages := []; iteration_counter := 0;
     conv_status := Active; created_at := now |}.

(** Modelled from the spec: the session store of section 4.4, a map from
    conversation identifier to conversation state. [fresh_id] generates the
    identifier when the request carries none. *)
Definition getOrCreate (fresh_id : gmap string Conversation -> string) (now : nat)
    (id : option string) (store : gmap string Conversation)
  : gmap string Conversation * (Conversation * string) :=
  let key := default (fresh_id store) id in
  match store !! key with
  | Some c => (store, (c, key))
  | None => (<[key := newConversation key now]> store, (newConversation key now, key))
  end.

(** Modelled from the spec: [get(id) -> Conversation | NotFound]. *)
Definition get (id : string) (store : gmap string Conversation) : option Conversation :=
  store !! id.

(** Modelled from the spec: [reset(id?)] "resets one conversation, or all
    if id omitted"; the "reset operation discards the conversation
    disregarding its state". *)
Definition reset (id : option string) (store : gmap string Conversation)
  : gmap string Conversation :=
  match id with
  | Some key => delete key store
  | None => ∅
  end.

(** Modelled from the spec: [list() -> summaries{id, created_at,
    message_count}]. *)
Definition listSessions (store : gmap string Conversation) : list (string * nat * nat) :=
  (fun kc => (kc.1, created_at kc.2, length (messages kc.2))) <$> map_to_list store.

End SessionStore.

Module AgentLoop.
Import SessionStore.

(** Modelled from the spec: the model gateway's answer (section 4.2), a
    final text delivered as one fragment or as several, or a list of tool
    invocations; and a failure that the retry policy of section 7 did not
    cure. *)
Inductive ModelResponse :=
| FinalText (fragments : list string)
| ToolCallsRequested (requests : list ToolCallRequest)
| GatewayFailed (description : string).

(** Modelled from the spec: the wire events of section 6. *)
Inductive Event :=
| ev_thinking (message conversation_id : string)
| ev_tool_call (tool_name tool_args message : string)
| ev_tool_result (tool_name : string) (result : ToolCallOutcome) (message : string)
| ev_response_start (message : string) (iterations : nat)
| ev_response_chunk (content : string)
| ev_response_end (message full_response : string)
| ev_done (status : string) (iterations : nat) (conversation_id : string)
| ev_error (error message : string).

(** Modelled from the spec: why a turn is Failed, "on an unrecoverable error
    or iteration-limit exhaustion" (section 3). *)
Inductive FailureReason :=
| IterationLimitExceeded
| Unrecoverable (description : string).

(** Modelled from the spec: the states of section 4.3, "Init ->
    AwaitingModel -> {ExecutingTools -> AwaitingModel} * -> Streaming ->
    Completed or -> Failed at any point". *)
Inductive Phase :=
| Init (userMessage : string)
| AwaitingModel
| ExecutingTools (requests : list ToolCallRequest)
| Streaming (fragments : list string)
| PhaseCompleted
| PhaseFailed (reason : FailureReason).

(** Modelled from the spec: a turn in progress, that is the state of the
    loop: its phase, the conversation, the round trips to the gateway made
    in this turn (the counter that [max_iterations] bounds), and the events
    emitted so far, oldest first. *)
Record Turn := {
  phase : Phase;
  conversation : Conversation;
  iterations : nat;
  emitted : list Event
}.

(** Modelled from the spec: the three kinds of messages the loop appends. *)
Definition userMessage (text : string) : Message :=
  {| msg_role := User; msg_content := Some text; msg_requests := [];
     msg_outcome := None |}.

Definition assistantMessage (text : string) : Message :=
  {| msg_role := Assistant; msg_content := Some text; msg_requests := [];
     msg_outcome := None |}.

Definition toolResultMessage (request : ToolCallRequest) (outcome : ToolCallOutcome)
  : Message :=
  {| msg_role := ToolResult; msg_content := None; msg_requests := [];
     msg_outcome := Some (call_id request, outcome) |}.

(** Modelled from the spec: the loop's updates of the conversation:
    "messages are append-only", the counter "increments exactly once per
    completed round-trip", and the status changes at the end of the turn. *)
Definition appendMessages (new : list Message) (c : Conversation) : Conversation :=
  {| identifier := identifier c; messages := messages c ++ new;
     iteration_counter := iteration_counter c; conv_status := conv_status c;
     created_at := created_at c |}.

Definition countRoundTrip (c : Conversation) : Conversation :=
  {| identifier := identifier c; messages := messages c;
     iteration_counter := S (iteration_counter c); conv_status := conv_status c;
     created_at := created_at c |}.

Definition setStatus (st : Status) (c : Conversation) : Conversation :=
  {| identifier := identifier c; messages := messages c;
     iteration_counter := iteration_counter c; conv_status := st;
     created_at := created_at c |}.

Section Loop.

(** Modelled from the spec: the model gateway, [complete(messages,
    toolSchemas)] of section 4.2 with the registry's schemas fixed. *)
Variable gateway : list Message -> ModelResponse.

(** Modelled from the spec: the tool registry of section 4.1, a map from
    tool name to the capability. *)
Variable registry : gmap string (string -> ToolCallOutcome).

Variable max_iterations : nat.

(** Modelled from the spec: [invoke(name, args)]; an unknown name is an
    error outcome, never a hard failure (section 3, last invariant). *)
Definition invoke (request : ToolCallRequest) : ToolCallOutcome :=
  match registry !! call_tool request with
  | Some capability => capability (call_args request)
  | None => ToolError "UnknownTool" (call_tool request)
  end.

(** Modelled from the spec: the two events of a tool invocation,
    [tool_call {tool_name, tool_args, message}] and [tool_result {tool_name,
    result, message}]. *)
Definition toolCallEvent (request : ToolCallRequest) : Event :=
  ev_tool_call (call_tool request) (call_args request)
    ("正在调用 " +:+ call_tool request +:+ "...").

Definition toolResultEvent (request : ToolCallRequest) : Event :=
  ev_tool_result (call_tool request) (invoke request)
    (call_tool request +:+ " 执行完成").

(** Modelled from the spec: one transition of the loop of section 4.3.
    - Init appends the user message.
    - AwaitingModel emits [thinking] and calls the gateway; a completed
      round trip counts one iteration ("increments exactly once per
      completed round-trip"); zero requested calls are the final text [""].
    - ExecutingTools emits one [tool_call] per request in the model's
      order, then the [tool_result]s in the same order, appends one
      ToolResult message per outcome, and goes back to AwaitingModel unless
      the iteration budget is used up: then the turn fails with
      IterationLimitExceeded, reported by [done] with status "error"
      (scenario D of section 8: with [max_iterations = 1], one pair of tool
      events, then [done{status:"error", iterations:1}], no further model
      call).
    - Streaming emits [response_start], the fragments as [response_chunk]s,
      [response_end] with the assembled text, appends the assistant
      message and emits [done].
    - An unrecoverable error emits [error] and stops.
    The texts of the [message] fields are those of the API documentation. *)
Definition step (t : Turn) : option Turn :=
  let c := conversation t in
  match phase t with
  | Init text =>
    Some {| phase := AwaitingModel;
            conversation := appendMessages [userMessage text] c;
            iterations := iterations t; emitted := emitted t |}
  | AwaitingModel =>
    let out := emitted t ++ [ev_thinking "正在理解您的需求..." (identifier c)] in
    match gateway (messages c) with
    | GatewayFailed description =>
      Some {| phase := PhaseFailed (Unrecoverable description);
              conversation := setStatus Failed c;
              iterations := iterations t;
              emitted := out ++ [ev_error description "处理失败"] |}
    | ToolCallsRequested (r :: rs) =>
      Some {| phase := ExecutingTools (r :: rs);
              conversation := countRoundTrip c;
              iterations := S (iterations t); emitted := out |}
    | ToolCallsRequested [] =>
      Some {| phase := Streaming [""];
              conversation := countRoundTrip c;
              iterations := S (iterations t); emitted := out |}
    | FinalText fragments =>
      Some {| phase := Streaming fragments;
              conversation := countRoundTrip c;
              iterations := S (iterations t); emitted := out |}
    end
  | ExecutingTools requests =>
    let out := emitted t ++ map toolCallEvent requests ++ map toolResultEvent requests in
    let c' := appendMessages (map (fun r => toolResultMessage r (invoke r)) requests) c in
    if Nat.leb max_iterations (iterations t) then
      Some {| phase := PhaseFailed IterationLimitExceeded;
              conversation := setStatus Failed c';
              iterations := iterations t;
              emitted := out ++ [ev_done "error" (iterations t) (identifier c)] |}
    else
      Some {| phase := AwaitingModel; conversation := c';
              iterations := iterations t; emitted := out |}
  | Streaming fragments =>
    let text := String.concat "" fragments in
    Some {| phase := PhaseCompleted;
            conversation := setStatus Completed (appendMessages [assistantMessage text] c);
            iterations := iterations t;
            emitted := emitted t ++
              [ev_response_start "开始生成回复..." (iterations t)] ++
              map ev_response_chunk fragments ++
              [ev_response_end "回复生成完成" text;
               ev_done "success" (iterations t) (identifier c)] |}
  | PhaseCompleted => None
  | PhaseFailed _ => None
  end.

(** Modelled from the spec: Completed and Failed are the terminal states. *)
Definition terminal (t : Turn) : bool :=
  match phase t with
  | PhaseCompleted | PhaseFailed _ => true
  | _ => false
  end.

(** Modelled from the spec: the loop itself, here at most [n] transitions,
    stopping at a terminal state. *)
Fixpoint steps (n : nat) (t : Turn) : Turn :=
  match n with
  | O => t
  | S k => match step t with
           | Some t' => steps k t'
           | None => t
           end
  end.

(** Modelled from the spec: a turn starts in Init with the new user
    message, no event emitted and no iteration counted. *)
Definition start (c : Conversation) (text : string) : Turn :=
  {| phase := Init text; conversation := c; iterations := 0; emitted := [] |}.

(** Modelled from the spec: the states a turn goes through. *)
Inductive reachable (c : Conversation) (text : string) : Turn -> Prop :=
| reach_start : reachable c text (start c text)
| reach_step t t' : reachable c text t -> step t = Some t' -> reachable c text t'.

(** Modelled from the spec: running a turn to its end; [2 * max_iterations
    + 3] transitions are enough, whatever the gateway and the tools answer
    (lemma [turn_terminates]). *)
Definition runTurn (c : Conversation) (text : string) : Turn :=
  steps (2 * max_iterations + 3) (start c text).

End Loop.

(** Modelled from the spec: the non-streaming response of section 6,
    [{status, response?, error?, iterations, conversation_id}]. *)
Record Reply := {
  reply_status : string;
  reply_response : option string;
  reply_error : option string;
  reply_iterations : nat;
  reply_conversation_id : string
}.

(** Modelled from the spec: the [response] of a successful reply is the
    final text, the assistant message appended last; the [error] of a
    failed one describes the failure. *)
Definition lastAssistantText (c : Conversation) : option string :=
  match List.last (map Some (messages c)) None with
  | Some m => match msg_role m with Assistant => msg_content m | _ => None end
  | None => None
  end.

Definition describe (reason : FailureReason) : string :=
  match reason with
  | IterationLimitExceeded => "IterationLimitExceeded"
  | Unrecoverable description => description
  end.

Definition reply (t : Turn) : option Reply :=
  match phase t with
  | PhaseCompleted =>
    Some {| reply_status := "success";
            reply_response := lastAssistantText (conversation t);
            reply_error := None; reply_iterations := iterations t;
            reply_conversation_id := identifier (conversation t) |}
  | PhaseFailed reason =>
    Some {| reply_status := "error"; reply_response := None;
            reply_error := Some (describe reason);
            reply_iterations := iterations t;
            reply_conversation_id := identifier (conversation t) |}
  | _ => None
  end.

(** Modelled from the spec: the event stream encoder of section 4.5 with
    the shapes of section 6, as the client sees an event after parsing:
    the event name and the fields of its data (the fields the client never
    reads, [tool_args], [result], [iterations], [status] and
    [full_response], do not appear in [EventData]). *)
Definition encode (e : Event) : string * HousingAPI.EventData :=
  match e with
  | ev_thinking message conversation_id =>
    ("thinking",
     {| HousingAPI.data_content := None; HousingAPI.data_message := Some message;
        HousingAPI.data_tool_name := None; HousingAPI.data_error := None;
        HousingAPI.data_conversation_id := Some conversation_id;
        HousingAPI.data_response := None |})
  | ev_tool_call tool_name _ message =>
    ("tool_call",
     {| HousingAPI.data_content := None; HousingAPI.data_message := Some message;
        HousingAPI.data_tool_name := Some tool_name; HousingAPI.data_error := None;
        HousingAPI.data_conversation_id := None; HousingAPI.data_response := None |})
  | ev_tool_result tool_name _ message =>
    ("tool_result",
     {| HousingAPI.data_content := None; HousingAPI.data_message := Some message;
        HousingAPI.data_tool_name := Some tool_name; HousingAPI.data_error := None;
        HousingAPI.data_conversation_id := None; HousingAPI.data_response := None |})
  | ev_response_start message _ =>
    ("response_start",
     {| HousingAPI.data_content := None; HousingAPI.data_message := Some message;
        HousingAPI.data_tool_name := None; HousingAPI.data_error := None;
        HousingAPI.data_conversation_id := None; HousingAPI.data_response := None |})
  | ev_response_chunk content =>
    ("response_chunk",
     {| HousingAPI.data_content := Some content; HousingAPI.data_message := None;
        HousingAPI.data_tool_name := None; HousingAPI.data_error := None;
        HousingAPI.data_conversation_id := None; HousingAPI.data_response := None |})
  | ev_response_end message _ =>
    ("response_end",
     {| HousingAPI.data_content := None; HousingAPI.data_message := Some message;
        HousingAPI.data_tool_name := None; HousingAPI.data_error := None;
        HousingAPI.data_conversation_id := None; HousingAPI.data_response := None |})
  | ev_done _ _ conversation_id =>
    ("done",
     {| HousingAPI.data_content := None; HousingAPI.data_message := None;
        HousingAPI.data_tool_name := None; HousingAPI.data_error := None;
        HousingAPI.data_conversation_id := Some conversation_id;
        HousingAPI.data_response := None |})
  | ev_error error message =>
    ("error",
     {| HousingAPI.data_content := None; HousingAPI.data_message := Some message;
        HousingAPI.data_tool_name := None; HousingAPI.data_error := Some error;
        HousingAPI.data_conversation_id := None; HousingAPI.data_response := None |})
  end.

End AgentLoop.

(* ===================================================================== *)
(** ** Notions used to state the properties                               *)
(* ===================================================================== *)

(** What the stream parser does with the receiver's state over a sequence
    of calls: it invokes the callback on each and ignores how the call
    completes (the [catch] around [onEvent] only logs). *)
Definition deliver {Receiver : Type}
    (onEvent : HousingAPI.Callback Receiver)
    (calls : list (string * HousingAPI.EventData)) (s : Receiver) : Receiver :=
  fold_left (fun acc call => fst (onEvent call.1 call.2 acc)) calls s.

(** The store after the events of a server turn have reached
    [handleStreamEvent] in emission order. *)
Definition clientAfter (events : list AgentLoop.Event) (s : Store.State) : Store.State :=
  deliver Store.handleStreamEvent (map AgentLoop.encode events) s.

(** The store at the moment the stream of a turn opens: [sendMessageStream]
    has cleared the streaming fields, pushed the user message and moved to
    the chat step. *)
Definition streamOpened (input : string) (s : Store.State) : Store.State :=
  Store.set_currentStep Store.StepChat
    (Store.addMessage Store.user (Some input)
       (Store.set_currentToolCalls []
          (Store.set_streamingProgress ""
             (Store.set_streamingMessage ""
                (Store.set_userInput input
                   (Store.set_error None (Store.set_isStreaming true s))))))).

(** A transport that answers every chat request as [net] answers [request]. *)
Definition answeringAs (net : HousingAPI.Transport) (request : HousingAPI.ChatRequest)
  : HousingAPI.Transport :=
  {| HousingAPI.post_chat := fun _ => HousingAPI.post_chat net request;
     HousingAPI.fetch_chat := fun _ => HousingAPI.fetch_chat net request;
     HousingAPI.post_reset := HousingAPI.post_reset net |}.

(** The complete lines of a text and the unfinished piece after its last
    line feed. *)
Definition completeLines (text : string) : list string :=
  removelast (JS.split_newline text).

Definition pendingLine (text : string) : string :=
  List.last (JS.split_newline text) "".

Definition isDoneEvent (call : string * HousingAPI.EventData) : bool :=
  String.eqb call.1 "complete" || String.eqb call.1 "done".

Definition hasMarker (text : string) : bool :=
  existsb (fun marker => JS.includes text marker) Store.reportMarkers.

(** Event classification on the server's trace. *)
Definition isToolCall (e : AgentLoop.Event) : bool :=
  match e with AgentLoop.ev_tool_call _ _ _ => true | _ => false end.

Definition isToolResult (e : AgentLoop.Event) : bool :=
  match e with AgentLoop.ev_tool_result _ _ _ => true | _ => false end.

Definition isTerminalEvent (e : AgentLoop.Event) : bool :=
  match e with
  | AgentLoop.ev_done _ _ _ | AgentLoop.ev_error _ _ => true
  | _ => false
  end.

Definition toolNameOf (e : AgentLoop.Event) : option string :=
  match e with
  | AgentLoop.ev_tool_call name _ _ => Some name
  | AgentLoop.ev_tool_result name _ _ => Some name
  | _ => None
  end.

Definition chunkContent (e : AgentLoop.Event) : option string :=
  match e with
  | AgentLoop.ev_response_chunk content => Some content
  | _ => None
  end.

Definition fullResponse (e : AgentLoop.Event) : option string :=
  match e with
  | AgentLoop.ev_response_end _ full_response => Some full_response
  | _ => None
  end.

(** The contents of the [response_chunk] events, concatenated in emission
    order. *)
Definition concatChunks (events : list AgentLoop.Event) : string :=
  String.concat "" (omap chunkContent events).

(** A small [JSON.parse] for the examples: it knows four payloads and
    agrees with [JSON.parse] on them. [dq] is the double quote. *)
Definition dq : string := String (ascii_of_nat 34) "".

Definition jsonField (key val : string) : string :=
  "{" +:+ dq +:+ key +:+ dq +:+ ":" +:+ dq +:+ val +:+ dq +:+ "}".

Definition noData : HousingAPI.EventData :=
  {| HousingAPI.data_content := None; HousingAPI.data_message := None;
     HousingAPI.data_tool_name := None; HousingAPI.data_error := None;
     HousingAPI.data_conversation_id := None; HousingAPI.data_response := None |}.

Definition parseExample (payload : string) : option HousingAPI.EventData :=
  if String.eqb payload (jsonField "content" "30%") then
    Some {| HousingAPI.data_content := Some "30%"; HousingAPI.data_message := None;
            HousingAPI.data_tool_name := None; HousingAPI.data_error := None;
            HousingAPI.data_conversation_id := None; HousingAPI.data_response := None |}
  else if String.eqb payload (jsonField "conversation_id" "conv_1") then
    Some {| HousingAPI.data_content := None; HousingAPI.data_message := None;
            HousingAPI.data_tool_name := None; HousingAPI.data_error := None;
            HousingAPI.data_conversation_id := Some "conv_1";
            HousingAPI.data_response := None |}
  else if String.eqb payload (jsonField "tool_name" "policy_lookup") then
    Some {| HousingAPI.data_content := None; HousingAPI.data_message := None;
            HousingAPI.data_tool_name := Some "policy_lookup";
            HousingAPI.data_error := None;
            HousingAPI.data_conversation_id := None; HousingAPI.data_response := None |}
  else if String.eqb payload "{}" then Some noData
  else None.

(** Kinds of lines of an event stream, after trimming. *)
Definition isEventLine (line eventType : string) : Prop :=
  JS.trim line = "event: " +:+ eventType.

Definition isDataLine (line payload : string) : Prop :=
  JS.trim line = "data: " +:+ payload.

(** A line that neither closes the current event block nor opens another. *)
Definition keepsBlock (line : string) : Prop :=
  JS.trim line <> "" /\ JS.startsWith (JS.trim line) "event: " = false.

(** Where a recorded call comes from: an event line, then lines that keep
    the block open, then the data line whose payload parses to the data. *)
Definition fromBlock (JSON_parse : string -> option HousingAPI.EventData)
    (lines : list string) (call : string * HousingAPI.EventData) : Prop :=
  exists before eventLine between dataLine payload after,
    lines = before ++ eventLine :: between ++ dataLine :: after /\
    isEventLine eventLine call.1 /\
    Forall keepsBlock between /\
    isDataLine dataLine payload /\
    JSON_parse payload = Some call.2.

(** The lines end inside the block of an event line. *)
Definition openBlock (lines : list string) (eventType : string) : Prop :=
  exists before eventLine between,
    lines = before ++ eventLine :: between /\
    isEventLine eventLine eventType /\
    Forall keepsBlock between.

Definition nl : string := String JS.newline "".

(** The calls a stream response leads to, and how the request completes. *)
Definition streamCalls (JSON_parse : string -> option HousingAPI.EventData)
    (r : HousingAPI.StreamResponse) : list (string * HousingAPI.EventData) :=
  match r with
  | HousingAPI.Body chunks _ => HousingAPI.callbacks JSON_parse chunks
  | _ => []
  end.

Definition streamCompletion (r : HousingAPI.StreamResponse) : JS.completion :=
  match r with
  | HousingAPI.FetchRejected e => JS.Threw e
  | HousingAPI.NotOk status errorText =>
    JS.Threw (JS.plainError ("HTTP error! status: " +:+ pretty status +:+
                             ", body: " +:+ errorText))
  | HousingAPI.Body _ None => JS.Returned
  | HousingAPI.Body _ (Some e) => JS.Threw e
  end.

Definition chatRequest (message : string) (stream : bool) (conversationId : JS.value)
    (maxIterations : Z) : HousingAPI.ChatRequest :=
  {| HousingAPI.req_message := message; HousingAPI.req_stream := stream;
     HousingAPI.req_conversation_id := conversationId;
     HousingAPI.req_max_iterations := maxIterations |}.

(** Example networks. [failingNet] rejects every request; [droppingNet]
    streams a whole answer, its done event included, and then the
    connection breaks before the reader sees the end of the stream. *)
Definition networkError : JS.Error := JS.plainError "network error".

Definition failingNet : HousingAPI.Transport :=
  {| HousingAPI.post_chat := fun _ => HousingAPI.Rejected networkError;
     HousingAPI.fetch_chat := fun _ => HousingAPI.FetchRejected networkError;
     HousingAPI.post_reset := fun _ => HousingAPI.Rejected networkError |}.

Definition streamText : string :=
  "event: response_chunk" +:+ nl +:+
  "data: " +:+ jsonField "content" "30%" +:+ nl +:+ nl +:+
  "event: done" +:+ nl +:+
  "data: " +:+ jsonField "conversation_id" "conv_1" +:+ nl +:+ nl.

Definition droppingNet : HousingAPI.Transport :=
  {| HousingAPI.post_chat := fun _ => HousingAPI.Rejected networkError;
     HousingAPI.fetch_chat := fun _ => HousingAPI.Body [streamText] (Some networkError);
     HousingAPI.post_reset := fun _ => HousingAPI.Rejected networkError |}.

(** The store shows a report: it is at the result step, and [reportData]
    holds a text with a report marker that is an assistant message of the
    history. *)
Definition reportShown (s : Store.State) : Prop :=
  Store.currentStep s = Store.StepResult /\
  exists report,
    Store.reportData s = Some report /\
    hasMarker (Store.report_content report) = true /\
    In {| Store.role := Store.assistant;
          Store.content := Some (Store.report_content report) |}
       (Store.conversationHistory s).

Definition isThinking (e : AgentLoop.Event) : bool :=
  match e with AgentLoop.ev_thinking _ _ => true | _ => false end.

(** No done and no error event among the events. *)
Definition quiet (events : list AgentLoop.Event) : bool :=
  forallb (fun e => negb (isTerminalEvent e)) events.

(** Example turns. The registry knows one tool; the gateways are: a direct
    answer, an empty answer, one tool round and then an answer, one tool
    round and then an empty answer, tool calls for ever, and a gateway that
    is down. *)
Definition policyRegistry : gmap string (string -> SessionStore.ToolCallOutcome) :=
  {[ "policy_lookup" := fun _ => SessionStore.Success "30%" ]}.

Definition policyRequest : SessionStore.ToolCallRequest :=
  {| SessionStore.call_id := "call_1"; SessionStore.call_tool := "policy_lookup";
     SessionStore.call_args := "{}" |}.

Definition hasToolResult (history : list SessionStore.Message) : bool :=
  existsb (fun m => match SessionStore.msg_role m with
                    | SessionStore.ToolResult => true
                    | _ => false
                    end) history.

Definition directGateway (text : string) (_ : list SessionStore.Message)
  : AgentLoop.ModelResponse :=
  AgentLoop.FinalText [text].

Definition oneToolGateway (text : string) (history : list SessionStore.Message)
  : AgentLoop.ModelResponse :=
  if hasToolResult history then AgentLoop.FinalText [text]
  else AgentLoop.ToolCallsRequested [policyRequest].

Definition greedyGateway (_ : list SessionStore.Message) : AgentLoop.ModelResponse :=
  AgentLoop.ToolCallsRequested [policyRequest].


Definition freshConversation : SessionStore.Conversation :=
  SessionStore.newConversation "conv_1" 0.

(** A bound on the transitions a turn still makes. *)
Definition stepsLeft (max_iterations : nat) (t : AgentLoop.Turn) : nat :=
  match AgentLoop.phase t with
  | AgentLoop.Init _ => 2 * max_iterations + 3
  | AgentLoop.AwaitingModel => 2 * (max_iterations - AgentLoop.iterations t) + 2
  | AgentLoop.ExecutingTools _ =>
    if Nat.leb max_iterations (AgentLoop.iterations t) then 1
    else 2 * (max_iterations - AgentLoop.iterations t) + 3
  | AgentLoop.Streaming _ => 1
  | AgentLoop.PhaseCompleted | AgentLoop.PhaseFailed _ => 0
  end.

(** The iteration counter along a turn, phase by phase. A turn that failed
    on the iteration limit has used the whole budget and has the tool
    results of its last round at the end of the conversation. *)
Definition iterationsBounded
    (registry : gmap string (string -> SessionStore.ToolCallOutcome))
    (max_iterations : nat) (t : AgentLoop.Turn) : Prop :=
  match AgentLoop.phase t with
  | AgentLoop.Init _ => AgentLoop.iterations t = 0
  | AgentLoop.AwaitingModel => AgentLoop.iterations t < max_iterations
  | AgentLoop.ExecutingTools requests =>
    1 <= AgentLoop.iterations t <= max_iterations /\ requests <> []
  | AgentLoop.Streaming _ | AgentLoop.PhaseCompleted =>
    1 <= AgentLoop.iterations t <= max_iterations
  | AgentLoop.PhaseFailed AgentLoop.IterationLimitExceeded =>
    AgentLoop.iterations t = max_iterations /\
    exists earlier requests,
      requests <> [] /\
      SessionStore.messages (AgentLoop.conversation t) =
      earlier ++ map (fun r => AgentLoop.toolResultMessage r (AgentLoop.invoke registry r))
                     requests
  | AgentLoop.PhaseFailed (AgentLoop.Unrecoverable _) =>
    AgentLoop.iterations t < max_iterations
  end.

Definition countEvents (p : AgentLoop.Event -> bool) (events : list AgentLoop.Event) : nat :=
  length (List.filter p events).

(** How the trace of a turn ends, by the phase the turn is in: a running
    turn has emitted no done and no error; a completed turn ends with a
    successful [done]; a turn stopped by the limit ends with [done] of
    status "error"; an aborted turn ends with [error]. Before that last
    event there is no done and no error. *)
Definition traceEnd (id : string) (t : AgentLoop.Turn) : Prop :=
  match AgentLoop.phase t with
  | AgentLoop.PhaseCompleted =>
    exists body,
      AgentLoop.emitted t =
        body ++ [AgentLoop.ev_done "success" (AgentLoop.iterations t) id] /\
      quiet body = true
  | AgentLoop.PhaseFailed AgentLoop.IterationLimitExceeded =>
    exists body,
      AgentLoop.emitted t =
        body ++ [AgentLoop.ev_done "error" (AgentLoop.iterations t) id] /\
      quiet body = true
  | AgentLoop.PhaseFailed (AgentLoop.Unrecoverable description) =>
    exists body,
      AgentLoop.emitted t = body ++ [AgentLoop.ev_error description "处理失败"] /\
      quiet body = true
  | _ => quiet (AgentLoop.emitted t) = true
  end.

(** The answer text in the trace: before the turn completes there is no
    chunk and no [response_end]; a completed turn has one [response_end],
    whose [full_response] is the concatenation of the chunks and the text
    of the assistant message appended last. *)
Definition traceText (t : AgentLoop.Turn) : Prop :=
  match AgentLoop.phase t with
  | AgentLoop.PhaseCompleted =>
    omap fullResponse (AgentLoop.emitted t) = [concatChunks (AgentLoop.emitted t)] /\
    AgentLoop.lastAssistantText (AgentLoop.conversation t) =
      Some (concatChunks (AgentLoop.emitted t))
  | _ =>
    omap chunkContent (AgentLoop.emitted t) = [] /\
    omap fullResponse (AgentLoop.emitted t) = []
  end.

(** Tool events pair up: the [k]-th tool_result comes after the [k]-th
    tool_call and carries its tool name. *)
Definition resultsFollowCalls (events : list AgentLoop.Event) : Prop :=
  forall before e after,
    events = before ++ e :: after ->
    isToolResult e = true ->
    exists call,
      nth_error (List.filter isToolCall before)
                (countEvents isToolResult before) = Some call /\
      toolNameOf call = toolNameOf e.

(** The names of the running entries of [currentToolCalls], oldest first,
    and the number of completed entries. *)
Definition isRunning (tool : Store.ToolCall) : bool :=
  match Store.status tool with Store.running => true | Store.completed => false end.

Definition runningNames (calls : list Store.ToolCall) : list string :=
  map Store.tool_name (List.filter isRunning calls).

Definition completedCount (calls : list Store.ToolCall) : nat :=
  length (List.filter (fun tool => negb (isRunning tool)) calls).

(** The name under which the store files a tool event: [data.tool_name ||
    '工具']. *)
Definition shownName (name : string) : string := JS.or_str (Some name) "工具".

(** While the events are handled in order from store state [s], every
    tool_result finds a running entry of its name. *)
Fixpoint allResultsMatched (events : list AgentLoop.Event) (s : Store.State) : Prop :=
  match events with
  | [] => True
  | e :: rest =>
    match e with
    | AgentLoop.ev_tool_result name _ _ =>
      Store.findRunningTool (shownName name) (Store.currentToolCalls s) <> None
    | _ => True
    end /\
    allResultsMatched rest (clientAfter [e] s)
  end.

(** Modelled from the spec: the request router, "thin, out of core", hands
    the [conversation_id] of a reset request to the session store. *)
Definition handleReset (conversation_id : option string)
    (store : gmap string SessionStore.Conversation)
  : gmap string SessionStore.Conversation :=
  SessionStore.reset conversation_id store.

(** A network whose reset endpoint always succeeds. *)
Definition resettingNet : HousingAPI.Transport :=
  {| HousingAPI.post_chat := fun _ => HousingAPI.Rejected networkError;
     HousingAPI.fetch_chat := fun _ => HousingAPI.FetchRejected networkError;
     HousingAPI.post_reset := fun _ => HousingAPI.Resolved tt |}.

Definition userEntry (text : string) : Store.Message :=
  {| Store.role := Store.user; Store.content := Some text |}.

Definition assistantEntry (text : JS.value) : Store.Message :=
  {| Store.role := Store.assistant; Store.content := text |}.

(** A store in the middle of a conversation. *)
Definition chattingStore : Store.State :=
  Store.set_conversationId (Some "conv_1")
    (Store.set_conversationHistory [userEntry "你好"; assistantEntry (Some "您好")]
       (Store.set_currentStep Store.StepChat Store.initialState)).

(** A report as the agent writes it, and the done event that ends its turn. *)
Definition reportText : string := "# 购房资金方案报告" +:+ nl +:+ "首付 30%".

Definition reportCall : string * HousingAPI.EventData :=
  ("done",
   {| HousingAPI.data_content := None; HousingAPI.data_message := None;
      HousingAPI.data_tool_name := None; HousingAPI.data_error := None;
      HousingAPI.data_conversation_id := Some "conv_1";
      HousingAPI.data_response := None |}).

(** A registry whose tool runs into its deadline. *)
Definition timeoutRegistry : gmap string (string -> SessionStore.ToolCallOutcome) :=
  {[ "policy_lookup" := fun _ => SessionStore.ToolError "Timeout" "30s" ]}.

(* ===================================================================== *)
(** ** stores/housing.js: the getters                                     *)
(* ===================================================================== *)

Module Getters.

(** [hasActiveConversation] *)
Definition hasActiveConversation (s : Store.State) : bool :=
  Nat.ltb 0 (length (Store.conversationHistory s)).

Definition isAssistant (msg : Store.Message) : bool :=
  match Store.role msg with Store.assistant => true | Store.user => false end.

(** [latestAssistantMessage]:
    [assistantMessages[assistantMessages.length - 1]?.content || ''] *)
Definition latestAssistantMessage (s : Store.State) : string :=
  let assistantMessages := List.filter isAssistant (Store.conversationHistory s) in
  JS.or_str
    match List.last (map Some assistantMessages) None with
    | Some msg => Store.content msg
    | None => None
    end "".

(** [isBusy] *)
Definition isBusy (s : Store.State) : bool := Store.loading s || Store.isStreaming s.

(** [tool.status === st] *)
Definition hasStatus (st : Store.ToolStatus) (tool : Store.ToolCall) : bool :=
  match Store.status tool, st with
  | Store.running, Store.running => true
  | Store.completed, Store.completed => true
  | _, _ => false
  end.

(** [hasActiveToolCalls] *)
Definition hasActiveToolCalls (s : Store.State) : bool :=
  existsb (hasStatus Store.running) (Store.currentToolCalls s).

(** [activeToolCalls] *)
Definition activeToolCalls (s : Store.State) : list Store.ToolCall :=
  List.filter (hasStatus Store.running) (Store.currentToolCalls s).

(** [completedToolCalls] *)
Definition completedToolCalls (s : Store.State) : list Store.ToolCall :=
  List.filter (hasStatus Store.completed) (Store.currentToolCalls s).

End Getters.

(* ===================================================================== *)
(** ** api/housing.js: the response interceptor and the text helpers      *)
(* ===================================================================== *)

Module ApiClient.

(** [error.response] of a rejected axios request: the status code and
    [data.detail], which the server's error bodies carry as a string
    ([None] when the body, an object or a text, has no such field). *)
Record ErrorResponse := {
  status : nat;
  detail : JS.value
}.

(** The rejection handed to the response interceptor: [error.response] is
    absent when no answer arrived, and [error.code] then tells why. *)
Record AxiosError := {
  response : option ErrorResponse;
  code : JS.value
}.

(** The second function given to [apiClient.interceptors.response.use]:
    whatever the rejection, it throws a new [Error] that has a message and
    nothing else. *)
Definition responseRejected (error : AxiosError) : JS.Error :=
  match response error with
  | Some r =>
    if Nat.eqb (status r) 400 then JS.plainError (JS.or_str (detail r) "请求参数错误")
    else if Nat.eqb (status r) 500 then JS.plainError (JS.or_str (detail r) "服务器内部错误")
    else if Nat.eqb (status r) 503 then
      JS.plainError "Agent服务暂时不可用，请稍后重试或联系管理员"
    else JS.plainError (JS.or_str (detail r) ("请求失败 (" +:+ pretty (status r) +:+ ")"))
  | None =>
    match code error with
    | Some c =>
      if String.eqb c "ECONNABORTED" then JS.plainError "请求超时，请检查网络连接"
      else JS.plainError "网络错误，请检查连接"
    | None => JS.plainError "网络错误，请检查连接"
    end
  end.

(** The district names that [extractLocation] looks for, in its order. *)
Definition locations : list string :=
  ["朝阳"; "海淀"; "西城"; "东城"; "丰台"; "石景山"; "通州"; "昌平";
   "大兴"; "房山"; "门头沟"; "怀柔"; "密云"; "延庆"; "顺义"; "平谷"].

(** [extractLocation(input)] *)
Definition extractLocation (input : string) : string :=
  match List.find (fun location => JS.includes input location) locations with
  | Some location => location
  | None => if JS.includes input "北京" then "北京" else ""
  end.

(** [extractPurpose(input)] *)
Definition extractPurpose (input : string) : string :=
  if JS.includes input "自住" then "自住"
  else if JS.includes input "投资" then "投资"
  else if JS.includes input "改善" then "改善居住"
  else "自住".

End ApiClient.

(* ===================================================================== *)
(** ** utils/validation.js                                                *)
(* ===================================================================== *)

Module Validation.

(** [{ valid, message }] *)
Record Result := {
  valid : bool;
  message : string
}.

Definition accepted : Result := {| valid := true; message := "" |}.

Definition rejected (m : string) : Result := {| valid := false; message := m |}.

(** [isEmpty(value)] where the value is a string, [null] or [undefined]. *)
Definition isEmpty (value : JS.value) : bool :=
  match value with
  | None => true
  | Some s => String.eqb (JS.trim s) ""
  end.

Definition beijingDistricts : list string :=
  ["东城区"; "西城区"; "朝阳区"; "海淀区"; "丰台区"; "石景山区";
   "通州区"; "昌平区"; "大兴区"; "房山区"; "门头沟区"; "怀柔区";
   "密云区"; "延庆区"; "顺义区"; "平谷区"].

(** [s.replace(/suffix$/, '')] for a literal suffix: the text without that
    ending, or the text itself when it ends otherwise. *)
Fixpoint removeSuffix (suffix s : string) : string :=
  if String.eqb s suffix then ""
  else match s with
       | EmptyString => ""
       | String c r => String c (removeSuffix suffix r)
       end.

(** [list.includes(s)] *)
Definition listIncludes (l : list string) (s : string) : bool :=
  existsb (String.eqb s) l.

(** [validateLocation(location)] *)
Definition validateLocation (location : JS.value) : Result :=
  if isEmpty location then rejected "请选择意向购房区域" else
  let normalizedLocation := removeSuffix "区" (JS.trim (default "" location)) +:+ "区" in
  if negb (listIncludes beijingDistricts normalizedLocation)
  then rejected "请选择北京市内的有效区域"
  else accepted.

(** [validateMaritalStatus(maritalStatus)] *)
Definition validateMaritalStatus (maritalStatus : JS.value) : Result :=
  if isEmpty maritalStatus then rejected "请选择婚姻状况" else
  if negb (listIncludes ["未婚"; "已婚"; "离异"; "丧偶"] (default "" maritalStatus))
  then rejected "请选择有效的婚姻状况"
  else accepted.

(** [validatePurpose(purpose)] *)
Definition validatePurpose (purpose : JS.value) : Result :=
  if isEmpty purpose then rejected "请选择购房目的" else
  if negb (listIncludes ["自住"; "投资"; "改善居住"; "过渡居住"; "其他"] (default "" purpose))
  then rejected "请选择有效的购房目的"
  else accepted.

(** [validateLoanPreference(loanPreference)] *)
Definition validateLoanPreference (loanPreference : JS.value) : Result :=
  if isEmpty loanPreference then rejected "请选择贷款偏好" else
  if negb (listIncludes ["商贷"; "公积金"; "组合贷"; "全款"] (default "" loanPreference))
  then rejected "请选择有效的贷款偏好"
  else accepted.

(** Character classes of the two regular expressions. A byte of a
    multi-byte UTF-8 sequence is 128 or more and lies in none of them. *)
Definition between (lo hi : nat) (c : ascii) : bool :=
  Nat.leb lo (nat_of_ascii c) && Nat.leb (nat_of_ascii c) hi.

(** [\d] *)
Definition isDigit (c : ascii) : bool := between 48 57 c.

(** The literal character with code [n]. *)
Definition charIs (n : nat) (c : ascii) : bool := Nat.eqb (nat_of_ascii c) n.

(** [/^1[3-9]\d{9}$/.test(s)] *)
Definition phoneRegex (s : string) : bool :=
  match list_ascii_of_string s with
  | c1 :: c2 :: rest =>
    charIs 49 c1 && between 51 57 c2 && Nat.eqb (length rest) 9 && forallb isDigit rest
  | _ => false
  end.

(** [validatePhone(phone)] *)
Definition validatePhone (phone : JS.value) : Result :=
  if isEmpty phone then rejected "请填写电话号码" else
  if negb (phoneRegex (default "" phone)) then rejected "请填写有效的手机号码"
  else accepted.

(** [/^[1-9]\d{5}(19|20)\d{2}(0[1-9]|1[0-2])(0[1-9]|[12]\d|3[01])\d{3}[\dX]$/.test(s)] *)
Definition idCardRegex (s : string) : bool :=
  match list_ascii_of_string s with
  | [a1; a2; a3; a4; a5; a6; y1; y2; y3; y4; m1; m2; d1; d2; n1; n2; n3; k] =>
    between 49 57 a1 && forallb isDigit [a2; a3; a4; a5; a6] &&
    ((charIs 49 y1 && charIs 57 y2) || (charIs 50 y1 && charIs 48 y2)) &&
    forallb isDigit [y3; y4] &&
    ((charIs 48 m1 && between 49 57 m2) || (charIs 49 m1 && between 48 50 m2)) &&
    ((charIs 48 d1 && between 49 57 d2) || (between 49 50 d1 && isDigit d2) ||
     (charIs 51 d1 && between 48 49 d2)) &&
    forallb isDigit [n1; n2; n3] &&
    (isDigit k || charIs 88 k)
  | _ => false
  end.

(** [validateIdCard(idCard)] *)
Definition validateIdCard (idCard : JS.value) : Result :=
  if isEmpty idCard then rejected "请填写身份证号码" else
  if negb (idCardRegex (default "" idCard)) then rejected "请填写有效的身份证号码"
  else accepted.

Section Forms.

(** The values of the form fields; [None] below is [undefined], what
    [formData[field]] gives for a field the form does not have. *)
Context {V : Type}.

Definition Rule : Type := option V -> Result.

(** [createRule(validator, message)] *)
Definition createRule (validator : option V -> bool) (msg : string) : Rule :=
  fun value =>
    let isValid := validator value in
    {| valid := isValid; message := if isValid then "" else msg |}.

(** An entry of a field's rule array: a function, or something else, which
    [validateForm] passes over. *)
Inductive RuleEntry :=
| IsFunction (rule : Rule)
| NotFunction.

(** The inner loop of [validateForm]: the message of the first rule that
    rejects the value, after which the loop breaks. *)
Fixpoint firstFailure (fieldRules : list RuleEntry) (value : option V) : option string :=
  match fieldRules with
  | [] => None
  | IsFunction rule :: rest =>
    if valid (rule value) then firstFailure rest value
    else Some (message (rule value))
  | NotFunction :: rest => firstFailure rest value
  end.

Record FormResult := {
  form_valid : bool;
  form_errors : gmap string string
}.

(** The outer loop of [validateForm], from the errors collected so far:
    [errors[field] = result.message] for each field with a failing rule. *)
Definition collectErrors (formData : gmap string V)
    (rules : list (string * list RuleEntry)) (errors : gmap string string)
  : gmap string string :=
  fold_left
    (fun (errors : gmap string string) (entry : string * list RuleEntry) =>
       match firstFailure entry.2 (formData !! entry.1) with
       | Some m => <[entry.1 := m]> errors
       | None => errors
       end)
    rules errors.

(** [validateForm(formData, rules)]. [rules] lists the fields of the rules
    object in enumeration order, each with its rule array (a single rule
    stands for the array that holds it). *)
Definition validateForm (formData : gmap string V)
    (rules : list (string * list RuleEntry)) : FormResult :=
  let errors := collectErrors formData rules ∅ in
  {| form_valid := bool_decide (errors = ∅); form_errors := errors |}.

End Forms.

End Validation.

(* ===================================================================== *)
(** ** utils/format.js                                                    *)
(* ===================================================================== *)

Module Format.

(** [s.replace(pattern, replacement)] without the [g] flag: the leftmost
    match is replaced. [pattern] tells, for a text, whether the expression
    matches at its start, and then gives the replacement and the text after
    the match. *)
Fixpoint replaceFirst (pattern : string -> option (string * string)) (s : string)
  : string :=
  match pattern s with
  | Some (replacement, rest) => replacement +:+ rest
  | None =>
    match s with
    | EmptyString => ""
    | String c r => String c (replaceFirst pattern r)
    end
  end.

(** [\d{n}] at the start of a text: the digits and the text after them. *)
Fixpoint digits (n : nat) (s : string) : option (string * string) :=
  match n with
  | O => Some ("", s)
  | S k =>
    match s with
    | String c r =>
      if Validation.isDigit c then
        match digits k r with
        | Some (ds, rest) => Some (String c ds, rest)
        | None => None
        end
      else None
    | EmptyString => None
    end
  end.

(** [(\d{a})(\d{b})(\d{c})] or [(\d{a})\d{b}(\d{c})] replaced by the first
    group, [mask] and the last group. *)
Definition maskMiddle (a b c : nat) (mask : string) (s : string)
  : option (string * string) :=
  match digits a s with
  | Some (first, s1) =>
    match digits b s1 with
    | Some (_, s2) =>
      match digits c s2 with
      | Some (last, rest) => Some (first +:+ mask +:+ last, rest)
      | None => None
      end
    | None => None
    end
  | None => None
  end.

(** [s.replace(/\D/g, '')] *)
Fixpoint removeNonDigits (s : string) : string :=
  match s with
  | EmptyString => ""
  | String c r =>
    if Validation.isDigit c then String c (removeNonDigits r) else removeNonDigits r
  end.

(** [formatPhone(phone)]; the empty string is falsy and gives ['']. *)
Definition formatPhone (phone : string) : string :=
  if String.eqb phone "" then "" else
  let cleaned := removeNonDigits phone in
  if Nat.eqb (String.length cleaned) 11
  then replaceFirst (maskMiddle 3 4 4 "****") cleaned
  else phone.

(** [formatIdCard(idCard)]. The test [idCard.length === 18] counts UTF-16
    code units and [String.length] counts bytes; they differ only on texts
    with a character outside ASCII, which the expression, asking for 18
    digits in a row, cannot match at either length 18: such a text is
    returned as it is on both sides. *)
Definition formatIdCard (idCard : string) : string :=
  if String.eqb idCard "" then "" else
  if Nat.eqb (String.length idCard) 18
  then replaceFirst (maskMiddle 6 8 4 "********") idCard
  else idCard.

(** The two functions that count and cut by position take a text as its
    sequence of UTF-16 code units, [list N]. The code units of '*' and
    '.': *)
Definition star : N := 42.

Definition dot : N := 46.

(** [formatPropertyNumber(propertyNumber)]; the empty text, which is
    falsy, is returned as [''] by the first test and by the second. *)
Definition formatPropertyNumber (propertyNumber : list N) : list N :=
  let len := length propertyNumber in
  if Nat.leb len 4 then propertyNumber else
  let start := take 2 propertyNumber in
  let ending := drop (len - 2) propertyNumber in
  let middle := replicate (len - 4) star in
  start ++ middle ++ ending.

(** [truncateText(text, maxLength = 50, suffix = '...')], for an integer
    [maxLength]. The empty text is falsy and gives ['']; [substr(0, n)]
    with [n <= 0] is the empty text. *)
Definition truncateText (text : list N) (maxLength : option Z)
    (suffix : option (list N)) : list N :=
  let maxLength := JS.default_param maxLength 50%Z in
  let suffix := JS.default_param suffix [dot; dot; dot] in
  match text with
  | [] => []
  | _ =>
    if (Z.of_nat (length text) <=? maxLength)%Z then text else
    take (Z.to_nat (maxLength - Z.of_nat (length suffix))) text ++ suffix
  end.

(** [A-Z] and [a-z] *)
Definition isUpper (c : ascii) : bool := Validation.between 65 90 c.

Definition isLower (c : ascii) : bool := Validation.between 97 122 c.

(** [s.replace(/([A-Z])/g, '-$1')] *)
Fixpoint hyphenateUpper (s : string) : string :=
  match s with
  | EmptyString => ""
  | String c r =>
    if isUpper c then String "-" (String c (hyphenateUpper r))
    else String c (hyphenateUpper r)
  end.

(** [s.toLowerCase()] on a text whose characters are all ASCII: the
    letters A to Z move down, every other character stays. *)
Fixpoint toLowerCase (s : string) : string :=
  match s with
  | EmptyString => ""
  | String c r =>
    String (if isUpper c then ascii_of_nat (nat_of_ascii c + 32) else c) (toLowerCase r)
  end.

(** [camelToKebab(str)], for ASCII text. *)
Definition camelToKebab (str : string) : string := toLowerCase (hyphenateUpper str).

(** [kebabToCamel(str)]: [str.replace(/-([a-z])/g, (match, letter) =>
    letter.toUpperCase())]. *)
Fixpoint kebabToCamel (str : string) : string :=
  match str with
  | EmptyString => ""
  | String c r =>
    if Validation.charIs 45 c then
      match r with
      | String letter r' =>
        if isLower letter
        then String (ascii_of_nat (nat_of_ascii letter - 32)) (kebabToCamel r')
        else String c (kebabToCamel r)
      | EmptyString => String c ""
      end
    else String c (kebabToCamel r)
  end.

End Format.

(* ===================================================================== *)
(** ** Notions used to state the further properties                       *)
(* ===================================================================== *)

(** A text made of ASCII white space only. *)
Definition blank (s : string) : bool :=
  forallb JS.ascii_ws (list_ascii_of_string s).

(** The text that a call adds to [streamingMessage]:
    [data.content || data.message || ''] for the two chunk events. *)
Definition chunkText (call : string * HousingAPI.EventData) : string :=
  if String.eqb call.1 "message" || String.eqb call.1 "response_chunk"
  then JS.or_str (JS.or (HousingAPI.data_content call.2) (HousingAPI.data_message call.2)) ""
  else "".

Definition isErrorEvent (call : string * HousingAPI.EventData) : bool :=
  String.eqb call.1 "error".

(** All characters of the text are ASCII. *)
Definition isAscii (s : string) : bool :=
  forallb (fun c => Nat.ltb (nat_of_ascii c) 128) (list_ascii_of_string s).

Definition hasNoHyphen (s : string) : bool :=
  forallb (fun c => negb (Validation.charIs 45 c)) (list_ascii_of_string s).

Definition hasNoUpper (s : string) : bool :=
  forallb (fun c => negb (Format.isUpper c)) (list_ascii_of_string s).

(** Example networks: one answers every chat request with the given reply,
    one streams the given text and closes the stream normally. *)
Definition answeringNet (response : HousingAPI.ChatResponse) : HousingAPI.Transport :=
  {| HousingAPI.post_chat := fun _ => HousingAPI.Resolved response;
     HousingAPI.fetch_chat := fun _ => HousingAPI.FetchRejected networkError;
     HousingAPI.post_reset := fun _ => HousingAPI.Rejected networkError |}.

Definition streamingNet (text : string) : HousingAPI.Transport :=
  {| HousingAPI.post_chat := fun _ => HousingAPI.Rejected networkError;
     HousingAPI.fetch_chat := fun _ => HousingAPI.Body [text] None;
     HousingAPI.post_reset := fun _ => HousingAPI.Rejected networkError |}.

Definition textReply (text : string) : HousingAPI.ChatResponse :=
  {| HousingAPI.resp_response := Some text; HousingAPI.resp_message := None;
     HousingAPI.resp_conversation_id := Some "conv_1" |}.

(** A network that serves only the chat requests whose [max_iterations] is
    [budget]: a posted one is answered with the reply "ok", a streamed one
    with an empty stream that is closed normally; every other request is
    rejected. *)
Definition budgetNet (budget : Z) : HousingAPI.Transport :=
  {| HousingAPI.post_chat := fun request =>
       if Z.eqb (HousingAPI.req_max_iterations request) budget
       then HousingAPI.Resolved (textReply "ok")
       else HousingAPI.Rejected networkError;
     HousingAPI.fetch_chat := fun request =>
       if Z.eqb (HousingAPI.req_max_iterations request) budget
       then HousingAPI.Body [] None
       else HousingAPI.FetchRejected networkError;
     HousingAPI.post_reset := fun _ => HousingAPI.Rejected networkError |}.

(** The body of a failed turn as the non-streaming endpoint returns it:
    [status] and [error], neither [response] nor [message]. *)
Definition errorReply : HousingAPI.ChatResponse :=
  {| HousingAPI.resp_response := None; HousingAPI.resp_message := None;
     HousingAPI.resp_conversation_id := Some "conv_1" |}.

(** An HTTP 500 answer with a detail, and a network whose requests all end
    with what the response interceptor throws for it. *)
Definition serverFault : ApiClient.AxiosError :=
  {| ApiClient.response :=
       Some {| ApiClient.status := 500; ApiClient.detail := Some "Agent 未初始化" |};
     ApiClient.code := None |}.

Definition faultyNet : HousingAPI.Transport :=
  {| HousingAPI.post_chat :=
       fun _ => HousingAPI.Rejected (ApiClient.responseRejected serverFault);
     HousingAPI.fetch_chat :=
       fun _ => HousingAPI.FetchRejected (ApiClient.responseRejected serverFault);
     HousingAPI.post_reset :=
       fun _ => HousingAPI.Rejected (ApiClient.responseRejected serverFault) |}.

(** A stream that ends with an error event and is then closed normally. *)
Definition errorStreamText : string :=
  "event: thinking" +:+ nl +:+ "data: {}" +:+ nl +:+ nl +:+
  "event: error" +:+ nl +:+ "data: {}" +:+ nl +:+ nl.

(** Event payloads with one field. *)
Definition contentData (text : string) : HousingAPI.EventData :=
  {| HousingAPI.data_content := Some text; HousingAPI.data_message := None;
     HousingAPI.data_tool_name := None; HousingAPI.data_error := None;
     HousingAPI.data_conversation_id := None; HousingAPI.data_response := None |}.

Definition messageData (text : string) : HousingAPI.EventData :=
  {| HousingAPI.data_content := None; HousingAPI.data_message := Some text;
     HousingAPI.data_tool_name := None; HousingAPI.data_error := None;
     HousingAPI.data_conversation_id := None; HousingAPI.data_response := None |}.

(** An identity-card number whose check character is the letter X, and one
    with a digit in that place. *)
Definition idWithLetter : string := "11010519491231002X".

Definition idWithDigit : string := "110105194912310021".

(** A form with one field and two rules made by [createRule]. *)
Definition budgetRules : list (string * list (@Validation.RuleEntry Z)) :=
  [("budget",
    [Validation.IsFunction
       (Validation.createRule (fun value => bool_decide (is_Some value)) "请填写购房预算");
     Validation.IsFunction
       (Validation.createRule
          (fun value => bool_decide (50 <= default 0 value)%Z)
          "在北京购房预算建议不少于50万元")])].

(** A done or complete call that carries a conversation id. *)
Definition carriesId (call : string * HousingAPI.EventData) : bool :=
  isDoneEvent call && JS.truthy (HousingAPI.data_conversation_id call.2).

(** Carriage return, and the line ending CR LF. *)
Definition cr : string := String (ascii_of_nat 13) "".

Definition crlf : string := cr +:+ nl.

(** A text made of the given lines, each followed by the line ending. *)
Definition linesWith (ending : string) (lines : list string) : string :=
  String.concat "" (map (fun line => line +:+ ending) lines).

(* ===================================================================== *)
(** * Proofs                                                              *)
(* ===================================================================== *)

(* ===================================================================== *)
(** ** Trimming                                                           *)
(* ===================================================================== *)

(** Stripping with the length of the text as fuel strips all of the white
    space: nothing is left to strip at that end. *)
Lemma strip_complete (head : string -> option string) :
  (forall s r, head s = Some r -> String.length r < String.length s) ->
  forall fuel s, String.length s <= fuel -> head (JS.strip head fuel s) = None.
Proof.
  intros Hshorter fuel. induction fuel as [|fuel IH]; intros s Hfuel.
  - cbn [JS.strip]. destruct (head s) as [r|] eqn:Hhead; [|reflexivity].
    apply Hshorter in Hhead. lia.
  - cbn [JS.strip]. destruct (head s) as [r|] eqn:Hhead; [|exact Hhead].
    apply IH. apply Hshorter in Hhead. lia.
Qed.

Ltac shorter_cases :=
  repeat match goal with
         | |- context [if ?b then _ else _] => destruct b
         end;
  intros H; try discriminate H; injection H as <-; cbn [String.length]; lia.

Lemma ws_head_shorter (s r : string) :
  JS.ws_head s = Some r -> String.length r < String.length s.
Proof.
  unfold JS.ws_head. destruct s as [|c [|c2 [|c3 r3]]]; shorter_cases.
Qed.

Lemma ws_last_shorter (s r : string) :
  JS.ws_last s = Some r -> String.length r < String.length s.
Proof.
  unfold JS.ws_last. destruct s as [|c [|c2 [|c3 r3]]]; shorter_cases.
Qed.

Lemma trimStart_complete (s : string) : JS.ws_head (JS.trimStart s) = None.
Proof. apply (strip_complete JS.ws_head ws_head_shorter). lia. Qed.

Lemma rev_string_length (acc s : string) :
  String.length (JS.rev_string acc s) = String.length s + String.length acc.
Proof.
  revert acc. induction s as [|c s IH]; intros acc; [reflexivity|].
  cbn [JS.rev_string String.length]. rewrite IH. cbn [String.length]. lia.
Qed.

(** [trimEnd s] is the reversal of a text with nothing left to strip. *)
Lemma trimEnd_complete (s : string) :
  exists kept, JS.trimEnd s = JS.rev_string "" kept /\ JS.ws_last kept = None.
Proof.
  eexists. split; [reflexivity|].
  apply (strip_complete JS.ws_last ws_last_shorter).
  rewrite rev_string_length. cbn [String.length]. lia.
Qed.

Example trim_event_line :
  JS.trim ("  event: done " +:+ String (ascii_of_nat 13) "") = "event: done".
Proof. vm_compute. reflexivity. Qed.

Example trim_ideographic_space : JS.trim "　购房　" = "购房".
Proof. vm_compute. reflexivity. Qed.

Example split_keeps_rest :
  JS.split_newline ("a" +:+ nl +:+ "b" +:+ nl +:+ "c") = ["a"; "b"; "c"] /\
  JS.split_newline "" = [""].
Proof. vm_compute. split; reflexivity. Qed.

Example includes_marker :
  JS.includes "一、总成本概览：" "总成本概览" = true /\
  JS.includes "总成本" "总成本概览" = false /\
  JS.includes "" "" = true.
Proof. vm_compute. repeat split; reflexivity. Qed.

(* ===================================================================== *)
(** ** Lines and chunks                                                   *)
(* ===================================================================== *)

Lemma split_newline_nonempty (text : string) : JS.split_newline text <> [].
Proof.
  destruct text as [|c r]; simpl; [discriminate|].
  destruct (Ascii.eqb c JS.newline); [discriminate|].
  destruct (JS.split_newline r); discriminate.
Qed.

Lemma removelast_cons_nonempty {A} (x : A) (l : list A) :
  l <> [] -> removelast (x :: l) = x :: removelast l.
Proof. destruct l; [congruence | reflexivity]. Qed.

Lemma last_cons_nonempty {A} (x d : A) (l : list A) :
  l <> [] -> List.last (x :: l) d = List.last l d.
Proof. destruct l; [congruence | reflexivity]. Qed.

Lemma last_app_nonempty {A} (l1 l2 : list A) (d : A) :
  l2 <> [] -> List.last (l1 ++ l2) d = List.last l2 d.
Proof.
  intros Hne. induction l1 as [|x l1 IH]; [reflexivity|].
  cbn [app]. rewrite last_cons_nonempty; [exact IH|].
  destruct l1; [exact Hne | discriminate].
Qed.

(** Splitting a concatenation: the complete lines of the first text, then
    the split of its unfinished piece followed by the second text. *)
Lemma split_newline_app (a b : string) :
  JS.split_newline (a +:+ b) =
  completeLines a ++ JS.split_newline (pendingLine a +:+ b).
Proof.
  unfold completeLines, pendingLine.
  induction a as [|c r IH]; [reflexivity|].
  pose proof (split_newline_nonempty r) as Hne.
  change (String c r +:+ b) with (String c (r +:+ b)).
  cbn [JS.split_newline].
  destruct (Ascii.eqb c JS.newline) eqn:Hc.
  - rewrite removelast_cons_nonempty, last_cons_nonempty by assumption.
    rewrite IH. reflexivity.
  - rewrite IH.
    destruct (JS.split_newline r) as [|l [|l2 ls]]; [congruence| |].
    + cbn [removelast List.last app].
      change (String c l +:+ b) with (String c (l +:+ b)).
      cbn [JS.split_newline]. rewrite Hc. reflexivity.
    + cbn [removelast List.last app]. reflexivity.
Qed.

Lemma completeLines_app (a b : string) :
  completeLines (a +:+ b) = completeLines a ++ completeLines (pendingLine a +:+ b).
Proof.
  unfold completeLines at 1. rewrite split_newline_app.
  rewrite removelast_app by apply split_newline_nonempty. reflexivity.
Qed.

Lemma pendingLine_app (a b : string) :
  pendingLine (a +:+ b) = pendingLine (pendingLine a +:+ b).
Proof.
  unfold pendingLine at 1. rewrite split_newline_app.
  rewrite last_app_nonempty by apply split_newline_nonempty. reflexivity.
Qed.

(** The unfinished piece holds no line feed. *)
Lemma pendingLine_whole (text : string) :
  JS.split_newline (pendingLine text) = [pendingLine text].
Proof.
  unfold pendingLine.
  induction text as [|c r IH]; [reflexivity|].
  pose proof (split_newline_nonempty r) as Hne.
  cbn [JS.split_newline].
  destruct (Ascii.eqb c JS.newline) eqn:Hc.
  - rewrite last_cons_nonempty by assumption. exact IH.
  - destruct (JS.split_newline r) as [|l [|l2 ls]]; [congruence| |].
    + cbn [List.last] in *. cbn [JS.split_newline]. rewrite Hc, IH. reflexivity.
    + exact IH.
Qed.

Lemma string_app_cons (x : ascii) (a b : string) :
  String x a +:+ b = String x (a +:+ b).
Proof. reflexivity. Qed.

Lemma string_app_assoc (a b c : string) : (a +:+ b) +:+ c = a +:+ (b +:+ c).
Proof.
  induction a as [|x a IH]; [reflexivity|].
  rewrite !string_app_cons, IH. reflexivity.
Qed.

Lemma string_app_empty_r (a : string) : a +:+ "" = a.
Proof.
  induction a as [|x a IH]; [reflexivity|].
  rewrite string_app_cons, IH. reflexivity.
Qed.

Section ParserFacts.

Variable JSON_parse : string -> option HousingAPI.EventData.
Context {Receiver : Type}.
Variable onEvent : HousingAPI.Callback Receiver.

Lemma processLines_app (l1 l2 : list string) (st : option string * Receiver) :
  HousingAPI.processLines JSON_parse onEvent (l1 ++ l2) st =
  HousingAPI.processLines JSON_parse onEvent l2
    (HousingAPI.processLines JSON_parse onEvent l1 st).
Proof. unfold HousingAPI.processLines. apply fold_left_app. Qed.

Lemma readAll_cons (chunk : string) (rest : list string) (buffer : string)
    (st : option string * Receiver) :
  HousingAPI.readAll JSON_parse onEvent (chunk :: rest) (buffer, st) =
  HousingAPI.readAll JSON_parse onEvent rest
    (pendingLine (buffer +:+ chunk),
     HousingAPI.processLines JSON_parse onEvent (completeLines (buffer +:+ chunk)) st).
Proof. reflexivity. Qed.

(** Reading the chunks one by one is reading their concatenation at once:
    the parser handles the complete lines of everything received and keeps
    the unfinished rest in its buffer. *)
Lemma readAll_concat (chunks : list string) (buffer : string)
    (st : option string * Receiver) :
  JS.split_newline buffer = [buffer] ->
  HousingAPI.readAll JSON_parse onEvent chunks (buffer, st) =
  (pendingLine (buffer +:+ String.concat "" chunks),
   HousingAPI.processLines JSON_parse onEvent
     (completeLines (buffer +:+ String.concat "" chunks)) st).
Proof.
  revert buffer st.
  induction chunks as [|chunk rest IH]; intros buffer st Hbuf.
  - cbn. rewrite string_app_empty_r.
    unfold pendingLine, completeLines. rewrite Hbuf. reflexivity.
  - rewrite readAll_cons, IH by apply pendingLine_whole.
    assert (Hcat : buffer +:+ String.concat "" (chunk :: rest) =
                   (buffer +:+ chunk) +:+ String.concat "" rest).
    { rewrite string_app_assoc. f_equal. destruct rest; cbn; [|reflexivity].
      symmetry. apply string_app_empty_r. }
    rewrite Hcat, (pendingLine_app (buffer +:+ chunk)),
      (completeLines_app (buffer +:+ chunk)), processLines_app.
    reflexivity.
Qed.

End ParserFacts.

Lemma startsWith_app (p rest : string) : JS.startsWith (p +:+ rest) p = true.
Proof.
  unfold JS.startsWith. induction p as [|x p IH]; [destruct rest; reflexivity|].
  rewrite string_app_cons. cbn [String.prefix].
  destruct (ascii_dec x x); [exact IH | congruence].
Qed.

Lemma slice_app (p rest : string) : JS.slice (String.length p) (p +:+ rest) = rest.
Proof.
  induction p as [|x p IH]; [destruct rest; reflexivity|].
  rewrite string_app_cons. exact IH.
Qed.

Lemma startsWith_split (s p : string) :
  JS.startsWith s p = true -> s = p +:+ JS.slice (String.length p) s.
Proof.
  unfold JS.startsWith. revert s.
  induction p as [|x p IH]; intros s H.
  - destruct s; reflexivity.
  - destruct s as [|y s]; [discriminate|].
    cbn [String.prefix] in H.
    destruct (ascii_dec x y) as [->|]; [|discriminate].
    rewrite string_app_cons. cbn [String.length JS.slice].
    f_equal. apply IH, H.
Qed.

Lemma dataLine_not_event (line payload : string) :
  isDataLine line payload -> JS.startsWith (JS.trim line) "event: " = false.
Proof. unfold isDataLine. intros ->. reflexivity. Qed.

Lemma dataLine_startsWith (line payload : string) :
  isDataLine line payload -> JS.startsWith (JS.trim line) "data: " = true.
Proof. unfold isDataLine. intros ->. apply (startsWith_app "data: "). Qed.

Lemma dataLine_payload (line payload : string) :
  isDataLine line payload -> JS.slice 6 (JS.trim line) = payload.
Proof. unfold isDataLine. intros ->. apply (slice_app "data: "). Qed.

Lemma deliver_app {Receiver : Type}
    (onEvent : HousingAPI.Callback Receiver)
    (c1 c2 : list (string * HousingAPI.EventData)) (s : Receiver) :
  deliver onEvent (c1 ++ c2) s = deliver onEvent c2 (deliver onEvent c1 s).
Proof. unfold deliver. apply fold_left_app. Qed.

Lemma deliver_cons {Receiver : Type}
    (onEvent : HousingAPI.Callback Receiver)
    (call : string * HousingAPI.EventData)
    (rest : list (string * HousingAPI.EventData)) (s : Receiver) :
  deliver onEvent (call :: rest) s = deliver onEvent rest (onEvent call.1 call.2 s).1.
Proof. reflexivity. Qed.

Section ParserCalls.

Variable JSON_parse : string -> option HousingAPI.EventData.
Context {Receiver : Type}.
Variable onEvent : HousingAPI.Callback Receiver.

(** The receiver's state follows the recorded calls, line by line. *)
Lemma processLine_simulates (line : string) (cur : option string)
    (log : list (string * HousingAPI.EventData)) (s0 : Receiver) :
  HousingAPI.processLine JSON_parse onEvent line (cur, deliver onEvent log s0) =
  ((HousingAPI.processLine JSON_parse HousingAPI.record_call line (cur, log)).1,
   deliver onEvent
     (HousingAPI.processLine JSON_parse HousingAPI.record_call line (cur, log)).2 s0).
Proof.
  unfold HousingAPI.processLine.
  destruct (JS.startsWith (JS.trim line) "event: "); [reflexivity|].
  destruct (JS.startsWith (JS.trim line) "data: ").
  - destruct (JS.truthy cur); [|reflexivity].
    destruct (JSON_parse _); [|reflexivity].
    cbn [fst snd HousingAPI.record_call]. rewrite deliver_app. reflexivity.
  - destruct (String.eqb (JS.trim line) ""); reflexivity.
Qed.

Lemma processLines_simulates (lines : list string) (cur : option string)
    (log : list (string * HousingAPI.EventData)) (s0 : Receiver) :
  HousingAPI.processLines JSON_parse onEvent lines (cur, deliver onEvent log s0) =
  ((HousingAPI.processLines JSON_parse HousingAPI.record_call lines (cur, log)).1,
   deliver onEvent
     (HousingAPI.processLines JSON_parse HousingAPI.record_call lines (cur, log)).2 s0).
Proof.
  revert cur log.
  induction lines as [|line rest IH]; intros cur log; [reflexivity|].
  unfold HousingAPI.processLines in *. cbn [fold_left].
  rewrite processLine_simulates.
  destruct (HousingAPI.processLine JSON_parse HousingAPI.record_call line (cur, log))
    as [cur' log'].
  apply IH.
Qed.

(** The state in which the stream leaves the receiver: the callback applied
    to the calls of [callbacks], in order. *)
Lemma stream_delivers (chunks : list string) (s : Receiver) :
  (HousingAPI.readAll JSON_parse onEvent chunks ("", (None, s))).2.2 =
  deliver onEvent (HousingAPI.callbacks JSON_parse chunks) s.
Proof.
  unfold HousingAPI.callbacks.
  rewrite !readAll_concat by reflexivity. cbn [snd].
  change s with (deliver onEvent [] s) at 1.
  rewrite processLines_simulates. reflexivity.
Qed.

End ParserCalls.

Lemma fromBlock_snoc JSON_parse lines line call :
  fromBlock JSON_parse lines call -> fromBlock JSON_parse (lines ++ [line]) call.
Proof.
  intros (before & eventLine & between & dataLine & payload & after & -> & H).
  exists before, eventLine, between, dataLine, payload, (after ++ [line]).
  split; [|exact H].
  rewrite <- !app_assoc. cbn [app]. rewrite <- app_assoc. reflexivity.
Qed.

Lemma parser_invariant JSON_parse (lines : list string) :
  let st := HousingAPI.processLines JSON_parse HousingAPI.record_call lines (None, []) in
  (forall e, st.1 = Some e -> openBlock lines e) /\
  (forall call, In call st.2 -> fromBlock JSON_parse lines call).
Proof.
  induction lines as [|line pre IH] using rev_ind.
  - cbn. split; [discriminate | contradiction].
  - cbn zeta in *. rewrite processLines_app.
    destruct (HousingAPI.processLines JSON_parse HousingAPI.record_call pre (None, []))
      as [cur log] eqn:Hpre.
    cbn [fst snd] in IH. destruct IH as [IHcur IHlog].
    unfold HousingAPI.processLines. cbn [fold_left].
    unfold HousingAPI.processLine.
    destruct (JS.startsWith (JS.trim line) "event: ") eqn:Hev.
    { cbn [fst snd]. split.
      - intros e [= <-]. exists pre, line, []. repeat split; [|constructor].
        apply (startsWith_split _ "event: "), Hev.
      - intros call Hin. apply fromBlock_snoc, IHlog, Hin. }
    assert (Hkeep : JS.trim line <> "" ->
                    forall e, cur = Some e -> openBlock (pre ++ [line]) e).
    { intros Hne e He. destruct (IHcur e He) as (before & eventLine & between & -> & Hl & Hb).
      exists before, eventLine, (between ++ [line]). repeat split.
      - rewrite <- app_assoc. reflexivity.
      - exact Hl.
      - apply Forall_app. split; [exact Hb|]. constructor; [|constructor].
        split; assumption. }
    destruct (JS.startsWith (JS.trim line) "data: ") eqn:Hdata.
    { assert (Hne : JS.trim line <> "").
      { intros Heq. rewrite Heq in Hdata. discriminate. }
      destruct (JS.truthy cur) eqn:Htruthy.
      - destruct (JSON_parse (JS.slice 6 (JS.trim line))) as [data|] eqn:Hparse.
        + cbn [fst snd HousingAPI.record_call]. split; [apply Hkeep, Hne|].
          intros call Hin. apply in_app_or in Hin as [Hin|[<-|[]]].
          * apply fromBlock_snoc, IHlog, Hin.
          * destruct cur as [e|]; [|discriminate].
            destruct (IHcur e eq_refl) as (before & eventLine & between & -> & Hl & Hb).
            exists before, eventLine, between, line, (JS.slice 6 (JS.trim line)), [].
            repeat split; try assumption.
            -- rewrite <- app_assoc. reflexivity.
            -- apply (startsWith_split _ "data: "), Hdata.
        + cbn [fst snd]. split; [apply Hkeep, Hne|].
          intros call Hin. apply fromBlock_snoc, IHlog, Hin.
      - cbn [fst snd]. split; [apply Hkeep, Hne|].
        intros call Hin. apply fromBlock_snoc, IHlog, Hin. }
    destruct (String.eqb (JS.trim line) "") eqn:Hblank.
    { cbn [fst snd]. split; [discriminate|].
      intros call Hin. apply fromBlock_snoc, IHlog, Hin. }
    cbn [fst snd]. split.
    + apply Hkeep. intros Heq. rewrite Heq in Hblank. discriminate.
    + intros call Hin. apply fromBlock_snoc, IHlog, Hin.
Qed.

(** C9. The stream parser of [sendChatMessageStream]:
    (1) the calls it makes do not depend on how the bytes are cut into
        chunks: any chunking gives the calls of the unsplit stream, and two
        chunkings of the same bytes give the same calls;
    (2) every call comes from a data line that follows an event line of the
        same block (no blank line and no other event line in between), with
        the event type of that line and the parsed payload of the data line;
    (3) a data line met while there is no current event is dropped;
    (4) a data line inside a block whose payload parses is handed to the
        callback, whose exception, if any, does not stop the parser;
    (5) a data line whose payload does not parse changes nothing: the
        stream is handled as if the line were not there;
    (6) the text after the last line feed stays in the buffer. *)
Theorem sse_parser_callbacks (JSON_parse : string -> option HousingAPI.EventData) :
  (forall chunks,
     HousingAPI.callbacks JSON_parse chunks =
     HousingAPI.callbacks JSON_parse [String.concat "" chunks]) /\
  (forall chunks1 chunks2,
     String.concat "" chunks1 = String.concat "" chunks2 ->
     HousingAPI.callbacks JSON_parse chunks1 = HousingAPI.callbacks JSON_parse chunks2) /\
  (forall chunks call,
     In call (HousingAPI.callbacks JSON_parse chunks) ->
     fromBlock JSON_parse (completeLines (String.concat "" chunks)) call) /\
  (forall (Receiver : Type) (onEvent : HousingAPI.Callback Receiver)
          line payload (s : Receiver),
     isDataLine line payload ->
     HousingAPI.processLine JSON_parse onEvent line (None, s) = (None, s)) /\
  (forall (Receiver : Type) (onEvent : HousingAPI.Callback Receiver)
          line payload data eventType (s : Receiver),
     isDataLine line payload -> JSON_parse payload = Some data -> eventType <> "" ->
     HousingAPI.processLine JSON_parse onEvent line (Some eventType, s) =
     (Some eventType, (onEvent eventType data s).1)) /\
  (forall (Receiver : Type) (onEvent : HousingAPI.Callback Receiver)
          before line payload after (st : option string * Receiver),
     isDataLine line payload -> JSON_parse payload = None ->
     HousingAPI.processLines JSON_parse onEvent (before ++ line :: after) st =
     HousingAPI.processLines JSON_parse onEvent (before ++ after) st) /\
  (forall (Receiver : Type) (onEvent : HousingAPI.Callback Receiver)
          chunks (s : Receiver),
     (HousingAPI.readAll JSON_parse onEvent chunks ("", (None, s))).1 =
     pendingLine (String.concat "" chunks)).
Proof.
  assert (Hwhole : forall chunks,
             HousingAPI.callbacks JSON_parse chunks =
             (HousingAPI.processLines JSON_parse HousingAPI.record_call
                (completeLines (String.concat "" chunks)) (None, [])).2).
  { intros chunks. unfold HousingAPI.callbacks.
    rewrite readAll_concat by reflexivity. reflexivity. }
  repeat split.
  - intros chunks. rewrite !Hwhole. cbn [String.concat]. reflexivity.
  - intros chunks1 chunks2 Heq. rewrite !Hwhole, Heq. reflexivity.
  - intros chunks call Hin. rewrite Hwhole in Hin.
    apply (parser_invariant JSON_parse), Hin.
  - intros Receiver onEvent line payload s Hline. unfold HousingAPI.processLine.
    rewrite (dataLine_not_event _ _ Hline), (dataLine_startsWith _ _ Hline).
    reflexivity.
  - intros Receiver onEvent line payload data eventType s Hline Hparse Hne.
    unfold HousingAPI.processLine.
    rewrite (dataLine_not_event _ _ Hline), (dataLine_startsWith _ _ Hline),
      (dataLine_payload _ _ Hline), Hparse.
    cbn [JS.truthy]. destruct (String.eqb_spec eventType ""); [contradiction|].
    reflexivity.
  - intros Receiver onEvent before line payload after st Hline Hparse.
    rewrite !processLines_app.
    destruct (HousingAPI.processLines JSON_parse onEvent before st) as [cur s].
    assert (Hsame : HousingAPI.processLine JSON_parse onEvent line (cur, s) = (cur, s)).
    { unfold HousingAPI.processLine.
      rewrite (dataLine_not_event _ _ Hline), (dataLine_startsWith _ _ Hline),
        (dataLine_payload _ _ Hline), Hparse.
      destruct (JS.truthy cur); reflexivity. }
    unfold HousingAPI.processLines. cbn [fold_left]. rewrite Hsame. reflexivity.
  - intros Receiver onEvent chunks s. rewrite readAll_concat by reflexivity. reflexivity.
Qed.

Lemma sse_parser_callbacks_witness :
  HousingAPI.callbacks parseExample ["event: respo"; "nse_chunk" +:+ nl +:+ "da";
     "ta: " +:+ jsonField "content" "30%" +:+ nl +:+ nl] =
  HousingAPI.callbacks parseExample
    ["event: response_chunk" +:+ nl; "data: " +:+ jsonField "content" "30%" +:+ nl +:+ nl] /\
  fromBlock parseExample (completeLines (String.concat "" [streamText]))
    ("done", {| HousingAPI.data_content := None; HousingAPI.data_message := None;
                HousingAPI.data_tool_name := None; HousingAPI.data_error := None;
                HousingAPI.data_conversation_id := Some "conv_1";
                HousingAPI.data_response := None |}) /\
  HousingAPI.processLine parseExample HousingAPI.record_call " data: {} " (None, []) =
    (None, []) /\
  HousingAPI.processLine parseExample HousingAPI.record_call "data: {}" (Some "done", []) =
    (Some "done", (HousingAPI.record_call "done" noData []).1) /\
  HousingAPI.processLines parseExample HousingAPI.record_call
    (["event: done"] ++ "data: {oops" :: ["data: {}"]) (None, []) =
  HousingAPI.processLines parseExample HousingAPI.record_call
    (["event: done"] ++ ["data: {}"]) (None, []) /\
  (HousingAPI.readAll parseExample HousingAPI.record_call ["event: done" +:+ nl +:+ "data: {"]
     ("", (None, []))).1 = pendingLine (String.concat "" ["event: done" +:+ nl +:+ "data: {"]).
Proof.
  pose proof (sse_parser_callbacks parseExample)
    as (_ & Hsame & Hfrom & Hdrop & Hcall & Hskip & Hbuf).
  split; [apply Hsame; vm_compute; reflexivity|].
  split; [apply Hfrom; vm_compute; right; left; reflexivity|].
  split; [apply (Hdrop _ _ _ "{}"); vm_compute; reflexivity|].
  split; [apply (Hcall _ HousingAPI.record_call _ "{}");
          [vm_compute; reflexivity | vm_compute; reflexivity | discriminate]|].
  split; [apply (Hskip _ _ _ _ "{oops"); vm_compute; reflexivity|].
  apply Hbuf.
Defined.

(* ===================================================================== *)
(** ** The store                                                          *)
(* ===================================================================== *)

Ltac event_cases eventType :=
  unfold Store.handleStreamEvent;
  repeat match goal with
         | |- context [String.eqb eventType ?x] =>
           destruct (String.eqb eventType x) eqn:?
         end;
  cbn [orb fst snd].

Lemma stream_request_effect (JSON_parse : string -> option HousingAPI.EventData)
    {Receiver : Type} (onEvent : HousingAPI.Callback Receiver)
    (net : HousingAPI.Transport) (message : string) (conversationId : JS.value)
    (maxIterations : option Z) (s : Receiver) :
  let response :=
    HousingAPI.fetch_chat net (HousingAPI.streamRequest message conversationId maxIterations) in
  HousingAPI.sendChatMessageStream JSON_parse onEvent net message conversationId
    maxIterations s =
  (deliver onEvent (streamCalls JSON_parse response) s, streamCompletion response).
Proof.
  cbn zeta. unfold HousingAPI.sendChatMessageStream.
  destruct (HousingAPI.fetch_chat net _) as [e|status errorText|chunks [e|]];
    cbn [streamCalls streamCompletion deliver fold_left]; try reflexivity;
    rewrite stream_delivers; reflexivity.
Qed.

Lemma sendMessageStream_effect (JSON_parse : string -> option HousingAPI.EventData)
    (net : HousingAPI.Transport) (input : string) (s : Store.State) :
  JS.trim input <> "" ->
  let response :=
    HousingAPI.fetch_chat net
      (HousingAPI.streamRequest input (Store.conversationId s) None) in
  let received :=
    deliver Store.handleStreamEvent (streamCalls JSON_parse response)
      (streamOpened input s) in
  Store.sendMessageStream JSON_parse net input s =
  Store.set_isStreaming false
    match streamCompletion response with
    | JS.Threw e => Store.onSendFailure "发送流式消息失败" e received
    | JS.Returned => received
    end.
Proof.
  intros Hinput. cbn zeta. unfold Store.sendMessageStream.
  destruct (String.eqb_spec (JS.trim input) ""); [contradiction|].
  fold (streamOpened input s).
  rewrite stream_request_effect. reflexivity.
Qed.

Lemma handleError_fields (msg : string) (e : JS.Error) (s : Store.State) :
  Store.conversationHistory (Store.handleError msg e s) = Store.conversationHistory s /\
  Store.currentStep (Store.handleError msg e s) = Store.currentStep s /\
  Store.reportData (Store.handleError msg e s) = Store.reportData s /\
  Store.currentToolCalls (Store.handleError msg e s) = Store.currentToolCalls s /\
  Store.streamingMessage (Store.handleError msg e s) = Store.streamingMessage s /\
  Store.error (Store.handleError msg e s) <> None.
Proof.
  unfold Store.handleError. destruct (JS.truthy _); repeat split; discriminate.
Qed.

(** Only the done and complete events touch the history. *)
Lemma event_keeps_history (eventType : string) (data : HousingAPI.EventData)
    (s : Store.State) :
  isDoneEvent (eventType, data) = false ->
  Store.conversationHistory (Store.handleStreamEvent eventType data s).1 =
  Store.conversationHistory s.
Proof.
  unfold isDoneEvent. cbn [fst]. intros Hdone.
  event_cases eventType; try reflexivity; discriminate.
Qed.

Lemma deliver_keeps_history (calls : list (string * HousingAPI.EventData))
    (s : Store.State) :
  forallb (fun call => negb (isDoneEvent call)) calls = true ->
  Store.conversationHistory (deliver Store.handleStreamEvent calls s) =
  Store.conversationHistory s.
Proof.
  revert s. induction calls as [|[eventType data] rest IH]; intros s H; [reflexivity|].
  cbn [forallb] in H. apply andb_prop in H as [Hhead Hrest].
  rewrite deliver_cons, IH by exact Hrest. cbn [fst snd].
  apply event_keeps_history, negb_true_iff, Hhead.
Qed.

Lemma onSendFailure_step (msg : string) (e : JS.Error) (s : Store.State) :
  Store.currentStep (Store.onSendFailure msg e s) = Store.StepInput.
Proof. reflexivity. Qed.

Lemma onSendFailure_history (msg : string) (e : JS.Error) (s : Store.State)
    (before : list Store.Message) (text : JS.value) :
  Store.conversationHistory s = before ++ [{| Store.role := Store.user; Store.content := text |}] ->
  Store.conversationHistory (Store.onSendFailure msg e s) = before.
Proof.
  intros Hhist. unfold Store.onSendFailure, Store.popTrailingUserMessage.
  destruct (handleError_fields msg e s) as (Hh & _).
  rewrite Hh, Hhist, map_app. cbn [map]. rewrite last_last.
  cbn [Store.set_currentStep Store.conversationHistory Store.set_conversationHistory].
  apply removelast_last.
Qed.

(** C8, as the code has it. A non-blank message is sent.
    - [sendMessage]: when the request is rejected, the history is what it
      was before the call and the step is 'input'.
    - [sendMessageStream]: when the request throws, the step is 'input';
      the history is what it was before the call provided no done or
      complete event was handled before the throw (the catch block pops the
      last entry only if it is a user message). *)
Theorem send_failure_restores_history
    (JSON_parse : string -> option HousingAPI.EventData)
    (net : HousingAPI.Transport) (input : string) (s : Store.State) :
  JS.trim input <> "" ->
  (forall e,
     HousingAPI.sendChatMessage net input (Store.conversationId s) None =
       HousingAPI.Rejected e ->
     Store.conversationHistory (Store.sendMessage net input s) =
       Store.conversationHistory s /\
     Store.currentStep (Store.sendMessage net input s) = Store.StepInput) /\
  (forall e,
     (HousingAPI.sendChatMessageStream JSON_parse Store.handleStreamEvent net input
        (Store.conversationId s) None (streamOpened input s)).2 = JS.Threw e ->
     Store.currentStep (Store.sendMessageStream JSON_parse net input s) = Store.StepInput /\
     (forallb (fun call => negb (isDoneEvent call))
        (streamCalls JSON_parse
           (HousingAPI.fetch_chat net
              (HousingAPI.streamRequest input (Store.conversationId s) None))) = true ->
      Store.conversationHistory (Store.sendMessageStream JSON_parse net input s) =
        Store.conversationHistory s)).
Proof.
  intros Hinput. split.
  - intros e Hreq. unfold Store.sendMessage.
    destruct (String.eqb_spec (JS.trim input) ""); [contradiction|].
    cbn [Store.conversationId Store.set_currentStep Store.addMessage
         Store.set_conversationHistory Store.set_userInput Store.set_error
         Store.set_loading].
    rewrite Hreq. cbn [fst snd]. split; [|reflexivity].
    cbn [Store.set_loading Store.conversationHistory].
    apply (onSendFailure_history _ _ _ _ (Some input)). reflexivity.
  - intros e Hthrow. rewrite stream_request_effect in Hthrow. cbn [snd] in Hthrow.
    rewrite sendMessageStream_effect by exact Hinput. cbn zeta. rewrite Hthrow.
    split; [reflexivity|]. intros Hcalls.
    cbn [Store.set_isStreaming Store.conversationHistory].
    apply (onSendFailure_history _ _ _ _ (Some input)).
    rewrite deliver_keeps_history by exact Hcalls. reflexivity.
Qed.

Lemma send_failure_restores_history_witness :
  (Store.conversationHistory (Store.sendMessage failingNet "hello" Store.initialState) =
     Store.conversationHistory Store.initialState /\
   Store.currentStep (Store.sendMessage failingNet "hello" Store.initialState) =
     Store.StepInput) /\
  (Store.currentStep (Store.sendMessageStream parseExample failingNet "hello"
                        Store.initialState) = Store.StepInput /\
   Store.conversationHistory (Store.sendMessageStream parseExample failingNet "hello"
                                Store.initialState) =
     Store.conversationHistory Store.initialState).
Proof.
  assert (Hinput : JS.trim "hello" <> "") by (vm_compute; discriminate).
  destruct (send_failure_restores_history parseExample failingNet "hello"
              Store.initialState Hinput) as [Hplain Hstream].
  split.
  - apply (Hplain networkError). reflexivity.
  - destruct (Hstream networkError) as [Hstep Hhist]; [reflexivity|].
    split; [exact Hstep|]. apply Hhist. reflexivity.
Defined.

(** C8 as stated fails for [sendMessageStream]: the request throws after the
    done event was handled, the last history entry is then the assistant
    message, nothing is popped, and the history has grown by two entries. *)
Lemma stream_failure_after_done_keeps_messages :
  (HousingAPI.sendChatMessageStream parseExample Store.handleStreamEvent droppingNet
     "hello" (Store.conversationId Store.initialState) None
     (streamOpened "hello" Store.initialState)).2 = JS.Threw networkError /\
  Store.conversationHistory
    (Store.sendMessageStream parseExample droppingNet "hello" Store.initialState) =
  [{| Store.role := Store.user; Store.content := Some "hello" |};
   {| Store.role := Store.assistant; Store.content := Some "30%" |}] /\
  Store.conversationHistory
    (Store.sendMessageStream parseExample droppingNet "hello" Store.initialState) <>
  Store.conversationHistory Store.initialState.
Proof.
  split; [vm_compute; reflexivity|].
  split; [vm_compute; reflexivity|].
  vm_compute. discriminate.
Qed.

Lemma done_event_handled (eventType : string) (data : HousingAPI.EventData)
    (s : Store.State) :
  isDoneEvent (eventType, data) = true ->
  Store.handleStreamEvent eventType data s = Store.handleDone data s.
Proof.
  unfold isDoneEvent. cbn [fst]. intros Hdone.
  destruct (String.eqb_spec eventType "complete") as [->|];
    [reflexivity|].
  destruct (String.eqb_spec eventType "done") as [->|]; [reflexivity|discriminate].
Qed.

Lemma other_event_keeps_report (eventType : string) (data : HousingAPI.EventData)
    (s : Store.State) :
  isDoneEvent (eventType, data) = false ->
  Store.currentStep (Store.handleStreamEvent eventType data s).1 = Store.currentStep s /\
  Store.reportData (Store.handleStreamEvent eventType data s).1 = Store.reportData s.
Proof.
  unfold isDoneEvent. cbn [fst]. intros Hdone.
  event_cases eventType; try (split; reflexivity); discriminate.
Qed.

Lemma fullMessage_conversationId (data : HousingAPI.EventData) (v : JS.value)
    (s : Store.State) :
  Store.fullMessage data (Store.set_conversationId v s) = Store.fullMessage data s.
Proof. reflexivity. Qed.

Lemma isReportResponse_marker (text : string) :
  Store.isReportResponse (Some text) = Some (hasMarker text).
Proof.
  unfold Store.isReportResponse, hasMarker, Store.reportMarkers. cbn [existsb].
  rewrite orb_false_r, orb_assoc. reflexivity.
Qed.

(** What the done case does, by the message it assembles. *)
Lemma handleDone_effect (data : HousingAPI.EventData) (s : Store.State) :
  let s1 := if JS.truthy (HousingAPI.data_conversation_id data)
            then Store.set_conversationId (HousingAPI.data_conversation_id data) s
            else s in
  let s2 := Store.addMessage Store.assistant (Store.fullMessage data s) s1 in
  Store.handleDone data s =
  match Store.fullMessage data s with
  | None => (s2, JS.Threw JS.TypeError_includes)
  | Some text =>
    (Store.set_currentToolCalls []
       (Store.set_streamingProgress ""
          (Store.set_streamingMessage ""
             (if hasMarker text
              then Store.set_currentStep Store.StepResult
                     (Store.set_reportData
                        (Some {| Store.report_content := text;
                                 Store.report_conversationId :=
                                   HousingAPI.data_conversation_id data |}) s2)
              else s2))), JS.Returned)
  end.
Proof.
  cbn zeta. unfold Store.handleDone.
  assert (Hfull : Store.fullMessage data
            (if JS.truthy (HousingAPI.data_conversation_id data)
             then Store.set_conversationId (HousingAPI.data_conversation_id data) s
             else s) = Store.fullMessage data s).
  { destruct (JS.truthy _); reflexivity. }
  rewrite Hfull.
  destruct (Store.fullMessage data s) as [text|]; [|reflexivity].
  rewrite isReportResponse_marker. reflexivity.
Qed.

(** What [sendMessage] does once the request has settled. *)
Lemma sendMessage_effect (net : HousingAPI.Transport) (input : string)
    (s : Store.State) :
  JS.trim input <> "" ->
  let sent :=
    Store.set_currentStep Store.StepChat
      (Store.addMessage Store.user (Some input)
         (Store.set_userInput input (Store.set_error None (Store.set_loading true s)))) in
  Store.sendMessage net input s =
  Store.set_loading false
    match HousingAPI.sendChatMessage net input (Store.conversationId s) None with
    | HousingAPI.Rejected e => Store.onSendFailure "发送消息失败" e sent
    | HousingAPI.Resolved response =>
      let s2 := if JS.truthy (HousingAPI.resp_conversation_id response)
                then Store.set_conversationId (HousingAPI.resp_conversation_id response) sent
                else sent in
      let reply := JS.or (HousingAPI.resp_response response)
                         (HousingAPI.resp_message response) in
      let s3 := Store.addMessage Store.assistant reply s2 in
      match reply with
      | None => Store.onSendFailure "发送消息失败" JS.TypeError_includes s3
      | Some text =>
        if hasMarker text
        then Store.set_currentStep Store.StepResult
               (Store.set_reportData
                  (Some {| Store.report_content := text;
                           Store.report_conversationId :=
                             HousingAPI.resp_conversation_id response |}) s3)
        else s3
      end
    end.
Proof.
  intros Hinput. cbn zeta. unfold Store.sendMessage.
  destruct (String.eqb_spec (JS.trim input) ""); [contradiction|].
  cbn [Store.conversationId Store.set_currentStep Store.addMessage
       Store.set_conversationHistory Store.set_userInput Store.set_error
       Store.set_loading].
  destruct (HousingAPI.sendChatMessage net input (Store.conversationId s) None)
    as [response|e]; [|reflexivity].
  destruct (JS.or (HousingAPI.resp_response response) (HousingAPI.resp_message response))
    as [text|]; [|reflexivity].
  rewrite isReportResponse_marker. destruct (hasMarker text); reflexivity.
Qed.

(** C6. A chat request made without a [maxIterations] argument carries
    [max_iterations = 15], which lies in the documented range 1 to 30.
    - [sendChatMessage] posts the request with [stream = false] and
      [max_iterations = 15], and returns what the network answers to it.
    - [sendChatMessageStream] builds the body with [stream = true] and
      [max_iterations = 15] and sends it: the events it hands to the
      callback and the way it completes are those of the network's answer
      to that request.
    - The two store actions never pass a third argument. For a non-blank
      input, what [sendMessage] leaves in the store is computed from the
      answer to the request with [max_iterations = 15] and the store's
      conversation id, and what [sendMessageStream] leaves is computed
      from the events and the completion of the answer to the streaming
      request with [max_iterations = 15].
    - So each of the four depends on the network only through the answer
      to that one request. *)
Theorem chat_requests_carry_default_max_iterations :
  (forall net message conversationId,
     HousingAPI.sendChatMessage net message conversationId None =
     HousingAPI.post_chat net (chatRequest message false conversationId 15)) /\
  (forall message conversationId,
     HousingAPI.streamRequest message conversationId None =
     chatRequest message true conversationId 15) /\
  (forall JSON_parse (Receiver : Type)
          (onEvent : HousingAPI.Callback Receiver)
          net message conversationId (s : Receiver),
     let response :=
       HousingAPI.fetch_chat net (chatRequest message true conversationId 15) in
     HousingAPI.sendChatMessageStream JSON_parse onEvent net message conversationId None s =
     (deliver onEvent (streamCalls JSON_parse response) s, streamCompletion response)) /\
  (forall net input s,
     JS.trim input <> "" ->
     let sent :=
       Store.set_currentStep Store.StepChat
         (Store.addMessage Store.user (Some input)
            (Store.set_userInput input (Store.set_error None (Store.set_loading true s)))) in
     Store.sendMessage net input s =
     Store.set_loading false
       match HousingAPI.post_chat net
               (chatRequest input false (Store.conversationId s) 15) with
       | HousingAPI.Rejected e => Store.onSendFailure "发送消息失败" e sent
       | HousingAPI.Resolved response =>
         let s2 := if JS.truthy (HousingAPI.resp_conversation_id response)
                   then Store.set_conversationId
                          (HousingAPI.resp_conversation_id response) sent
                   else sent in
         let reply := JS.or (HousingAPI.resp_response response)
                            (HousingAPI.resp_message response) in
         let s3 := Store.addMessage Store.assistant reply s2 in
         match reply with
         | None => Store.onSendFailure "发送消息失败" JS.TypeError_includes s3
         | Some text =>
           if hasMarker text
           then Store.set_currentStep Store.StepResult
                  (Store.set_reportData
                     (Some {| Store.report_content := text;
                              Store.report_conversationId :=
                                HousingAPI.resp_conversation_id response |}) s3)
           else s3
         end
       end) /\
  (forall JSON_parse net input s,
     JS.trim input <> "" ->
     let response :=
       HousingAPI.fetch_chat net (chatRequest input true (Store.conversationId s) 15) in
     let received :=
       deliver Store.handleStreamEvent (streamCalls JSON_parse response)
         (streamOpened input s) in
     Store.sendMessageStream JSON_parse net input s =
     Store.set_isStreaming false
       match streamCompletion response with
       | JS.Threw e => Store.onSendFailure "发送流式消息失败" e received
       | JS.Returned => received
       end) /\
  (forall JSON_parse (Receiver : Type)
          (onEvent : HousingAPI.Callback Receiver)
          net message conversationId (s : Receiver),
     HousingAPI.sendChatMessageStream JSON_parse onEvent net message conversationId None s =
     HousingAPI.sendChatMessageStream JSON_parse onEvent
       (answeringAs net (chatRequest message true conversationId 15))
       message conversationId None s) /\
  (forall net input s,
     Store.sendMessage net input s =
     Store.sendMessage
       (answeringAs net (chatRequest input false (Store.conversationId s) 15)) input s) /\
  (forall JSON_parse net input s,
     Store.sendMessageStream JSON_parse net input s =
     Store.sendMessageStream JSON_parse
       (answeringAs net (chatRequest input true (Store.conversationId s) 15)) input s) /\
  (1 <= HousingAPI.defaultMaxIterations <= 30)%Z.
Proof.
  split; [reflexivity|].
  split; [reflexivity|].
  split.
  { intros. exact (stream_request_effect JSON_parse onEvent net message conversationId None s). }
  split.
  { intros net input s Hinput. exact (sendMessage_effect net input s Hinput). }
  split.
  { intros JSON_parse net input s Hinput.
    exact (sendMessageStream_effect JSON_parse net input s Hinput). }
  split.
  { intros. unfold HousingAPI.sendChatMessageStream, answeringAs.
    cbn [HousingAPI.fetch_chat]. reflexivity. }
  split.
  { intros. unfold Store.sendMessage.
    destruct (String.eqb (JS.trim input) ""); [reflexivity|].
    unfold HousingAPI.sendChatMessage, answeringAs.
    cbn [HousingAPI.post_chat]. reflexivity. }
  split.
  { intros. unfold Store.sendMessageStream.
    destruct (String.eqb (JS.trim input) ""); [reflexivity|].
    unfold HousingAPI.sendChatMessageStream, answeringAs.
    cbn [HousingAPI.fetch_chat]. reflexivity. }
  split; vm_compute; discriminate.
Qed.

Lemma chat_requests_carry_default_max_iterations_witness :
  JS.trim "你好" <> "" /\
  Store.sendMessage (budgetNet 15) "你好" Store.initialState =
    Store.set_loading false
      (Store.addMessage Store.assistant (Some "ok")
         (Store.set_conversationId (Some "conv_1")
            (Store.set_currentStep Store.StepChat
               (Store.addMessage Store.user (Some "你好")
                  (Store.set_userInput "你好"
                     (Store.set_error None
                        (Store.set_loading true Store.initialState))))))) /\
  Store.error (Store.sendMessage (budgetNet 14) "你好" Store.initialState) =
    Some "发送消息失败" /\
  Store.sendMessageStream parseExample (budgetNet 15) "你好" Store.initialState =
    Store.set_isStreaming false (streamOpened "你好" Store.initialState) /\
  Store.error (Store.sendMessageStream parseExample (budgetNet 14) "你好" Store.initialState) =
    Some "发送流式消息失败".
Proof.
  assert (Hinput : JS.trim "你好" <> "") by (vm_compute; discriminate).
  destruct chat_requests_carry_default_max_iterations
    as (_ & _ & _ & Hsend & Hstream & _).
  split; [exact Hinput|].
  split; [exact (Hsend (budgetNet 15) "你好" Store.initialState Hinput)|].
  split; [rewrite (Hsend (budgetNet 14) "你好" Store.initialState Hinput); reflexivity|].
  split; [exact (Hstream parseExample (budgetNet 15) "你好" Store.initialState Hinput)|].
  rewrite (Hstream parseExample (budgetNet 14) "你好" Store.initialState Hinput).
  reflexivity.
Defined.

(** The history only grows while events are handled. *)
Lemma event_extends_history (eventType : string) (data : HousingAPI.EventData)
    (s : Store.State) :
  exists added,
    Store.conversationHistory (Store.handleStreamEvent eventType data s).1 =
    Store.conversationHistory s ++ added.
Proof.
  destruct (isDoneEvent (eventType, data)) eqn:Hdone.
  - rewrite done_event_handled, handleDone_effect by exact Hdone. cbn zeta.
    exists [{| Store.role := Store.assistant; Store.content := Store.fullMessage data s |}].
    destruct (Store.fullMessage data s) as [text|];
      destruct (JS.truthy (HousingAPI.data_conversation_id data));
      try destruct (hasMarker text); reflexivity.
  - exists []. rewrite event_keeps_history by exact Hdone. symmetry. apply app_nil_r.
Qed.

Lemma event_report (eventType : string) (data : HousingAPI.EventData) (s : Store.State) :
  let s' := (Store.handleStreamEvent eventType data s).1 in
  (Store.currentStep s' = Store.currentStep s /\ Store.reportData s' = Store.reportData s) \/
  (Store.currentStep s' = Store.StepResult /\
   exists text,
     isDoneEvent (eventType, data) = true /\
     Store.fullMessage data s = Some text /\ hasMarker text = true /\
     Store.reportData s' =
       Some {| Store.report_content := text;
               Store.report_conversationId := HousingAPI.data_conversation_id data |} /\
     In {| Store.role := Store.assistant; Store.content := Some text |}
        (Store.conversationHistory s')).
Proof.
  cbn zeta. destruct (isDoneEvent (eventType, data)) eqn:Hdone.
  - rewrite done_event_handled, handleDone_effect by exact Hdone. cbn zeta.
    destruct (Store.fullMessage data s) as [text|] eqn:Hfull.
    + destruct (hasMarker text) eqn:Hmark.
      * right. split; [reflexivity|]. exists text.
        split; [reflexivity|]. split; [reflexivity|]. split; [exact Hmark|].
        split; [reflexivity|].
        cbn [fst Store.conversationHistory Store.set_currentToolCalls
             Store.set_streamingProgress Store.set_streamingMessage
             Store.set_currentStep Store.set_reportData Store.addMessage
             Store.set_conversationHistory].
        apply in_or_app. right. left. reflexivity.
      * left. destruct (JS.truthy _); split; reflexivity.
    + left. destruct (JS.truthy _); split; reflexivity.
  - left. apply other_event_keeps_report, Hdone.
Qed.

Lemma reportShown_kept (eventType : string) (data : HousingAPI.EventData)
    (s : Store.State) :
  reportShown s -> reportShown (Store.handleStreamEvent eventType data s).1.
Proof.
  intros (Hstep & report & Hrep & Hmark & Hin).
  destruct (event_extends_history eventType data s) as [added Hadded].
  destruct (event_report eventType data s) as [[Hs Hr]|(Hs & text & _ & _ & Hm & Hr & Hi)].
  - split; [congruence|]. exists report. repeat split; [congruence|exact Hmark|].
    rewrite Hadded. apply in_or_app. left. exact Hin.
  - split; [exact Hs|]. eexists. repeat split; [exact Hr|exact Hm|exact Hi].
Qed.

Lemma deliver_report (calls : list (string * HousingAPI.EventData)) (s : Store.State) :
  let s' := deliver Store.handleStreamEvent calls s in
  (Store.currentStep s' = Store.currentStep s /\ Store.reportData s' = Store.reportData s) \/
  reportShown s'.
Proof.
  cbn zeta. induction calls as [|[eventType data] pre IH] using rev_ind.
  - left. split; reflexivity.
  - rewrite deliver_app. cbn [deliver fold_left fst snd].
    destruct IH as [[Hs Hr]|Hshown].
    + destruct (event_report eventType data (deliver Store.handleStreamEvent pre s))
        as [[Hs' Hr']|(Hs' & text & _ & _ & Hm & Hr' & Hi)].
      * left. split; congruence.
      * right. split; [exact Hs'|]. eexists. repeat split; [exact Hr'|exact Hm|exact Hi].
    + right. apply reportShown_kept, Hshown.
Qed.

(** C10. The result step and [reportData].
    (1) A done or complete event whose assembled message contains one of
        the three markers moves the store to 'result' and sets [reportData]
        to that message.
    (2) Every other event (another type, no assembled message, or a message
        without marker) leaves [currentStep] and [reportData] as they were.
    (3) Over any sequence of events the pair is unchanged, or the store is
        at 'result' with a [reportData] whose content holds a marker and is
        an assistant message of the history.
    (4) A streamed send of a non-blank message ends at 'result' with such a
        report, or at 'chat' with [reportData] untouched, or, when the
        request threw, at 'input'.
    (5) [hasMarker] is containment of one of the three markers. *)
Theorem result_step_only_on_report :
  (forall eventType data s text,
     isDoneEvent (eventType, data) = true ->
     Store.fullMessage data s = Some text ->
     hasMarker text = true ->
     Store.currentStep (Store.handleStreamEvent eventType data s).1 = Store.StepResult /\
     Store.reportData (Store.handleStreamEvent eventType data s).1 =
       Some {| Store.report_content := text;
               Store.report_conversationId := HousingAPI.data_conversation_id data |}) /\
  (forall eventType data s,
     isDoneEvent (eventType, data) = false \/
     Store.fullMessage data s = None \/
     (exists text, Store.fullMessage data s = Some text /\ hasMarker text = false) ->
     Store.currentStep (Store.handleStreamEvent eventType data s).1 = Store.currentStep s /\
     Store.reportData (Store.handleStreamEvent eventType data s).1 = Store.reportData s) /\
  (forall calls s,
     (Store.currentStep (deliver Store.handleStreamEvent calls s) = Store.currentStep s /\
      Store.reportData (deliver Store.handleStreamEvent calls s) = Store.reportData s) \/
     reportShown (deliver Store.handleStreamEvent calls s)) /\
  (forall JSON_parse net input s,
     JS.trim input <> "" ->
     let final := Store.sendMessageStream JSON_parse net input s in
     reportShown final \/
     (Store.currentStep final = Store.StepChat /\
      Store.reportData final = Store.reportData s) \/
     (Store.currentStep final = Store.StepInput /\
      exists e,
        (HousingAPI.sendChatMessageStream JSON_parse Store.handleStreamEvent net input
           (Store.conversationId s) None (streamOpened input s)).2 = JS.Threw e)) /\
  (forall text,
     hasMarker text = true <->
     exists marker,
       In marker ["购房资金方案报告"; "总成本概览"; "月供压力分析"] /\
       JS.includes text marker = true).
Proof.
  split; [|split; [|split; [|split]]].
  - intros eventType data s text Hdone Hfull Hmark.
    rewrite done_event_handled, handleDone_effect by exact Hdone. cbn zeta.
    rewrite Hfull, Hmark. split; reflexivity.
  - intros eventType data s [Hdone|Hcase].
    { apply other_event_keeps_report, Hdone. }
    destruct (isDoneEvent (eventType, data)) eqn:Hdone;
      [|apply other_event_keeps_report, Hdone].
    rewrite done_event_handled, handleDone_effect by exact Hdone. cbn zeta.
    destruct Hcase as [Hnone|(text & Hfull & Hmark)].
    + rewrite Hnone. destruct (JS.truthy _); split; reflexivity.
    + rewrite Hfull, Hmark. destruct (JS.truthy _); split; reflexivity.
  - intros calls s. apply deliver_report.
  - intros JSON_parse net input s Hinput. cbn zeta.
    rewrite stream_request_effect. cbn [snd].
    rewrite sendMessageStream_effect by exact Hinput. cbn zeta.
    set (response := HousingAPI.fetch_chat net _).
    destruct (streamCompletion response) as [|e] eqn:Hend.
    + destruct (deliver_report (streamCalls JSON_parse response) (streamOpened input s))
        as [[Hs Hr]|Hshown].
      * right. left. split; [exact Hs | exact Hr].
      * left. exact Hshown.
    + right. right. split; [reflexivity|]. exists e. reflexivity.
  - intros text. unfold hasMarker, Store.reportMarkers. apply existsb_exists.
Qed.

(* ===================================================================== *)
(** ** Lists of events                                                    *)
(* ===================================================================== *)

Lemma countEvents_app (p : AgentLoop.Event -> bool) (a b : list AgentLoop.Event) :
  countEvents p (a ++ b) = countEvents p a + countEvents p b.
Proof. unfold countEvents. rewrite List.filter_app, List.length_app. reflexivity. Qed.

Lemma filter_all {A} (p : A -> bool) (l : list A) :
  (forall x, In x l -> p x = true) -> List.filter p l = l.
Proof.
  induction l as [|x l IH]; intros H; [reflexivity|].
  cbn [List.filter]. rewrite H by (left; reflexivity).
  f_equal. apply IH. intros y Hy. apply H. right. exact Hy.
Qed.

Lemma filter_none {A} (p : A -> bool) (l : list A) :
  (forall x, In x l -> p x = false) -> List.filter p l = [].
Proof.
  induction l as [|x l IH]; intros H; [reflexivity|].
  cbn [List.filter]. rewrite H by (left; reflexivity).
  apply IH. intros y Hy. apply H. right. exact Hy.
Qed.

Lemma filter_map_const {A B} (p : B -> bool) (f : A -> B) (b : bool) (l : list A) :
  (forall x, p (f x) = b) ->
  List.filter p (map f l) = if b then map f l else [].
Proof.
  intros H. destruct b.
  - apply filter_all. intros y Hy. apply in_map_iff in Hy as (x & <- & _). apply H.
  - apply filter_none. intros y Hy. apply in_map_iff in Hy as (x & <- & _). apply H.
Qed.

Lemma quiet_app (a b : list AgentLoop.Event) :
  quiet (a ++ b) = quiet a && quiet b.
Proof. apply forallb_app. Qed.

Lemma quiet_map {A} (f : A -> AgentLoop.Event) (l : list A) :
  (forall x, isTerminalEvent (f x) = false) -> quiet (map f l) = true.
Proof.
  intros H. unfold quiet. apply forallb_forall. intros y Hy.
  apply in_map_iff in Hy as (x & <- & _). rewrite H. reflexivity.
Qed.

Lemma omap_cons {A B} (g : A -> option B) (x : A) (l : list A) :
  omap g (x :: l) = match g x with Some y => y :: omap g l | None => omap g l end.
Proof. reflexivity. Qed.

Lemma omap_map_some {A B C} (g : B -> option C) (f : A -> B) (h : A -> C) (l : list A) :
  (forall x, g (f x) = Some (h x)) -> omap g (map f l) = map h l.
Proof.
  intros H. induction l as [|x l IH]; [reflexivity|].
  cbn [map]. rewrite omap_cons, H, IH. reflexivity.
Qed.

Lemma omap_map_none {A B C} (g : B -> option C) (f : A -> B) (l : list A) :
  (forall x, g (f x) = None) -> omap g (map f l) = [].
Proof.
  intros H. induction l as [|x l IH]; [reflexivity|].
  cbn [map]. rewrite omap_cons, H, IH. reflexivity.
Qed.

Lemma concat_cons (x : string) (l : list string) :
  String.concat "" (x :: l) = x +:+ String.concat "" l.
Proof.
  destruct l as [|y l]; cbn [String.concat].
  - symmetry. apply string_app_empty_r.
  - reflexivity.
Qed.

Lemma concat_app (a b : list string) :
  String.concat "" (a ++ b) = String.concat "" a +:+ String.concat "" b.
Proof.
  induction a as [|x a IH]; [reflexivity|].
  cbn [app]. rewrite !concat_cons, IH, string_app_assoc. reflexivity.
Qed.

Lemma concatChunks_app (a b : list AgentLoop.Event) :
  concatChunks (a ++ b) = concatChunks a +:+ concatChunks b.
Proof. unfold concatChunks. rewrite omap_app. apply concat_app. Qed.

(* ===================================================================== *)
(** ** The agent loop                                                     *)
(* ===================================================================== *)

(** The scenarios of section 8 of the specification, run on the model. *)
Example scenario_A :
  let t := AgentLoop.runTurn (directGateway "30%") policyRegistry 15 freshConversation
             "北京首套房首付比例？" in
  AgentLoop.emitted t =
  [AgentLoop.ev_thinking "正在理解您的需求..." "conv_1";
   AgentLoop.ev_response_start "开始生成回复..." 1;
   AgentLoop.ev_response_chunk "30%";
   AgentLoop.ev_response_end "回复生成完成" "30%";
   AgentLoop.ev_done "success" 1 "conv_1"].
Proof. vm_compute. reflexivity. Qed.

Example scenario_B :
  let t := AgentLoop.runTurn (oneToolGateway "30%") policyRegistry 15 freshConversation
             "朝阳首套" in
  map (fun e => (AgentLoop.encode e).1) (AgentLoop.emitted t) =
  ["thinking"; "tool_call"; "tool_result"; "thinking"; "response_start";
   "response_chunk"; "response_end"; "done"] /\
  List.last (AgentLoop.emitted t) (AgentLoop.ev_error "" "") =
  AgentLoop.ev_done "success" 2 "conv_1".
Proof. vm_compute. split; reflexivity. Qed.

Example scenario_C :
  let t := AgentLoop.runTurn (oneToolGateway "请稍后再试") timeoutRegistry 15
             freshConversation "朝阳首套" in
  firstn 4 (AgentLoop.emitted t) =
  [AgentLoop.ev_thinking "正在理解您的需求..." "conv_1";
   AgentLoop.ev_tool_call "policy_lookup" "{}" "正在调用 policy_lookup...";
   AgentLoop.ev_tool_result "policy_lookup" (SessionStore.ToolError "Timeout" "30s")
     "policy_lookup 执行完成";
   AgentLoop.ev_thinking "正在理解您的需求..." "conv_1"] /\
  AgentLoop.phase t = AgentLoop.PhaseCompleted.
Proof. vm_compute. split; reflexivity. Qed.

Example scenario_D :
  let t := AgentLoop.runTurn greedyGateway policyRegistry 1 freshConversation "朝阳首套" in
  AgentLoop.emitted t =
  [AgentLoop.ev_thinking "正在理解您的需求..." "conv_1";
   AgentLoop.ev_tool_call "policy_lookup" "{}" "正在调用 policy_lookup...";
   AgentLoop.ev_tool_result "policy_lookup" (SessionStore.Success "30%")
     "policy_lookup 执行完成";
   AgentLoop.ev_done "error" 1 "conv_1"] /\
  AgentLoop.phase t = AgentLoop.PhaseFailed AgentLoop.IterationLimitExceeded.
Proof. vm_compute. split; reflexivity. Qed.

Section LoopFacts.

Variable gateway : list SessionStore.Message -> AgentLoop.ModelResponse.
Variable registry : gmap string (string -> SessionStore.ToolCallOutcome).
Variable max_iterations : nat.

Local Abbreviation step := (AgentLoop.step gateway registry max_iterations).
Local Abbreviation steps := (AgentLoop.steps gateway registry max_iterations).
Local Abbreviation reachable := (AgentLoop.reachable gateway registry max_iterations).
Local Abbreviation runTurn := (AgentLoop.runTurn gateway registry max_iterations).
Local Abbreviation invoke := (AgentLoop.invoke registry).
Local Abbreviation remaining := (stepsLeft max_iterations).
Local Abbreviation bounded := (iterationsBounded registry max_iterations).
Local Abbreviation callEvent := AgentLoop.toolCallEvent.
Local Abbreviation resultEvent := (AgentLoop.toolResultEvent registry).

Ltac step_cases H :=
  unfold AgentLoop.step in H;
  match type of H with
  | context [AgentLoop.phase ?t] =>
    let Hphase := fresh "Hphase" in
    destruct (AgentLoop.phase t) as [?| |reqs|frags| |?] eqn:Hphase;
    [ | destruct (gateway _) as [frags|[|r rs]|descr] eqn:?
      | destruct (Nat.leb max_iterations _) eqn:?
      | | discriminate H | discriminate H ];
    injection H as <-
  end.

Lemma step_none_iff_terminal (t : AgentLoop.Turn) :
  step t = None <-> AgentLoop.terminal t = true.
Proof.
  unfold AgentLoop.step, AgentLoop.terminal.
  destruct (AgentLoop.phase t); try (split; [discriminate|discriminate]);
    try (split; reflexivity).
  - destruct (gateway _) as [?|[|? ?]|?]; split; discriminate.
  - destruct (Nat.leb _ _); split; discriminate.
Qed.

Lemma step_decreases (t t' : AgentLoop.Turn) :
  step t = Some t' -> remaining t' < remaining t.
Proof.
  intros H. unfold stepsLeft at 2. step_cases H; rewrite ?Hphase;
    unfold stepsLeft; cbn [AgentLoop.phase AgentLoop.iterations];
    repeat match goal with
           | |- context [Nat.leb ?a ?b] => destruct (Nat.leb_spec a b)
           | H : Nat.leb _ _ = false |- _ => apply Nat.leb_gt in H
           end; lia.
Qed.

Lemma steps_reach_terminal (n : nat) (t : AgentLoop.Turn) :
  remaining t <= n -> AgentLoop.terminal (steps n t) = true.
Proof.
  revert t. induction n as [|n IH]; intros t Hn.
  - cbn [AgentLoop.steps].
    destruct (step t) as [t'|] eqn:Hstep.
    + apply step_decreases in Hstep. lia.
    + apply step_none_iff_terminal, Hstep.
  - cbn [AgentLoop.steps].
    destruct (step t) as [t'|] eqn:Hstep.
    + apply IH. apply step_decreases in Hstep. lia.
    + apply step_none_iff_terminal, Hstep.
Qed.

(** Every turn ends: the run reaches Completed or Failed. *)
Lemma turn_terminates (c : SessionStore.Conversation) (text : string) :
  AgentLoop.terminal (runTurn c text) = true.
Proof. apply steps_reach_terminal. cbn. lia. Qed.

Lemma steps_reachable (c : SessionStore.Conversation) (text : string)
    (n : nat) (t : AgentLoop.Turn) :
  reachable c text t -> reachable c text (steps n t).
Proof.
  revert t. induction n as [|n IH]; intros t Hreach; [exact Hreach|].
  cbn [AgentLoop.steps]. destruct (step t) as [t'|] eqn:Hstep; [|exact Hreach].
  apply IH. eapply AgentLoop.reach_step; eassumption.
Qed.

Lemma runTurn_reachable (c : SessionStore.Conversation) (text : string) :
  reachable c text (runTurn c text).
Proof. apply steps_reachable. constructor. Qed.

(** More transitions change nothing once the turn has ended. *)
Lemma steps_after_end (n : nat) (t : AgentLoop.Turn) :
  AgentLoop.terminal t = true -> steps n t = t.
Proof.
  intros Hterm. apply step_none_iff_terminal in Hterm.
  destruct n; cbn [AgentLoop.steps]; [reflexivity|]. rewrite Hterm. reflexivity.
Qed.

Lemma steps_add (n m : nat) (t : AgentLoop.Turn) :
  steps (n + m) t = steps m (steps n t).
Proof.
  revert t. induction n as [|n IH]; intros t; [reflexivity|].
  cbn [Nat.add AgentLoop.steps]. destruct (step t) as [t'|] eqn:Hstep; [apply IH|].
  symmetry. apply steps_after_end, step_none_iff_terminal, Hstep.
Qed.

Lemma iterations_invariant (c : SessionStore.Conversation) (text : string)
    (t : AgentLoop.Turn) :
  1 <= max_iterations -> reachable c text t -> bounded t.
Proof.
  intros Hmax Hreach. induction Hreach as [|t t' Hreach IH Hstep].
  - reflexivity.
  - unfold iterationsBounded in *. step_cases Hstep; rewrite ?Hphase in IH;
      cbn [AgentLoop.phase AgentLoop.iterations AgentLoop.conversation]; try lia.
    + split; [lia|discriminate].
    + destruct IH as [IH Hne]. split; [apply Nat.leb_le in Heqb; lia|].
      exists (SessionStore.messages (AgentLoop.conversation t)), reqs.
      split; [exact Hne|reflexivity].
    + destruct IH as [IH Hne]. apply Nat.leb_gt in Heqb. lia.
Qed.

(** *** The trace of a turn *)

Lemma identifier_invariant (c : SessionStore.Conversation) (text : string)
    (t : AgentLoop.Turn) :
  reachable c text t ->
  SessionStore.identifier (AgentLoop.conversation t) = SessionStore.identifier c.
Proof.
  intros Hreach. induction Hreach as [|t t' Hreach IH Hstep]; [reflexivity|].
  step_cases Hstep; exact IH.
Qed.

(** The number of model calls is the number of iterations, plus the call
    that failed when the gateway was down. *)
Lemma thinking_invariant (c : SessionStore.Conversation) (text : string)
    (t : AgentLoop.Turn) :
  reachable c text t ->
  countEvents isThinking (AgentLoop.emitted t) =
  match AgentLoop.phase t with
  | AgentLoop.PhaseFailed (AgentLoop.Unrecoverable _) => S (AgentLoop.iterations t)
  | _ => AgentLoop.iterations t
  end.
Proof.
  intros Hreach. induction Hreach as [|t t' Hreach IH Hstep]; [reflexivity|].
  unfold countEvents in *.
  step_cases Hstep; rewrite ?Hphase in IH;
    cbn [AgentLoop.phase AgentLoop.iterations AgentLoop.emitted app];
    repeat (rewrite ?List.filter_app, ?List.length_app;
            cbn [List.filter isThinking length app Nat.add]);
    rewrite ?IH,
            ?(filter_map_const isThinking callEvent false),
            ?(filter_map_const isThinking resultEvent false),
            ?(filter_map_const isThinking AgentLoop.ev_response_chunk false)
      by reflexivity;
    cbn [length]; lia.
Qed.

Lemma traceEnd_invariant (c : SessionStore.Conversation) (text : string)
    (t : AgentLoop.Turn) :
  reachable c text t -> traceEnd (SessionStore.identifier c) t.
Proof.
  intros Hreach. induction Hreach as [|t t' Hreach IH Hstep]; [reflexivity|].
  pose proof (identifier_invariant c text t Hreach) as Hid.
  unfold traceEnd in *. step_cases Hstep; rewrite ?Hphase in IH;
    cbn [AgentLoop.phase AgentLoop.iterations AgentLoop.emitted];
    rewrite ?Hid.
  - exact IH.
  - rewrite quiet_app, IH. reflexivity.
  - rewrite quiet_app, IH. reflexivity.
  - rewrite quiet_app, IH. reflexivity.
  - eexists. split; [reflexivity|]. rewrite quiet_app, IH. reflexivity.
  - eexists. split; [rewrite !app_assoc; reflexivity|].
    rewrite !quiet_app, IH, (quiet_map callEvent), (quiet_map resultEvent);
      reflexivity.
  - rewrite !quiet_app, IH, (quiet_map callEvent), (quiet_map resultEvent);
      reflexivity.
  - exists (AgentLoop.emitted t ++
            [AgentLoop.ev_response_start "开始生成回复..." (AgentLoop.iterations t)] ++
            map AgentLoop.ev_response_chunk frags ++
            [AgentLoop.ev_response_end "回复生成完成" (String.concat "" frags)]).
    split.
    + rewrite <- !app_assoc. reflexivity.
    + rewrite !quiet_app, IH, (quiet_map AgentLoop.ev_response_chunk); reflexivity.
Qed.

(** *** The answer text *)

Lemma lastAssistantText_append (c : SessionStore.Conversation) (text : string) :
  AgentLoop.lastAssistantText
    (AgentLoop.setStatus SessionStore.Completed
       (AgentLoop.appendMessages [AgentLoop.assistantMessage text] c)) = Some text.
Proof.
  unfold AgentLoop.lastAssistantText.
  cbn [AgentLoop.setStatus AgentLoop.appendMessages SessionStore.messages].
  rewrite map_app. cbn [map]. rewrite last_last. reflexivity.
Qed.

Lemma traceText_invariant (c : SessionStore.Conversation) (text : string)
    (t : AgentLoop.Turn) :
  reachable c text t -> traceText t.
Proof.
  intros Hreach. induction Hreach as [|t t' Hreach IH Hstep]; [split; reflexivity|].
  unfold traceText in *. step_cases Hstep; rewrite ?Hphase in IH;
    cbn [AgentLoop.phase AgentLoop.iterations AgentLoop.emitted AgentLoop.conversation];
    destruct IH as [IHchunks IHend].
  - split; assumption.
  - rewrite !omap_app, IHchunks, IHend. split; reflexivity.
  - rewrite !omap_app, IHchunks, IHend. split; reflexivity.
  - rewrite !omap_app, IHchunks, IHend. split; reflexivity.
  - rewrite !omap_app, IHchunks, IHend. split; reflexivity.
  - rewrite !omap_app, IHchunks, IHend,
      (omap_map_none chunkContent callEvent), (omap_map_none chunkContent resultEvent),
      (omap_map_none fullResponse callEvent), (omap_map_none fullResponse resultEvent)
      by reflexivity.
    split; reflexivity.
  - rewrite !omap_app, IHchunks, IHend,
      (omap_map_none chunkContent callEvent), (omap_map_none chunkContent resultEvent),
      (omap_map_none fullResponse callEvent), (omap_map_none fullResponse resultEvent)
      by reflexivity.
    split; reflexivity.
  - match goal with
    | |- context [concatChunks ?events] =>
      assert (Hchunks : concatChunks events = String.concat "" frags)
    end.
    { unfold concatChunks.
      repeat (rewrite ?omap_app, ?omap_cons; cbn [chunkContent]).
      rewrite IHchunks,
        (omap_map_some chunkContent AgentLoop.ev_response_chunk (fun x => x))
        by reflexivity.
      rewrite map_id. cbn [omap list_omap app]. rewrite app_nil_r. reflexivity. }
    rewrite Hchunks. split; [|apply lastAssistantText_append].
    repeat (rewrite ?omap_app, ?omap_cons; cbn [fullResponse]).
    rewrite IHend, (omap_map_none fullResponse AgentLoop.ev_response_chunk)
      by reflexivity.
    reflexivity.
Qed.

(** *** Tool events *)

Lemma split_in_segment {A} (a b before after : list A) (e : A) :
  a ++ b = before ++ e :: after ->
  (exists rest, a = before ++ e :: rest /\ after = rest ++ b) \/
  (exists more, before = a ++ more /\ b = more ++ e :: after).
Proof.
  revert before. induction a as [|x a IH]; intros before H.
  - right. exists before. split; [reflexivity|exact H].
  - destruct before as [|y before].
    + cbn [app] in H. injection H as <- <-. left. exists a. split; reflexivity.
    + cbn [app] in H. injection H as <- H.
      destruct (IH before H) as [(rest & -> & ->)|(more & -> & ->)].
      * left. exists rest. split; reflexivity.
      * right. exists more. split; reflexivity.
Qed.

Lemma resultsFollowCalls_app (a b : list AgentLoop.Event) :
  resultsFollowCalls a ->
  (forall more e after,
     b = more ++ e :: after -> isToolResult e = true ->
     exists call,
       nth_error (List.filter isToolCall (a ++ more))
                 (countEvents isToolResult (a ++ more)) = Some call /\
       toolNameOf call = toolNameOf e) ->
  resultsFollowCalls (a ++ b).
Proof.
  intros Ha Hb before e after Hsplit He.
  apply split_in_segment in Hsplit as [(rest & Hsplit & _)|(more & -> & Hsplit)].
  - exact (Ha before e rest Hsplit He).
  - exact (Hb more e after Hsplit He).
Qed.

Lemma resultsFollowCalls_silent (a b : list AgentLoop.Event) :
  resultsFollowCalls a ->
  (forall e, In e b -> isToolResult e = false) ->
  resultsFollowCalls (a ++ b).
Proof.
  intros Ha Hb. apply resultsFollowCalls_app; [exact Ha|].
  intros more e after -> He. rewrite Hb in He; [discriminate|].
  apply in_or_app. right. left. reflexivity.
Qed.

(** One round of tool execution keeps the pairing. *)
Lemma resultsFollowCalls_round (a : list AgentLoop.Event)
    (requests : list SessionStore.ToolCallRequest) :
  resultsFollowCalls a ->
  countEvents isToolCall a = countEvents isToolResult a ->
  resultsFollowCalls (a ++ map callEvent requests ++ map resultEvent requests).
Proof.
  intros Ha Hbalanced. apply resultsFollowCalls_app; [exact Ha|].
  intros more e after Hsplit He.
  apply split_in_segment in Hsplit as [(rest & Hsplit & _)|(done & -> & Hsplit)].
  { assert (Hin : In e (map callEvent requests)).
    { rewrite Hsplit. apply in_or_app. right. left. reflexivity. }
    apply in_map_iff in Hin as (r & <- & _). discriminate He. }
  apply map_eq_app in Hsplit as (reqs1 & reqs2 & -> & <- & Hsplit).
  destruct reqs2 as [|r reqs2]; [discriminate|].
  cbn [map] in Hsplit. injection Hsplit as <- _.
  exists (callEvent r). split; [|reflexivity].
  rewrite !countEvents_app, !List.filter_app.
  unfold countEvents in *.
  rewrite (filter_map_const isToolCall callEvent true),
    (filter_map_const isToolCall resultEvent false),
    (filter_map_const isToolResult callEvent false),
    (filter_map_const isToolResult resultEvent true) by reflexivity.
  rewrite app_nil_r. cbn [length]. rewrite Nat.add_0_l, <- Hbalanced, length_map.
  rewrite nth_error_app2 by lia.
  replace (_ + _ - _) with (length reqs1) by lia.
  rewrite map_app, nth_error_app2 by (rewrite length_map; lia).
  rewrite length_map, Nat.sub_diag. reflexivity.
Qed.

(** Along a turn the tool events are paired, call by call. *)
Lemma tools_invariant (c : SessionStore.Conversation) (text : string)
    (t : AgentLoop.Turn) :
  reachable c text t ->
  map toolNameOf (List.filter isToolCall (AgentLoop.emitted t)) =
    map toolNameOf (List.filter isToolResult (AgentLoop.emitted t)) /\
  resultsFollowCalls (AgentLoop.emitted t).
Proof.
  intros Hreach. induction Hreach as [|t t' Hreach IH Hstep].
  { split; [reflexivity|]. intros [|x before] e after H; discriminate H. }
  destruct IH as [IHnames IHorder].
  assert (Hbalanced : countEvents isToolCall (AgentLoop.emitted t) =
                      countEvents isToolResult (AgentLoop.emitted t)).
  { unfold countEvents. rewrite <- (length_map toolNameOf), IHnames, length_map.
    reflexivity. }
  assert (Hround : forall requests,
    map toolNameOf (List.filter isToolCall
      (AgentLoop.emitted t ++ map callEvent requests ++ map resultEvent requests)) =
    map toolNameOf (List.filter isToolResult
      (AgentLoop.emitted t ++ map callEvent requests ++ map resultEvent requests))).
  { intros requests. rewrite !List.filter_app, !map_app, IHnames.
    rewrite (filter_map_const isToolCall callEvent true),
      (filter_map_const isToolCall resultEvent false),
      (filter_map_const isToolResult callEvent false),
      (filter_map_const isToolResult resultEvent true) by reflexivity.
    cbn [map app]. rewrite app_nil_r, !map_map. reflexivity. }
  step_cases Hstep; cbn [AgentLoop.emitted].
  - split; assumption.
  - split.
    + rewrite !List.filter_app, !map_app, IHnames. reflexivity.
    + apply resultsFollowCalls_silent; [exact IHorder|].
      intros e [<-|[]]; reflexivity.
  - split.
    + rewrite !List.filter_app, !map_app, IHnames. reflexivity.
    + apply resultsFollowCalls_silent; [exact IHorder|].
      intros e [<-|[]]; reflexivity.
  - split.
    + rewrite !List.filter_app, !map_app, IHnames. reflexivity.
    + apply resultsFollowCalls_silent; [exact IHorder|].
      intros e [<-|[]]; reflexivity.
  - split.
    + rewrite !List.filter_app, !map_app, IHnames. reflexivity.
    + rewrite <- app_assoc. apply resultsFollowCalls_silent; [exact IHorder|].
      intros e [<-|[<-|[]]]; reflexivity.
  - split.
    + rewrite List.filter_app, (List.filter_app isToolResult), !map_app, Hround.
      reflexivity.
    + apply resultsFollowCalls_silent; [|intros e [<-|[]]; reflexivity].
      apply resultsFollowCalls_round; assumption.
  - split; [apply Hround|]. apply resultsFollowCalls_round; assumption.
  - split.
    + rewrite (List.filter_app _ (AgentLoop.emitted t)),
        (List.filter_app isToolResult (AgentLoop.emitted t)), !map_app, IHnames.
      f_equal. cbn [app List.filter isToolCall isToolResult].
      rewrite !List.filter_app,
        (filter_map_const isToolCall AgentLoop.ev_response_chunk false),
        (filter_map_const isToolResult AgentLoop.ev_response_chunk false) by reflexivity.
      reflexivity.
    + apply resultsFollowCalls_silent; [exact IHorder|].
      intros e [<-|Hin]; [reflexivity|].
      apply in_app_or in Hin as [Hin|[<-|[<-|[]]]]; try reflexivity.
      apply in_map_iff in Hin as (x & <- & _). reflexivity.
Qed.

End LoopFacts.

(** *** The store's list of tool calls *)

Lemma clientAfter_app (a b : list AgentLoop.Event) (s : Store.State) :
  clientAfter (a ++ b) s = clientAfter b (clientAfter a s).
Proof. unfold clientAfter. rewrite map_app. apply deliver_app. Qed.

Lemma clientAfter_cons (e : AgentLoop.Event) (rest : list AgentLoop.Event)
    (s : Store.State) :
  clientAfter (e :: rest) s = clientAfter rest (clientAfter [e] s).
Proof. reflexivity. Qed.

Lemma find_running_in (name : string) (calls : list Store.ToolCall) :
  In name (runningNames calls) -> Store.findRunningTool name calls <> None.
Proof.
  unfold runningNames, Store.findRunningTool, isRunning.
  induction calls as [|tool rest IH]; [contradiction|].
  cbn [List.filter List.find].
  destruct (Store.status tool) eqn:Hstatus.
  - cbn [map In]. intros [Hname|Hin].
    + rewrite Hname, String.eqb_refl. discriminate.
    + destruct (String.eqb _ _); [discriminate|]. apply IH, Hin.
  - rewrite andb_false_r. exact IH.
Qed.

Lemma find_running_sound (name : string) (calls : list Store.ToolCall)
    (tool : Store.ToolCall) :
  Store.findRunningTool name calls = Some tool ->
  Store.tool_name tool = name /\ Store.status tool = Store.running /\ In tool calls.
Proof.
  unfold Store.findRunningTool. intros H. apply find_some in H as [Hin Hp].
  apply andb_prop in Hp as [Hname Hstatus]. apply String.eqb_eq in Hname.
  destruct (Store.status tool); [|discriminate]. auto.
Qed.

(** Completing the first running entry of a name takes one occurrence of
    that name, and nothing else, out of the running names. *)
Lemma running_after_complete (name resultMessage : string)
    (calls : list Store.ToolCall) (other : string) :
  count_occ string_dec (runningNames calls) other <=
  count_occ string_dec
    (runningNames (Store.completeRunningTool name resultMessage calls)) other +
  (if string_dec name other then 1 else 0).
Proof.
  unfold runningNames, isRunning. induction calls as [|tool rest IH]; [cbn; lia|].
  cbn [Store.completeRunningTool].
  destruct (Store.status tool) eqn:Hstatus.
  - destruct (String.eqb_spec (Store.tool_name tool) name) as [Hname|Hname].
    + cbn [List.filter Store.status]. rewrite Hstatus.
      cbn [map count_occ]. rewrite Hname.
      destruct (string_dec name other); lia.
    + cbn [List.filter]. rewrite Hstatus.
      cbn [map count_occ]. destruct (string_dec (Store.tool_name tool) other); lia.
  - cbn [List.filter]. rewrite Hstatus. exact IH.
Qed.

Lemma completed_after_complete (name resultMessage : string)
    (calls : list Store.ToolCall) :
  Store.findRunningTool name calls <> None ->
  completedCount (Store.completeRunningTool name resultMessage calls) =
  S (completedCount calls).
Proof.
  unfold completedCount, Store.findRunningTool, isRunning.
  induction calls as [|tool rest IH]; [intros H; contradiction H; reflexivity|].
  cbn [List.find Store.completeRunningTool List.filter].
  destruct (Store.status tool) eqn:Hstatus.
  - rewrite andb_true_r.
    destruct (String.eqb (Store.tool_name tool) name); intros H.
    + cbn [List.filter Store.status negb length]. reflexivity.
    + cbn [List.filter]. rewrite Hstatus. cbn [negb]. apply IH, H.
  - rewrite andb_false_r. intros H.
    cbn [List.filter]. rewrite Hstatus. cbn [negb length]. f_equal. apply IH, H.
Qed.

(** What the three kinds of events do to [currentToolCalls]. *)
Lemma client_tool_call (name args message : string) (s : Store.State) :
  runningNames (Store.currentToolCalls
                  (clientAfter [AgentLoop.ev_tool_call name args message] s)) =
  runningNames (Store.currentToolCalls s) ++ [shownName name].
Proof.
  unfold clientAfter, runningNames.
  cbn [map AgentLoop.encode deliver fold_left fst snd].
  unfold Store.handleStreamEvent.
  cbn [String.eqb Ascii.eqb Bool.eqb orb andb fst Store.currentToolCalls
       Store.set_streamingProgress Store.set_currentToolCalls HousingAPI.data_tool_name].
  rewrite List.filter_app, map_app. reflexivity.
Qed.

Lemma client_tool_result (name : string) (result : SessionStore.ToolCallOutcome)
    (message : string) (s : Store.State) :
  Store.currentToolCalls (clientAfter [AgentLoop.ev_tool_result name result message] s) =
  Store.completeRunningTool (shownName name)
    (JS.or_str (Some message) (shownName name +:+ " 执行完成"))
    (Store.currentToolCalls s).
Proof. reflexivity. Qed.

Lemma client_other_event (e : AgentLoop.Event) (s : Store.State) :
  isToolCall e = false -> isToolResult e = false -> isTerminalEvent e = false ->
  Store.currentToolCalls (clientAfter [e] s) = Store.currentToolCalls s.
Proof. destruct e; intros; try discriminate; reflexivity. Qed.

Lemma allResultsMatched_app (a b : list AgentLoop.Event) (s : Store.State) :
  allResultsMatched (a ++ b) s <->
  allResultsMatched a s /\ allResultsMatched b (clientAfter a s).
Proof.
  revert s. induction a as [|e a IH]; intros s.
  - cbn [app allResultsMatched]. tauto.
  - cbn [app allResultsMatched]. rewrite IH, (clientAfter_cons e a). tauto.
Qed.

Lemma allResultsMatched_silent (events : list AgentLoop.Event) (s : Store.State) :
  (forall e, In e events -> isToolResult e = false) -> allResultsMatched events s.
Proof.
  revert s. induction events as [|e rest IH]; intros s H; [exact I|].
  cbn [allResultsMatched]. split.
  - specialize (H e (or_introl eq_refl)). destruct e; try exact I. discriminate H.
  - apply IH. intros e' He'. apply H. right. exact He'.
Qed.

Section ClientTools.

Variable registry : gmap string (string -> SessionStore.ToolCallOutcome).

Local Abbreviation callEvent := AgentLoop.toolCallEvent.
Local Abbreviation resultEvent := (AgentLoop.toolResultEvent registry).

Lemma running_after_calls (requests : list SessionStore.ToolCallRequest) (s : Store.State) :
  runningNames (Store.currentToolCalls (clientAfter (map callEvent requests) s)) =
  runningNames (Store.currentToolCalls s) ++
  map (fun r => shownName (SessionStore.call_tool r)) requests.
Proof.
  revert s. induction requests as [|r rest IH]; intros s.
  - cbn [map]. symmetry. apply app_nil_r.
  - cbn [map]. rewrite clientAfter_cons, IH. unfold AgentLoop.toolCallEvent at 1.
    rewrite client_tool_call, <- app_assoc. reflexivity.
Qed.

Lemma results_matched (requests : list SessionStore.ToolCallRequest) (s : Store.State) :
  (forall name,
     count_occ string_dec
       (map (fun r => shownName (SessionStore.call_tool r)) requests) name <=
     count_occ string_dec (runningNames (Store.currentToolCalls s)) name) ->
  allResultsMatched (map resultEvent requests) s.
Proof.
  revert s. induction requests as [|r rest IH]; intros s Hcount; [exact I|].
  cbn [map allResultsMatched]. unfold AgentLoop.toolResultEvent at 1. split.
  - apply find_running_in. apply (count_occ_In string_dec).
    specialize (Hcount (shownName (SessionStore.call_tool r))).
    cbn [map count_occ] in Hcount.
    destruct (string_dec _ _); [lia|contradiction].
  - apply IH. intros name.
    change (resultEvent r) with
      (AgentLoop.ev_tool_result (SessionStore.call_tool r) (AgentLoop.invoke registry r)
         (SessionStore.call_tool r +:+ " 执行完成")).
    rewrite client_tool_result.
    specialize (Hcount name). cbn [map count_occ] in Hcount.
    pose proof (running_after_complete (shownName (SessionStore.call_tool r))
                  (JS.or_str (Some (SessionStore.call_tool r +:+ " 执行完成"))
                     (shownName (SessionStore.call_tool r) +:+ " 执行完成"))
                  (Store.currentToolCalls s) name) as Hdrop.
    destruct (string_dec (shownName (SessionStore.call_tool r)) name); lia.
Qed.

(** In one round every result is matched, whatever the store held before. *)
Lemma round_matched (requests : list SessionStore.ToolCallRequest) (s : Store.State) :
  allResultsMatched (map callEvent requests ++ map resultEvent requests) s.
Proof.
  apply allResultsMatched_app. split.
  - apply allResultsMatched_silent. intros e He.
    apply in_map_iff in He as (r & <- & _). reflexivity.
  - apply results_matched. intros name. rewrite running_after_calls, count_occ_app. lia.
Qed.

End ClientTools.

Lemma turn_results_matched gateway registry max_iterations
    (c : SessionStore.Conversation) (text : string) (t : AgentLoop.Turn) :
  AgentLoop.reachable gateway registry max_iterations c text t ->
  forall s, allResultsMatched (AgentLoop.emitted t) s.
Proof.
  intros Hreach. induction Hreach as [|t t' Hreach IH Hstep]; intros s; [exact I|].
  unfold AgentLoop.step in Hstep.
  destruct (AgentLoop.phase t) as [?| |reqs|frags| |?];
    [ | destruct (gateway _) as [frags|[|r rs]|descr]
      | destruct (Nat.leb max_iterations _) | | discriminate Hstep | discriminate Hstep ];
    injection Hstep as <-; cbn [AgentLoop.emitted].
  - apply IH.
  - apply allResultsMatched_app. split; [apply IH|]. cbn. auto.
  - apply allResultsMatched_app. split; [apply IH|]. cbn. auto.
  - apply allResultsMatched_app. split; [apply IH|]. cbn. auto.
  - apply allResultsMatched_app. split.
    + apply allResultsMatched_app. split; [apply IH|]. cbn. auto.
    + cbn. auto.
  - apply allResultsMatched_app. split.
    + apply allResultsMatched_app. split; [apply IH|]. apply round_matched.
    + cbn. auto.
  - apply allResultsMatched_app. split; [apply IH|]. apply round_matched.
  - apply allResultsMatched_app. split; [apply IH|].
    apply allResultsMatched_silent. intros e [<-|Hin]; [reflexivity|].
    apply in_app_or in Hin as [Hin|[<-|[<-|[]]]]; try reflexivity.
    apply in_map_iff in Hin as (x & <- & _). reflexivity.
Qed.

(* ===================================================================== *)
(** ** Properties of a turn                                               *)
(* ===================================================================== *)

(** C2. In the trace of every turn run to its end:
    - there are as many tool_call as tool_result events, and the tool names
      of the calls, in order, are the tool names of the results, in order;
    - the [k]-th tool_result comes after the [k]-th tool_call, which has
      its tool name;
    - when the store handles the events in order, from any state, each
      tool_result finds a running entry of its tool name in
      [currentToolCalls], and handling it completes one more entry. *)
Theorem tool_results_follow_calls
    (gateway : list SessionStore.Message -> AgentLoop.ModelResponse)
    (registry : gmap string (string -> SessionStore.ToolCallOutcome))
    (max_iterations : nat) (c : SessionStore.Conversation) (text : string) :
  let events :=
    AgentLoop.emitted (AgentLoop.runTurn gateway registry max_iterations c text) in
  countEvents isToolCall events = countEvents isToolResult events /\
  map toolNameOf (List.filter isToolCall events) =
    map toolNameOf (List.filter isToolResult events) /\
  resultsFollowCalls events /\
  (forall s before name result message after,
     events = before ++ AgentLoop.ev_tool_result name result message :: after ->
     (exists tool,
        Store.findRunningTool (shownName name)
          (Store.currentToolCalls (clientAfter before s)) = Some tool /\
        Store.tool_name tool = shownName name /\
        Store.status tool = Store.running) /\
     completedCount
       (Store.currentToolCalls
          (clientAfter (before ++ [AgentLoop.ev_tool_result name result message]) s)) =
     S (completedCount (Store.currentToolCalls (clientAfter before s)))).
Proof.
  cbn zeta.
  pose proof (runTurn_reachable gateway registry max_iterations c text) as Hreach.
  destruct (tools_invariant _ _ _ _ _ _ Hreach) as [Hnames Horder].
  split; [|split; [exact Hnames|split; [exact Horder|]]].
  - unfold countEvents. rewrite <- (length_map toolNameOf), Hnames, length_map.
    reflexivity.
  - intros s before name result message after Hsplit.
    pose proof (turn_results_matched _ _ _ _ _ _ Hreach s) as Hmatched.
    rewrite Hsplit in Hmatched.
    apply allResultsMatched_app in Hmatched as [_ [Hfound _]].
    split.
    + destruct (Store.findRunningTool _ _) as [tool|] eqn:Hfind; [|contradiction].
      exists tool. split; [reflexivity|].
      apply find_running_sound in Hfind as (Hname & Hstatus & _). auto.
    + rewrite clientAfter_app, client_tool_result.
      apply completed_after_complete, Hfound.
Qed.

Lemma tool_results_follow_calls_witness :
  let s := streamOpened "朝阳首套" Store.initialState in
  let before :=
    [AgentLoop.ev_thinking "正在理解您的需求..." "conv_1";
     AgentLoop.ev_tool_call "policy_lookup" "{}" "正在调用 policy_lookup..."] in
  let result :=
    AgentLoop.ev_tool_result "policy_lookup" (SessionStore.Success "30%")
      "policy_lookup 执行完成" in
  (exists tool,
     Store.findRunningTool (shownName "policy_lookup")
       (Store.currentToolCalls (clientAfter before s)) = Some tool /\
     Store.tool_name tool = shownName "policy_lookup" /\
     Store.status tool = Store.running) /\
  completedCount (Store.currentToolCalls (clientAfter (before ++ [result]) s)) =
  S (completedCount (Store.currentToolCalls (clientAfter before s))).
Proof.
  cbn zeta.
  destruct (tool_results_follow_calls (oneToolGateway "30%") policyRegistry 15
              freshConversation "朝阳首套") as (_ & _ & _ & Hclient).
  eapply Hclient. vm_compute. reflexivity.
Defined.

(** C3. With [1 <= max_iterations], for every gateway and every registry:
    - the turn ends (Completed or Failed) within [2 * max_iterations + 3]
      transitions and makes no transition after that;
    - the iteration counter never exceeds [max_iterations], neither during
      the turn nor at its end, and the model is called at most
      [max_iterations] times;
    - a round of tools that uses up the budget (the next round trip would
      exceed it) ends the turn with IterationLimitExceeded, after the tool
      results of that round were appended to the conversation;
    - a turn that failed on the limit has its counter at [max_iterations]
      and the tool results of its last round at the end of the
      conversation. *)
Theorem iteration_limit
    (gateway : list SessionStore.Message -> AgentLoop.ModelResponse)
    (registry : gmap string (string -> SessionStore.ToolCallOutcome))
    (max_iterations : nat) (c : SessionStore.Conversation) (text : string) :
  1 <= max_iterations ->
  let t := AgentLoop.runTurn gateway registry max_iterations c text in
  AgentLoop.terminal t = true /\
  (forall n, AgentLoop.steps gateway registry max_iterations n t = t) /\
  (forall n, 2 * max_iterations + 3 <= n ->
     AgentLoop.steps gateway registry max_iterations n (AgentLoop.start c text) = t) /\
  AgentLoop.iterations t <= max_iterations /\
  (forall t',
     AgentLoop.reachable gateway registry max_iterations c text t' ->
     AgentLoop.iterations t' <= max_iterations /\
     countEvents isThinking (AgentLoop.emitted t') <= max_iterations) /\
  (forall t' requests,
     AgentLoop.reachable gateway registry max_iterations c text t' ->
     AgentLoop.phase t' = AgentLoop.ExecutingTools requests ->
     AgentLoop.iterations t' = max_iterations ->
     exists t'',
       AgentLoop.step gateway registry max_iterations t' = Some t'' /\
       AgentLoop.phase t'' = AgentLoop.PhaseFailed AgentLoop.IterationLimitExceeded /\
       SessionStore.messages (AgentLoop.conversation t'') =
       SessionStore.messages (AgentLoop.conversation t') ++
       map (fun r => AgentLoop.toolResultMessage r (AgentLoop.invoke registry r)) requests) /\
  (AgentLoop.phase t = AgentLoop.PhaseFailed AgentLoop.IterationLimitExceeded ->
   AgentLoop.iterations t = max_iterations /\
   exists earlier requests,
     requests <> [] /\
     SessionStore.messages (AgentLoop.conversation t) =
     earlier ++
     map (fun r => AgentLoop.toolResultMessage r (AgentLoop.invoke registry r)) requests).
Proof.
  intros Hmax. cbn zeta.
  pose proof (turn_terminates gateway registry max_iterations c text) as Hend.
  pose proof (runTurn_reachable gateway registry max_iterations c text) as Hreach.
  assert (Hbound : forall t',
            AgentLoop.reachable gateway registry max_iterations c text t' ->
            AgentLoop.iterations t' <= max_iterations /\
            countEvents isThinking (AgentLoop.emitted t') <= max_iterations).
  { intros t' Hreach'.
    pose proof (iterations_invariant _ _ _ _ _ _ Hmax Hreach') as Hinv.
    pose proof (thinking_invariant _ _ _ _ _ _ Hreach') as Hthink.
    rewrite Hthink. unfold iterationsBounded in Hinv.
    destruct (AgentLoop.phase t') as [?| |?|?| |[|?]]; lia. }
  split; [exact Hend|].
  split; [intros n; apply steps_after_end, Hend|].
  split.
  { intros n Hn. replace n with (2 * max_iterations + 3 + (n - (2 * max_iterations + 3)))
      by lia.
    rewrite steps_add. apply steps_after_end, Hend. }
  split; [apply Hbound, Hreach|].
  split; [exact Hbound|].
  split.
  - intros t' requests _ Hphase Hiter. unfold AgentLoop.step. rewrite Hphase, Hiter.
    rewrite Nat.leb_refl. eexists. split; [reflexivity|]. split; reflexivity.
  - intros Hphase.
    pose proof (iterations_invariant _ _ _ _ _ _ Hmax Hreach) as Hinv.
    unfold iterationsBounded in Hinv. rewrite Hphase in Hinv. exact Hinv.
Qed.

Lemma iteration_limit_witness :
  let t := AgentLoop.runTurn greedyGateway policyRegistry 1 freshConversation "朝阳首套" in
  AgentLoop.terminal t = true /\
  AgentLoop.iterations t <= 1 /\
  AgentLoop.phase t = AgentLoop.PhaseFailed AgentLoop.IterationLimitExceeded /\
  countEvents isThinking (AgentLoop.emitted t) <= 1.
Proof.
  assert (Hmax : 1 <= 1) by lia.
  destruct (iteration_limit greedyGateway policyRegistry 1 freshConversation "朝阳首套" Hmax)
    as (Hend & _ & _ & Hiter & Hall & _ & _).
  cbn zeta. split; [exact Hend|]. split; [exact Hiter|].
  split; [vm_compute; reflexivity|].
  apply Hall. apply runTurn_reachable.
Defined.

Lemma event_error (eventType : string) (data : HousingAPI.EventData) (s : Store.State) :
  Store.error (Store.handleStreamEvent eventType data s).1 =
  if String.eqb eventType "error" then Some "流式响应错误" else Store.error s.
Proof.
  destruct (String.eqb_spec eventType "error") as [->|Hne]; [reflexivity|].
  destruct (isDoneEvent (eventType, data)) eqn:Hdone.
  - rewrite done_event_handled, handleDone_effect by exact Hdone. cbn zeta.
    destruct (Store.fullMessage data s) as [text|];
      destruct (JS.truthy (HousingAPI.data_conversation_id data));
      try destruct (hasMarker text); reflexivity.
  - unfold isDoneEvent in Hdone. cbn [fst] in Hdone.
    event_cases eventType; try reflexivity; try discriminate.
    match goal with
    | H : String.eqb eventType "error" = true |- _ =>
      apply String.eqb_eq in H; contradiction
    end.
Qed.

Lemma deliver_error (calls : list (string * HousingAPI.EventData)) (s : Store.State) :
  Store.error (deliver Store.handleStreamEvent calls s) =
  if existsb isErrorEvent calls then Some "流式响应错误" else Store.error s.
Proof.
  revert s. induction calls as [|[eventType data] rest IH]; intros s; [reflexivity|].
  rewrite deliver_cons, IH. cbn [fst snd existsb]. unfold isErrorEvent at 2.
  cbn [fst]. rewrite event_error.
  destruct (existsb isErrorEvent rest), (String.eqb eventType "error"); reflexivity.
Qed.





(** *** The store over the events of a turn *)

Lemma encode_done_iff (e : AgentLoop.Event) :
  isDoneEvent (AgentLoop.encode e) =
  match e with AgentLoop.ev_done _ _ _ => true | _ => false end.
Proof. destruct e; reflexivity. Qed.

(** Before the terminal event the store only accumulates the chunks. *)
Lemma client_accumulates_chunks (events : list AgentLoop.Event) (s : Store.State) :
  quiet events = true ->
  Store.streamingMessage (clientAfter events s) =
    Store.streamingMessage s +:+ concatChunks events /\
  Store.conversationHistory (clientAfter events s) = Store.conversationHistory s.
Proof.
  revert s. induction events as [|e rest IH]; intros s Hquiet.
  - cbn. rewrite string_app_empty_r. split; reflexivity.
  - cbn [quiet forallb] in Hquiet. apply andb_prop in Hquiet as [He Hrest].
    rewrite clientAfter_cons.
    destruct (IH (clientAfter [e] s) Hrest) as [-> ->].
    destruct e; try discriminate He; try (split; reflexivity).
    unfold concatChunks. rewrite omap_cons. cbn [chunkContent].
    rewrite concat_cons, <- string_app_assoc. split; [|reflexivity].
    f_equal. cbn. destruct content; reflexivity.
Qed.

(** A done event met with a non-empty accumulated text records it and
    clears the streaming fields. *)
Lemma done_with_text (status conversation_id : string) (iterations : nat)
    (s : Store.State) :
  Store.streamingMessage s <> "" ->
  let s' := clientAfter [AgentLoop.ev_done status iterations conversation_id] s in
  Store.conversationHistory s' =
    Store.conversationHistory s ++ [assistantEntry (Some (Store.streamingMessage s))] /\
  Store.streamingMessage s' = "" /\
  Store.streamingProgress s' = "" /\
  Store.currentToolCalls s' = [].
Proof.
  intros Htext. cbn zeta. unfold clientAfter.
  cbn [map AgentLoop.encode deliver fold_left fst snd].
  rewrite (done_event_handled "done") by reflexivity.
  rewrite handleDone_effect. cbn zeta.
  assert (Hfull : forall data,
            HousingAPI.data_response data = None -> HousingAPI.data_message data = None ->
            Store.fullMessage data s = Some (Store.streamingMessage s)).
  { intros data H1 H2. unfold Store.fullMessage. rewrite H1, H2.
    assert (Htruthy : JS.truthy (Some (Store.streamingMessage s)) = true).
    { cbn [JS.truthy]. destruct (String.eqb_spec (Store.streamingMessage s) "");
        [contradiction|reflexivity]. }
    unfold JS.or. rewrite Htruthy, Htruthy. reflexivity. }
  rewrite Hfull by reflexivity.
  cbn [HousingAPI.data_conversation_id].
  destruct (JS.truthy (Some conversation_id)), (hasMarker (Store.streamingMessage s));
    repeat split; reflexivity.
Qed.

(** The trace of a turn that ended: a body without done and error, then one
    terminal event. *)
Lemma turn_ends_with_terminal_event gateway registry max_iterations
    (c : SessionStore.Conversation) (text : string) :
  exists body last,
    AgentLoop.emitted (AgentLoop.runTurn gateway registry max_iterations c text) =
      body ++ [last] /\
    quiet body = true /\ isTerminalEvent last = true.
Proof.
  pose proof (turn_terminates gateway registry max_iterations c text) as Hend.
  pose proof (traceEnd_invariant _ _ _ _ _ _
                (runTurn_reachable gateway registry max_iterations c text)) as Hshape.
  unfold traceEnd in Hshape. unfold AgentLoop.terminal in Hend.
  destruct (AgentLoop.phase _) as [?| |?|?| |[|?]]; try discriminate Hend;
    destruct Hshape as (body & -> & Hquiet); eauto.
Qed.

(** In every turn, a [response_end] carries the concatenation of the
    chunks; a completed turn has exactly one. *)
Lemma full_response_is_concatenation gateway registry max_iterations
    (c : SessionStore.Conversation) (text : string) :
  let t := AgentLoop.runTurn gateway registry max_iterations c text in
  (forall full, In full (omap fullResponse (AgentLoop.emitted t)) ->
                full = concatChunks (AgentLoop.emitted t)) /\
  (AgentLoop.phase t = AgentLoop.PhaseCompleted ->
   omap fullResponse (AgentLoop.emitted t) = [concatChunks (AgentLoop.emitted t)]).
Proof.
  cbn zeta.
  pose proof (traceText_invariant _ _ _ _ _ _
                (runTurn_reachable gateway registry max_iterations c text)) as Htext.
  unfold traceText in Htext.
  destruct (AgentLoop.phase _) as [?| |?|?| |?]; destruct Htext as [H1 H2];
    (split; [intros full Hin|intros Hphase; try discriminate Hphase]);
    try (rewrite H2 in Hin; contradiction).
  - rewrite H1 in Hin. destruct Hin as [<-|[]]. reflexivity.
  - exact H1.
Qed.

(** When a completed turn has a non-empty answer, the store records exactly
    the concatenation of the chunks and clears the streaming fields. *)
Lemma client_records_answer gateway registry max_iterations
    (c : SessionStore.Conversation) (text : string) (s : Store.State) :
  let t := AgentLoop.runTurn gateway registry max_iterations c text in
  AgentLoop.phase t = AgentLoop.PhaseCompleted ->
  Store.streamingMessage s = "" ->
  concatChunks (AgentLoop.emitted t) <> "" ->
  Store.conversationHistory (clientAfter (AgentLoop.emitted t) s) =
    Store.conversationHistory s ++
    [assistantEntry (Some (concatChunks (AgentLoop.emitted t)))] /\
  Store.streamingMessage (clientAfter (AgentLoop.emitted t) s) = "" /\
  Store.streamingProgress (clientAfter (AgentLoop.emitted t) s) = "" /\
  Store.currentToolCalls (clientAfter (AgentLoop.emitted t) s) = [].
Proof.
  cbn zeta. intros Hphase Hstart Htext.
  pose proof (traceEnd_invariant _ _ _ _ _ _
                (runTurn_reachable gateway registry max_iterations c text)) as Hshape.
  unfold traceEnd in Hshape. rewrite Hphase in Hshape.
  destruct Hshape as (body & Hbody & Hquiet).
  rewrite Hbody in Htext |- *.
  rewrite concatChunks_app in Htext |- *.
  change (concatChunks [AgentLoop.ev_done _ _ _]) with "" in Htext |- *.
  rewrite string_app_empty_r in Htext |- *.
  rewrite clientAfter_app.
  destruct (client_accumulates_chunks body s Hquiet) as [Hacc Hhist].
  rewrite Hstart in Hacc. change ("" +:+ concatChunks body) with (concatChunks body) in Hacc.
  destruct (done_with_text "success"
              (SessionStore.identifier c)
              (AgentLoop.iterations (AgentLoop.runTurn gateway registry max_iterations c text))
              (clientAfter body s)) as (H1 & H2 & H3 & H4).
  { rewrite Hacc. exact Htext. }
  rewrite H1, H2, H3, H4, Hacc, Hhist. repeat split; reflexivity.
Qed.

(** C1, at the input where the code departs from it. The model answers
    with the empty text, which the specification counts as a normal
    completion. The server's events are in order and the chunks concatenate
    to the [full_response], both [""]. At done the store's accumulated text
    is [''], which is falsy, the done event has neither [response] nor
    [message], so the assistant message is pushed with [undefined] content
    instead of [''], and [isReportResponse(undefined)] throws. *)
Theorem empty_answer_recorded_as_undefined :
  let t := AgentLoop.runTurn (directGateway "") policyRegistry 15 freshConversation "你好" in
  let opened := streamOpened "你好" Store.initialState in
  AgentLoop.phase t = AgentLoop.PhaseCompleted /\
  map (fun e => (AgentLoop.encode e).1) (AgentLoop.emitted t) =
    ["thinking"; "response_start"; "response_chunk"; "response_end"; "done"] /\
  concatChunks (AgentLoop.emitted t) = "" /\
  omap fullResponse (AgentLoop.emitted t) = [""] /\
  Store.conversationHistory (clientAfter (AgentLoop.emitted t) opened) =
    [userEntry "你好"; assistantEntry None] /\
  (Store.handleStreamEvent "done"
     (AgentLoop.encode (AgentLoop.ev_done "success" 1 "conv_1")).2
     (clientAfter (removelast (AgentLoop.emitted t)) opened)).2 =
    JS.Threw JS.TypeError_includes.
Proof. vm_compute. repeat split; reflexivity. Qed.

(** C4, at the inputs where the code departs from it. In both turns the
    trace ends with done and nothing follows it. In the first (scenario D
    of the specification: the iteration limit is hit after one tool round)
    and in the second (one tool round, then an empty answer) the store
    reaches done with an empty accumulated text: it pushes an assistant
    message with [undefined] content, [isReportResponse] throws on it, and
    the three assignments that clear the streaming state are never
    reached, so the tool call stays in [currentToolCalls] and, in the first
    turn, the progress text stays too. *)
Theorem done_without_text_keeps_streaming_state :
  let limited :=
    AgentLoop.runTurn greedyGateway policyRegistry 1 freshConversation "朝阳首套" in
  let silent :=
    AgentLoop.runTurn (oneToolGateway "") policyRegistry 15 freshConversation "朝阳首套" in
  let opened := streamOpened "朝阳首套" Store.initialState in
  let lookup :=
    {| Store.tool_name := "policy_lookup"; Store.status := Store.completed;
       Store.message := "policy_lookup 执行完成" |} in
  map (fun e => (AgentLoop.encode e).1) (AgentLoop.emitted limited) =
    ["thinking"; "tool_call"; "tool_result"; "done"] /\
  Store.currentToolCalls (clientAfter (AgentLoop.emitted limited) opened) = [lookup] /\
  Store.streamingProgress (clientAfter (AgentLoop.emitted limited) opened) =
    "policy_lookup 执行完成" /\
  Store.conversationHistory (clientAfter (AgentLoop.emitted limited) opened) =
    [userEntry "朝阳首套"; assistantEntry None] /\
  (Store.handleStreamEvent "done"
     (AgentLoop.encode (AgentLoop.ev_done "error" 1 "conv_1")).2
     (clientAfter (removelast (AgentLoop.emitted limited)) opened)).2 =
    JS.Threw JS.TypeError_includes /\
  map (fun e => (AgentLoop.encode e).1) (AgentLoop.emitted silent) =
    ["thinking"; "tool_call"; "tool_result"; "thinking"; "response_start";
     "response_chunk"; "response_end"; "done"] /\
  Store.currentToolCalls (clientAfter (AgentLoop.emitted silent) opened) = [lookup] /\
  Store.conversationHistory (clientAfter (AgentLoop.emitted silent) opened) =
    [userEntry "朝阳首套"; assistantEntry None].
Proof. vm_compute. repeat split; reflexivity. Qed.

(* ===================================================================== *)
(** ** Sessions                                                           *)
(* ===================================================================== *)

(** C5. Reset.
    - In the session store, [reset] with an id removes that conversation
      and leaves every other one as it was; [reset] without id removes all;
      resetting twice is resetting once.
    - The next [getOrCreate] of a reset id gives a new conversation with
      that id, iteration counter 0 and no message.
    - [HousingAPI.resetSession] sends the id with the reset request and
      [HousingAPI.resetAllSessions] sends none, so the router resets that
      one conversation, respectively all of them.
    - When the request succeeds, [resetCurrentSession] and
      [resetAllSessions] of the store leave it with no conversation id, an
      empty history and the input step (and, for the latter, no listed
      session). *)
Theorem reset_semantics :
  (forall (store : gmap string SessionStore.Conversation) id other,
     other <> id -> SessionStore.reset (Some id) store !! other = store !! other) /\
  (forall (store : gmap string SessionStore.Conversation) id,
     SessionStore.reset (Some id) store !! id = None) /\
  (forall (store : gmap string SessionStore.Conversation) id,
     SessionStore.reset None store !! id = None) /\
  (forall (store : gmap string SessionStore.Conversation) id,
     SessionStore.reset id (SessionStore.reset id store) = SessionStore.reset id store) /\
  (forall fresh_id now (store : gmap string SessionStore.Conversation) id,
     let again :=
       SessionStore.getOrCreate fresh_id now (Some id)
         (SessionStore.reset (Some id) store) in
     again.2.2 = id /\
     SessionStore.identifier again.2.1 = id /\
     SessionStore.iteration_counter again.2.1 = 0 /\
     SessionStore.messages again.2.1 = [] /\
     again.1 !! id = Some again.2.1) /\
  (forall fresh_id now (store : gmap string SessionStore.Conversation) id,
     let again :=
       SessionStore.getOrCreate fresh_id now (Some id) (SessionStore.reset None store) in
     SessionStore.iteration_counter again.2.1 = 0 /\
     SessionStore.messages again.2.1 = []) /\
  (forall net id (store : gmap string SessionStore.Conversation),
     HousingAPI.resetSession net id = HousingAPI.post_reset net (Some id) /\
     handleReset (Some id) store = SessionStore.reset (Some id) store) /\
  (forall net (store : gmap string SessionStore.Conversation),
     HousingAPI.resetAllSessions net = HousingAPI.post_reset net None /\
     handleReset None store = ∅) /\
  (forall net s id,
     Store.conversationId s = Some id -> id <> "" ->
     HousingAPI.post_reset net (Some id) = HousingAPI.Resolved tt ->
     let after := Store.resetCurrentSession net s in
     after.2 = Some true /\
     Store.conversationId after.1 = None /\
     Store.conversationHistory after.1 = [] /\
     Store.currentStep after.1 = Store.StepInput) /\
  (forall net s,
     HousingAPI.post_reset net None = HousingAPI.Resolved tt ->
     let after := Store.resetAllSessions net s in
     after.2 = true /\
     Store.conversationId after.1 = None /\
     Store.conversationHistory after.1 = [] /\
     Store.currentStep after.1 = Store.StepInput /\
     Store.sessions after.1 = []).
Proof.
  repeat apply conj.
  - intros store id other Hne. unfold SessionStore.reset. apply lookup_delete_ne. congruence.
  - intros store id. unfold SessionStore.reset. apply lookup_delete_eq.
  - intros store id. unfold SessionStore.reset. apply lookup_empty.
  - intros store [id|]; unfold SessionStore.reset; [|reflexivity].
    apply map_eq. intros k. destruct (decide (id = k)) as [->|Hne].
    + rewrite !lookup_delete_eq. reflexivity.
    + rewrite !lookup_delete_ne by exact Hne. reflexivity.
  - intros fresh_id now store id. cbn zeta.
    unfold SessionStore.getOrCreate, SessionStore.reset. cbn [default].
    rewrite lookup_delete_eq. cbn [fst snd]. rewrite lookup_insert_eq.
    repeat split; reflexivity.
  - intros fresh_id now store id. cbn zeta.
    unfold SessionStore.getOrCreate, SessionStore.reset. cbn [default].
    rewrite lookup_empty. split; reflexivity.
  - intros net id store. split; reflexivity.
  - intros net store. split; reflexivity.
  - intros net s id Hid Hne Hok. cbn zeta.
    unfold Store.resetCurrentSession, HousingAPI.resetSession. rewrite Hid.
    destruct (String.eqb_spec id ""); [contradiction|]. rewrite Hok.
    repeat split; reflexivity.
  - intros net s Hok. cbn zeta.
    unfold Store.resetAllSessions, HousingAPI.resetAllSessions. rewrite Hok.
    repeat split; reflexivity.
Qed.

Lemma reset_semantics_witness :
  let store : gmap string SessionStore.Conversation :=
    {[ "conv_1" := AgentLoop.conversation
                     (AgentLoop.runTurn (directGateway "30%") policyRegistry 15
                        freshConversation "北京首套房首付比例？");
       "conv_2" := SessionStore.newConversation "conv_2" 7 ]} in
  SessionStore.reset (Some "conv_1") store !! "conv_2" = store !! "conv_2" /\
  (let after := Store.resetCurrentSession resettingNet chattingStore in
   after.2 = Some true /\
   Store.conversationId after.1 = None /\
   Store.conversationHistory after.1 = [] /\
   Store.currentStep after.1 = Store.StepInput) /\
  (let after := Store.resetAllSessions resettingNet chattingStore in
   after.2 = true /\
   Store.conversationId after.1 = None /\
   Store.conversationHistory after.1 = [] /\
   Store.currentStep after.1 = Store.StepInput /\
   Store.sessions after.1 = []).
Proof.
  destruct reset_semantics as (Hother & _ & _ & _ & _ & _ & _ & _ & Hone & Hall).
  cbn zeta. split; [|split].
  - apply Hother. discriminate.
  - apply (Hone resettingNet chattingStore "conv_1");
      [reflexivity | discriminate | reflexivity].
  - apply (Hall resettingNet chattingStore). reflexivity.
Defined.

Lemma result_step_only_on_report_witness :
  let writing := Store.set_streamingMessage reportText (streamOpened "方案" Store.initialState) in
  let plain := Store.set_streamingMessage "30%" (streamOpened "方案" Store.initialState) in
  (Store.currentStep (Store.handleStreamEvent "done" reportCall.2 writing).1 =
     Store.StepResult /\
   Store.reportData (Store.handleStreamEvent "done" reportCall.2 writing).1 =
     Some {| Store.report_content := reportText;
             Store.report_conversationId := Some "conv_1" |}) /\
  (Store.currentStep (Store.handleStreamEvent "done" reportCall.2 plain).1 =
     Store.currentStep plain /\
   Store.reportData (Store.handleStreamEvent "done" reportCall.2 plain).1 =
     Store.reportData plain) /\
  (exists marker,
     In marker ["购房资金方案报告"; "总成本概览"; "月供压力分析"] /\
     JS.includes reportText marker = true).
Proof.
  destruct result_step_only_on_report as (Hreport & Hother & _ & _ & Hmarker).
  cbn zeta. split; [|split].
  - apply Hreport; vm_compute; reflexivity.
  - apply Hother. right. right. exists "30%". split; vm_compute; reflexivity.
  - apply Hmarker. vm_compute. reflexivity.
Defined.

(* ===================================================================== *)
(** ** The store: getters, the busy flags and the non-streaming send      *)
(* ===================================================================== *)

Lemma hasStatus_completed (tool : Store.ToolCall) :
  Getters.hasStatus Store.completed tool = negb (Getters.hasStatus Store.running tool).
Proof. unfold Getters.hasStatus. destruct (Store.status tool); reflexivity. Qed.

Lemma status_split (calls : list Store.ToolCall) :
  length (List.filter (Getters.hasStatus Store.running) calls) +
  length (List.filter (Getters.hasStatus Store.completed) calls) = length calls.
Proof.
  induction calls as [|tool rest IH]; [reflexivity|].
  cbn [List.filter]. rewrite hasStatus_completed.
  destruct (Getters.hasStatus Store.running tool); cbn [negb length]; lia.
Qed.

Lemma no_running_all_completed (calls : list Store.ToolCall) :
  existsb (Getters.hasStatus Store.running) calls = false <->
  List.filter (Getters.hasStatus Store.completed) calls = calls.
Proof.
  induction calls as [|tool rest IH]; [split; reflexivity|].
  cbn [existsb List.filter]. rewrite hasStatus_completed.
  destruct (Getters.hasStatus Store.running tool); cbn [orb negb].
  - split; [discriminate|]. intros H.
    assert (Hlen : length (List.filter (Getters.hasStatus Store.completed) rest) =
                   length (tool :: rest)) by (rewrite H; reflexivity).
    pose proof (status_split rest). cbn [length] in Hlen. lia.
  - rewrite IH. split; [intros ->; reflexivity|]. intros H. injection H as H. exact H.
Qed.

Lemma running_exists_iff (calls : list Store.ToolCall) :
  existsb (Getters.hasStatus Store.running) calls = true <->
  List.filter (Getters.hasStatus Store.running) calls <> [].
Proof.
  induction calls as [|tool rest IH].
  - cbn. split; [discriminate | intros H; contradiction H; reflexivity].
  - cbn [existsb List.filter].
    destruct (Getters.hasStatus Store.running tool); cbn [orb]; [|exact IH].
    split; [discriminate|reflexivity].
Qed.

(** X1. The getters on [currentToolCalls]: every entry is either active
    (running) or completed, so the two filtered lists together have the
    length of the whole list; [hasActiveToolCalls] holds exactly when
    [activeToolCalls] is not empty, and fails exactly when
    [completedToolCalls] is the whole list. *)
Theorem tool_calls_split_by_status (s : Store.State) :
  length (Getters.activeToolCalls s) + length (Getters.completedToolCalls s) =
    length (Store.currentToolCalls s) /\
  (Getters.hasActiveToolCalls s = true <-> Getters.activeToolCalls s <> []) /\
  (Getters.hasActiveToolCalls s = false <->
   Getters.completedToolCalls s = Store.currentToolCalls s).
Proof.
  unfold Getters.activeToolCalls, Getters.completedToolCalls, Getters.hasActiveToolCalls.
  split; [apply status_split|].
  split; [apply running_exists_iff | apply no_running_all_completed].
Qed.

Lemma tool_calls_split_by_status_witness :
  let s := (Store.handleStreamEvent "tool_call" noData Store.initialState).1 in
  Getters.activeToolCalls s <> [].
Proof.
  cbn zeta.
  apply (tool_calls_split_by_status
           (Store.handleStreamEvent "tool_call" noData Store.initialState).1).
  vm_compute. reflexivity.
Defined.

Lemma complete_without_running (name resultMessage : string)
    (calls : list Store.ToolCall) :
  Store.findRunningTool name calls = None ->
  Store.completeRunningTool name resultMessage calls = calls.
Proof.
  unfold Store.findRunningTool.
  induction calls as [|tool rest IH]; [reflexivity|].
  cbn [List.find Store.completeRunningTool].
  destruct (Store.status tool).
  - rewrite andb_true_r. destruct (String.eqb (Store.tool_name tool) name);
      [discriminate|]. intros H. rewrite IH by exact H. reflexivity.
  - rewrite andb_false_r. intros H. rewrite IH by exact H. reflexivity.
Qed.

Lemma hasStatus_running (tool : Store.ToolCall) :
  Getters.hasStatus Store.running tool =
  match Store.status tool with Store.running => true | Store.completed => false end.
Proof. unfold Getters.hasStatus. destruct (Store.status tool); reflexivity. Qed.

Lemma complete_moves_one (name resultMessage : string)
    (calls : list Store.ToolCall) (tool : Store.ToolCall) :
  Store.findRunningTool name calls = Some tool ->
  let calls' := Store.completeRunningTool name resultMessage calls in
  S (length (List.filter (Getters.hasStatus Store.running) calls')) =
    length (List.filter (Getters.hasStatus Store.running) calls) /\
  length (List.filter (Getters.hasStatus Store.completed) calls') =
    S (length (List.filter (Getters.hasStatus Store.completed) calls)).
Proof.
  cbn zeta. unfold Store.findRunningTool.
  induction calls as [|entry rest IH]; [discriminate|].
  cbn [List.find Store.completeRunningTool].
  destruct (Store.status entry) eqn:Hstatus.
  - rewrite andb_true_r. destruct (String.eqb (Store.tool_name entry) name).
    + intros _. cbn [List.filter]. rewrite !hasStatus_completed, !hasStatus_running.
      cbn [Store.status]. rewrite Hstatus. cbn [negb length]. split; reflexivity.
    + intros H. destruct (IH H) as [IH1 IH2].
      cbn [List.filter]. rewrite !hasStatus_completed, !hasStatus_running.
      rewrite Hstatus. cbn [negb length].
      split; [f_equal; exact IH1 | exact IH2].
  - rewrite andb_false_r. intros H. destruct (IH H) as [IH1 IH2].
    cbn [List.filter]. rewrite !hasStatus_completed, !hasStatus_running.
    rewrite Hstatus. cbn [negb length].
    split; [exact IH1 | f_equal; exact IH2].
Qed.

Lemma complete_keeps_length (name resultMessage : string) (calls : list Store.ToolCall) :
  length (Store.completeRunningTool name resultMessage calls) = length calls.
Proof.
  induction calls as [|entry rest IH]; [reflexivity|].
  cbn [Store.completeRunningTool].
  destruct (Store.status entry); [destruct (String.eqb _ _)|];
    cbn [length]; congruence.
Qed.

(** X2. What the two tool events do to the tool-call getters. A tool_call
    event adds one active entry and leaves the completed ones alone. A
    tool_result event moves one entry from active to completed when a
    running entry of its tool name exists, and changes no entry otherwise
    (a result without a call, or a second result for the same call); it
    never adds or removes an entry. *)
Theorem tool_events_move_one_call (data : HousingAPI.EventData) (s : Store.State) :
  let called := (Store.handleStreamEvent "tool_call" data s).1 in
  let finished := (Store.handleStreamEvent "tool_result" data s).1 in
  let name := JS.or_str (HousingAPI.data_tool_name data) "工具" in
  (length (Getters.activeToolCalls called) = S (length (Getters.activeToolCalls s)) /\
   Getters.completedToolCalls called = Getters.completedToolCalls s /\
   Getters.hasActiveToolCalls called = true) /\
  match Store.findRunningTool name (Store.currentToolCalls s) with
  | Some _ =>
    S (length (Getters.activeToolCalls finished)) = length (Getters.activeToolCalls s) /\
    length (Getters.completedToolCalls finished) =
      S (length (Getters.completedToolCalls s))
  | None => Store.currentToolCalls finished = Store.currentToolCalls s
  end /\
  length (Store.currentToolCalls finished) = length (Store.currentToolCalls s).
Proof.
  cbn zeta.
  unfold Getters.activeToolCalls, Getters.completedToolCalls, Getters.hasActiveToolCalls.
  unfold Store.handleStreamEvent.
  cbn [String.eqb Ascii.eqb Bool.eqb orb andb fst Store.currentToolCalls
       Store.set_streamingProgress Store.set_currentToolCalls].
  split; [|split].
  - rewrite !List.filter_app, List.length_app, existsb_app.
    cbn [List.filter existsb Getters.hasStatus Store.status length].
    rewrite app_nil_r, orb_true_r. repeat split. lia.
  - destruct (Store.findRunningTool _ _) as [tool|] eqn:Hfind.
    + apply (complete_moves_one _ _ _ _ Hfind).
    + apply complete_without_running, Hfind.
  - apply complete_keeps_length.
Qed.

Lemma event_keeps_flags (eventType : string) (data : HousingAPI.EventData)
    (s : Store.State) :
  Store.loading (Store.handleStreamEvent eventType data s).1 = Store.loading s /\
  Store.isStreaming (Store.handleStreamEvent eventType data s).1 = Store.isStreaming s.
Proof.
  destruct (isDoneEvent (eventType, data)) eqn:Hdone.
  - rewrite done_event_handled, handleDone_effect by exact Hdone. cbn zeta.
    destruct (Store.fullMessage data s) as [text|];
      destruct (JS.truthy (HousingAPI.data_conversation_id data));
      try destruct (hasMarker text); split; reflexivity.
  - unfold isDoneEvent in Hdone. cbn [fst] in Hdone.
    event_cases eventType; try (split; reflexivity); try discriminate.
Qed.

Lemma deliver_keeps_flags (calls : list (string * HousingAPI.EventData))
    (s : Store.State) :
  Store.loading (deliver Store.handleStreamEvent calls s) = Store.loading s /\
  Store.isStreaming (deliver Store.handleStreamEvent calls s) = Store.isStreaming s.
Proof.
  revert s. induction calls as [|[eventType data] rest IH]; intros s;
    [split; reflexivity|].
  rewrite deliver_cons. cbn [fst snd].
  destruct (IH (Store.handleStreamEvent eventType data s).1) as [-> ->].
  apply event_keeps_flags.
Qed.

Lemma onSendFailure_flags (msg : string) (e : JS.Error) (s : Store.State) :
  Store.loading (Store.onSendFailure msg e s) = Store.loading s /\
  Store.isStreaming (Store.onSendFailure msg e s) = Store.isStreaming s.
Proof.
  unfold Store.onSendFailure, Store.popTrailingUserMessage, Store.handleError.
  destruct (JS.truthy _);
    cbn [Store.conversationHistory Store.set_error];
    destruct (List.last _ _) as [[[|] ?]|]; split; reflexivity.
Qed.

(** X3. The busy flags. After [sendMessage] of a non-blank input [loading]
    is false, however the request ended, and [isStreaming] is what it was;
    after [sendMessageStream], [isStreaming] is false and [loading] is what
    it was, whatever events were handled and however the stream ended. So a
    store that was not busy before a send is not busy after it. *)
Theorem send_actions_release_busy_flag
    (JSON_parse : string -> option HousingAPI.EventData)
    (net : HousingAPI.Transport) (input : string) (s : Store.State) :
  (JS.trim input <> "" ->
   Store.loading (Store.sendMessage net input s) = false /\
   Store.isStreaming (Store.sendMessage net input s) = Store.isStreaming s /\
   Store.isStreaming (Store.sendMessageStream JSON_parse net input s) = false /\
   Store.loading (Store.sendMessageStream JSON_parse net input s) = Store.loading s) /\
  (Getters.isBusy s = false ->
   Getters.isBusy (Store.sendMessage net input s) = false /\
   Getters.isBusy (Store.sendMessageStream JSON_parse net input s) = false).
Proof.
  assert (Hflags : JS.trim input <> "" ->
    Store.loading (Store.sendMessage net input s) = false /\
    Store.isStreaming (Store.sendMessage net input s) = Store.isStreaming s /\
    Store.isStreaming (Store.sendMessageStream JSON_parse net input s) = false /\
    Store.loading (Store.sendMessageStream JSON_parse net input s) = Store.loading s).
  { intros Hinput. split; [|split; [|split]].
    - rewrite sendMessage_effect by exact Hinput. reflexivity.
    - rewrite sendMessage_effect by exact Hinput. cbn zeta.
      cbn [Store.set_loading Store.isStreaming].
      destruct (HousingAPI.sendChatMessage _ _ _ _) as [response|e].
      + destruct (JS.or _ _) as [text|].
        * destruct (hasMarker text), (JS.truthy _); reflexivity.
        * rewrite (proj2 (onSendFailure_flags _ _ _)).
          destruct (JS.truthy _); reflexivity.
      + rewrite (proj2 (onSendFailure_flags _ _ _)). reflexivity.
    - rewrite sendMessageStream_effect by exact Hinput. reflexivity.
    - rewrite sendMessageStream_effect by exact Hinput. cbn zeta.
      cbn [Store.set_isStreaming Store.loading].
      destruct (streamCompletion _).
      + rewrite (proj1 (deliver_keeps_flags _ _)). reflexivity.
      + rewrite (proj1 (onSendFailure_flags _ _ _)),
          (proj1 (deliver_keeps_flags _ _)). reflexivity.
  }
  split; [exact Hflags|].
  unfold Getters.isBusy. intros Hidle. apply orb_false_iff in Hidle as [Hl Hs].
  destruct (String.eqb_spec (JS.trim input) "") as [Hblank|Hinput].
  - unfold Store.sendMessage, Store.sendMessageStream. rewrite Hblank.
    cbn [String.eqb]. rewrite Hl, Hs. split; reflexivity.
  - destruct (Hflags Hinput) as (-> & -> & -> & ->). rewrite Hl, Hs. split; reflexivity.
Qed.

Lemma send_actions_release_busy_flag_witness :
  Getters.isBusy (Store.sendMessage droppingNet "hello" Store.initialState) = false /\
  Getters.isBusy (Store.sendMessageStream parseExample droppingNet "hello"
                    Store.initialState) = false.
Proof.
  apply (send_actions_release_busy_flag parseExample droppingNet "hello"
           Store.initialState).
  reflexivity.
Defined.

Lemma latest_after_assistant (history : list Store.Message) (input text : string)
    (s : Store.State) :
  Store.conversationHistory s = history ++ [userEntry input; assistantEntry (Some text)] ->
  Getters.latestAssistantMessage s = text.
Proof.
  intros Hhist. unfold Getters.latestAssistantMessage. rewrite Hhist.
  rewrite List.filter_app. cbn [List.filter Getters.isAssistant userEntry assistantEntry
                                Store.role].
  rewrite map_app. cbn [map]. rewrite last_last.
  cbn [Store.content assistantEntry JS.or_str].
  destruct (String.eqb_spec text "") as [->|]; reflexivity.
Qed.

(** X4. A non-streaming send that is answered with a text: the history
    grows by the user message and the assistant's reply, which is then the
    latest assistant message; no error is shown; the conversation id is the
    one of the reply when it carries one and the previous one otherwise;
    the step is 'result' when the reply holds a report marker and 'chat'
    otherwise, and without marker [reportData] stays as it was. *)
Theorem sendMessage_records_reply (net : HousingAPI.Transport) (input : string)
    (s : Store.State) (response : HousingAPI.ChatResponse) (text : string) :
  JS.trim input <> "" ->
  HousingAPI.sendChatMessage net input (Store.conversationId s) None =
    HousingAPI.Resolved response ->
  JS.or (HousingAPI.resp_response response) (HousingAPI.resp_message response) =
    Some text ->
  let final := Store.sendMessage net input s in
  Store.conversationHistory final =
    Store.conversationHistory s ++ [userEntry input; assistantEntry (Some text)] /\
  Getters.latestAssistantMessage final = text /\
  Getters.hasActiveConversation final = true /\
  Store.error final = None /\
  Store.conversationId final =
    (if JS.truthy (HousingAPI.resp_conversation_id response)
     then HousingAPI.resp_conversation_id response else Store.conversationId s) /\
  Store.currentStep final =
    (if hasMarker text then Store.StepResult else Store.StepChat) /\
  (hasMarker text = false -> Store.reportData final = Store.reportData s).
Proof.
  intros Hinput Hreq Hreply. cbn zeta.
  assert (Hhist : Store.conversationHistory (Store.sendMessage net input s) =
            Store.conversationHistory s ++ [userEntry input; assistantEntry (Some text)]).
  { rewrite sendMessage_effect by exact Hinput. cbn zeta. rewrite Hreq, Hreply.
    destruct (hasMarker text), (JS.truthy _);
      cbn [Store.conversationHistory Store.set_loading Store.set_currentStep
           Store.set_reportData Store.addMessage Store.set_conversationHistory
           Store.set_conversationId Store.set_userInput Store.set_error];
      rewrite <- app_assoc; reflexivity. }
  split; [exact Hhist|].
  split; [exact (latest_after_assistant _ input text _ Hhist)|].
  split.
  { unfold Getters.hasActiveConversation. rewrite Hhist, List.length_app.
    cbn [length]. apply Nat.ltb_lt. lia. }
  rewrite sendMessage_effect by exact Hinput. cbn zeta. rewrite Hreq, Hreply.
  destruct (hasMarker text), (JS.truthy _); repeat split; intros; try reflexivity;
    discriminate.
Qed.

Lemma sendMessage_records_reply_witness :
  let final := Store.sendMessage (answeringNet (textReply "30%")) "首付比例？"
                 Store.initialState in
  Store.conversationHistory final =
    Store.conversationHistory Store.initialState ++
      [userEntry "首付比例？"; assistantEntry (Some "30%")] /\
  Getters.latestAssistantMessage final = "30%" /\
  Getters.hasActiveConversation final = true /\
  Store.error final = None /\
  Store.conversationId final =
    (if JS.truthy (HousingAPI.resp_conversation_id (textReply "30%"))
     then HousingAPI.resp_conversation_id (textReply "30%")
     else Store.conversationId Store.initialState) /\
  Store.currentStep final =
    (if hasMarker "30%" then Store.StepResult else Store.StepChat) /\
  (hasMarker "30%" = false ->
   Store.reportData final = Store.reportData Store.initialState).
Proof.
  apply (sendMessage_records_reply (answeringNet (textReply "30%")) "首付比例？"
           Store.initialState (textReply "30%") "30%").
  - vm_compute. discriminate.
  - reflexivity.
  - reflexivity.
Defined.

(** X5. A non-streaming send whose reply has neither [response] nor
    [message] (the body of a failed turn, which comes with HTTP 200): the
    undefined reply is pushed as an assistant message, [isReportResponse]
    throws on it, and the catch block shows '发送消息失败', finds an
    assistant message last and so pops nothing, and returns to 'input'. The
    history has grown by the user message and an assistant message without
    content; the latest assistant message reads as the empty text. *)
Theorem sendMessage_reply_without_text (net : HousingAPI.Transport) (input : string)
    (s : Store.State) (response : HousingAPI.ChatResponse) :
  JS.trim input <> "" ->
  HousingAPI.sendChatMessage net input (Store.conversationId s) None =
    HousingAPI.Resolved response ->
  JS.or (HousingAPI.resp_response response) (HousingAPI.resp_message response) = None ->
  let final := Store.sendMessage net input s in
  Store.conversationHistory final =
    Store.conversationHistory s ++ [userEntry input; assistantEntry None] /\
  Getters.latestAssistantMessage final = "" /\
  Store.error final = Some "发送消息失败" /\
  Store.currentStep final = Store.StepInput /\
  Store.loading final = false /\
  Store.reportData final = Store.reportData s.
Proof.
  intros Hinput Hreq Hreply. cbn zeta.
  assert (Hfinal : Store.sendMessage net input s =
    Store.set_loading false
      (Store.set_currentStep Store.StepInput
         (Store.set_error (Some "发送消息失败")
            (Store.addMessage Store.assistant None
               (let sent :=
                  Store.set_currentStep Store.StepChat
                    (Store.addMessage Store.user (Some input)
                       (Store.set_userInput input
                          (Store.set_error None (Store.set_loading true s)))) in
                if JS.truthy (HousingAPI.resp_conversation_id response)
                then Store.set_conversationId
                       (HousingAPI.resp_conversation_id response) sent
                else sent))))).
  { rewrite sendMessage_effect by exact Hinput. cbn zeta. rewrite Hreq, Hreply.
    unfold Store.onSendFailure, Store.popTrailingUserMessage.
    cbn [Store.handleError JS.truthy JS.response_detail JS.TypeError_includes
         JS.plainError].
    cbn [Store.conversationHistory Store.set_error Store.addMessage
         Store.set_conversationHistory].
    rewrite map_app. cbn [map]. rewrite last_last. reflexivity. }
  rewrite Hfinal. cbn zeta.
  assert (Hhist : forall st,
    Store.conversationHistory
      (Store.set_loading false
         (Store.set_currentStep Store.StepInput
            (Store.set_error (Some "发送消息失败")
               (Store.addMessage Store.assistant None st)))) =
    Store.conversationHistory st ++ [assistantEntry None]) by reflexivity.
  split.
  { rewrite Hhist. destruct (JS.truthy _);
      cbn [Store.conversationHistory Store.set_currentStep Store.addMessage
           Store.set_conversationHistory Store.set_conversationId Store.set_userInput
           Store.set_error Store.set_loading];
      rewrite <- app_assoc; reflexivity. }
  split.
  { unfold Getters.latestAssistantMessage. rewrite Hhist, List.filter_app.
    cbn [List.filter Getters.isAssistant assistantEntry Store.role].
    rewrite map_app. cbn [map]. rewrite last_last. reflexivity. }
  destruct (JS.truthy _); repeat split; reflexivity.
Qed.

Lemma sendMessage_reply_without_text_witness :
  let final := Store.sendMessage (answeringNet errorReply) "首付比例？" Store.initialState in
  Store.conversationHistory final =
    Store.conversationHistory Store.initialState ++
      [userEntry "首付比例？"; assistantEntry None] /\
  Getters.latestAssistantMessage final = "" /\
  Store.error final = Some "发送消息失败" /\
  Store.currentStep final = Store.StepInput /\
  Store.loading final = false /\
  Store.reportData final = Store.reportData Store.initialState.
Proof.
  apply (sendMessage_reply_without_text (answeringNet errorReply) "首付比例？"
           Store.initialState errorReply).
  - vm_compute. discriminate.
  - reflexivity.
  - reflexivity.
Defined.

Lemma trimStart_blank (s : string) (fuel : nat) :
  blank s = true -> String.length s <= fuel -> JS.strip JS.ws_head fuel s = "".
Proof.
  revert s. induction fuel as [|fuel IH]; intros s Hblank Hfuel.
  - destruct s; [reflexivity | cbn [String.length] in Hfuel; lia].
  - destruct s as [|c r]; [reflexivity|].
    unfold blank in Hblank. cbn [list_ascii_of_string forallb] in Hblank.
    apply andb_prop in Hblank as [Hc Hr].
    cbn [JS.strip JS.ws_head]. rewrite Hc. apply IH; [exact Hr|].
    cbn [String.length] in Hfuel. lia.
Qed.

Lemma trim_blank (s : string) : blank s = true -> JS.trim s = "".
Proof.
  intros Hblank. unfold JS.trim, JS.trimStart.
  rewrite trimStart_blank by (exact Hblank || lia). reflexivity.
Qed.

(** X6. An input made of white space only (spaces, tabs, line feeds and the
    like) is ignored by both send actions: the store is left exactly as it
    was, whatever the network would have answered. *)
Theorem blank_input_is_ignored (JSON_parse : string -> option HousingAPI.EventData)
    (net : HousingAPI.Transport) (input : string) (s : Store.State) :
  blank input = true ->
  Store.sendMessage net input s = s /\
  Store.sendMessageStream JSON_parse net input s = s.
Proof.
  intros Hblank. unfold Store.sendMessage, Store.sendMessageStream.
  rewrite (trim_blank _ Hblank). split; reflexivity.
Qed.

Lemma blank_input_is_ignored_witness :
  Store.sendMessage (answeringNet (textReply "30%")) ("  " +:+ nl) chattingStore =
    chattingStore /\
  Store.sendMessageStream parseExample (answeringNet (textReply "30%")) ("  " +:+ nl)
    chattingStore = chattingStore.
Proof.
  apply (blank_input_is_ignored parseExample (answeringNet (textReply "30%"))
           ("  " +:+ nl) chattingStore).
  reflexivity.
Defined.

(* ===================================================================== *)
(** ** Errors: what the interceptor throws and what the store shows       *)
(* ===================================================================== *)

Lemma or_str_nonempty (a : JS.value) (d : string) : d <> "" -> JS.or_str a d <> "".
Proof.
  intros Hd. unfold JS.or_str. destruct a as [text|]; [|exact Hd].
  destruct (String.eqb_spec text ""); assumption.
Qed.

Lemma responseRejected_plain (error : ApiClient.AxiosError) :
  exists m, ApiClient.responseRejected error = JS.plainError m /\ m <> "".
Proof.
  unfold ApiClient.responseRejected.
  destruct (ApiClient.response error) as [r|].
  - destruct (Nat.eqb (ApiClient.status r) 400);
      [eexists; split; [reflexivity|]; apply or_str_nonempty; discriminate|].
    destruct (Nat.eqb (ApiClient.status r) 500);
      [eexists; split; [reflexivity|]; apply or_str_nonempty; discriminate|].
    destruct (Nat.eqb (ApiClient.status r) 503);
      [eexists; split; [reflexivity|discriminate]|].
    eexists; split; [reflexivity|]. apply or_str_nonempty.
    rewrite string_app_cons. discriminate.
  - destruct (ApiClient.code error) as [c|];
      [destruct (String.eqb c "ECONNABORTED")|];
      eexists; (split; [reflexivity|discriminate]).
Qed.

Lemma onSendFailure_error (msg : string) (e : JS.Error) (s : Store.State) :
  Store.error (Store.onSendFailure msg e s) = Store.error (Store.handleError msg e s).
Proof.
  unfold Store.onSendFailure, Store.popTrailingUserMessage.
  destruct (List.last _ _) as [[[|] ?]|]; reflexivity.
Qed.

(** X7. Whatever rejection reaches the response interceptor, the error it
    throws has a non-empty message and carries no response, hence no
    detail; for status 503 the message is the fixed text, whatever the body
    said. The store therefore never appends a detail to the message of a
    failed axios call: [handleError] shows the action's own message alone,
    as do a failed [sendMessage] and a failed [resetAllSessions]. *)
Theorem api_errors_carry_no_detail (error : ApiClient.AxiosError) :
  JS.response_detail (ApiClient.responseRejected error) = None /\
  JS.err_message (ApiClient.responseRejected error) <> "" /\
  (forall r,
     ApiClient.response error = Some r -> ApiClient.status r = 503 ->
     JS.err_message (ApiClient.responseRejected error) =
       "Agent服务暂时不可用，请稍后重试或联系管理员") /\
  (forall msg s,
     Store.error (Store.handleError msg (ApiClient.responseRejected error) s) =
       Some msg) /\
  (forall net input s,
     JS.trim input <> "" ->
     HousingAPI.sendChatMessage net input (Store.conversationId s) None =
       HousingAPI.Rejected (ApiClient.responseRejected error) ->
     Store.error (Store.sendMessage net input s) = Some "发送消息失败") /\
  (forall net s,
     HousingAPI.resetAllSessions net =
       HousingAPI.Rejected (ApiClient.responseRejected error) ->
     Store.error (Store.resetAllSessions net s).1 = Some "重置所有会话失败").
Proof.
  destruct (responseRejected_plain error) as (m & Hplain & Hm).
  split; [rewrite Hplain; reflexivity|].
  split; [rewrite Hplain; exact Hm|].
  split.
  { intros r Hr Hstatus. unfold ApiClient.responseRejected.
    rewrite Hr, Hstatus. reflexivity. }
  split; [intros msg s; rewrite Hplain; reflexivity|].
  split.
  - intros net input s Hinput Hreq.
    rewrite sendMessage_effect by exact Hinput. cbn zeta. rewrite Hreq.
    cbn [Store.set_loading Store.error].
    rewrite onSendFailure_error, Hplain. reflexivity.
  - intros net s Hreq. unfold Store.resetAllSessions. rewrite Hreq, Hplain. reflexivity.
Qed.

Lemma api_errors_carry_no_detail_witness :
  JS.err_message (ApiClient.responseRejected serverFault) = "Agent 未初始化" /\
  Store.error (Store.sendMessage faultyNet "你好" chattingStore) = Some "发送消息失败" /\
  Store.error (Store.resetAllSessions faultyNet chattingStore).1 =
    Some "重置所有会话失败".
Proof.
  destruct (api_errors_carry_no_detail serverFault) as (_ & _ & _ & _ & Hsend & Hreset).
  split; [reflexivity|]. split.
  - apply Hsend; [vm_compute; discriminate | reflexivity].
  - apply Hreset. reflexivity.
Defined.

Lemma deliver_keeps_step (calls : list (string * HousingAPI.EventData))
    (s : Store.State) :
  forallb (fun call => negb (isDoneEvent call)) calls = true ->
  Store.currentStep (deliver Store.handleStreamEvent calls s) = Store.currentStep s.
Proof.
  revert s. induction calls as [|[eventType data] rest IH]; intros s H; [reflexivity|].
  cbn [forallb] in H. apply andb_prop in H as [Hhead Hrest].
  rewrite deliver_cons, IH by exact Hrest. cbn [fst snd].
  apply other_event_keeps_report, negb_true_iff, Hhead.
Qed.

(** X8. An error event is not a failed request. When the stream carries an
    error event and no done event and is then closed normally, the streamed
    send ends with the error '流式响应错误' shown, but at the 'chat' step and
    with the user message kept in the history; the catch block of
    [sendMessageStream], which would pop the message and return to 'input',
    does not run. *)
Theorem error_event_leaves_turn_open
    (JSON_parse : string -> option HousingAPI.EventData)
    (net : HousingAPI.Transport) (input : string) (s : Store.State)
    (chunks : list string) :
  JS.trim input <> "" ->
  HousingAPI.fetch_chat net
    (HousingAPI.streamRequest input (Store.conversationId s) None) =
    HousingAPI.Body chunks None ->
  forallb (fun call => negb (isDoneEvent call)) (HousingAPI.callbacks JSON_parse chunks) =
    true ->
  existsb isErrorEvent (HousingAPI.callbacks JSON_parse chunks) = true ->
  let final := Store.sendMessageStream JSON_parse net input s in
  Store.error final = Some "流式响应错误" /\
  Store.currentStep final = Store.StepChat /\
  Store.conversationHistory final = Store.conversationHistory s ++ [userEntry input] /\
  Store.isStreaming final = false.
Proof.
  intros Hinput Hfetch Hquiet Herror. cbn zeta.
  rewrite sendMessageStream_effect by exact Hinput. cbn zeta. rewrite Hfetch.
  cbn [streamCalls streamCompletion].
  cbn [Store.set_isStreaming Store.error Store.currentStep Store.conversationHistory
       Store.isStreaming].
  rewrite deliver_error, Herror, deliver_keeps_step, deliver_keeps_history
    by exact Hquiet.
  repeat split; reflexivity.
Qed.

Lemma error_event_leaves_turn_open_witness :
  let final := Store.sendMessageStream parseExample (streamingNet errorStreamText)
                 "你好" Store.initialState in
  Store.error final = Some "流式响应错误" /\
  Store.currentStep final = Store.StepChat /\
  Store.conversationHistory final =
    Store.conversationHistory Store.initialState ++ [userEntry "你好"] /\
  Store.isStreaming final = false.
Proof.
  apply (error_event_leaves_turn_open parseExample (streamingNet errorStreamText)
           "你好" Store.initialState [errorStreamText]).
  - vm_compute. discriminate.
  - reflexivity.
  - vm_compute. reflexivity.
  - vm_compute. reflexivity.
Defined.

(* ===================================================================== *)
(** ** The history and the streamed text over any sequence of events      *)
(* ===================================================================== *)

Lemma event_history_growth (eventType : string) (data : HousingAPI.EventData)
    (s : Store.State) :
  Store.conversationHistory (Store.handleStreamEvent eventType data s).1 =
  Store.conversationHistory s ++
  (if isDoneEvent (eventType, data)
   then [assistantEntry (Store.fullMessage data s)] else []).
Proof.
  destruct (isDoneEvent (eventType, data)) eqn:Hdone.
  - rewrite done_event_handled, handleDone_effect by exact Hdone. cbn zeta.
    destruct (Store.fullMessage data s) as [text|];
      destruct (JS.truthy (HousingAPI.data_conversation_id data));
      try destruct (hasMarker text); reflexivity.
  - rewrite event_keeps_history by exact Hdone. symmetry. apply app_nil_r.
Qed.

(** X9. Handling events never removes or rewrites a history entry and never
    adds a user message: after any sequence of events the history is the
    old one followed by one assistant message for each done or complete
    event handled. *)
Theorem history_grows_by_done_events (calls : list (string * HousingAPI.EventData))
    (s : Store.State) :
  exists added,
    Store.conversationHistory (deliver Store.handleStreamEvent calls s) =
      Store.conversationHistory s ++ added /\
    length added = length (List.filter isDoneEvent calls) /\
    Forall (fun msg => Store.role msg = Store.assistant) added.
Proof.
  revert s. induction calls as [|[eventType data] rest IH]; intros s.
  - exists []. split; [symmetry; apply app_nil_r|]. split; [reflexivity|constructor].
  - rewrite deliver_cons. cbn [fst snd].
    destruct (IH (Store.handleStreamEvent eventType data s).1)
      as (added & Hhist & Hlen & Hroles).
    rewrite Hhist, event_history_growth. cbn [List.filter].
    destruct (isDoneEvent (eventType, data)).
    + exists (assistantEntry (Store.fullMessage data s) :: added).
      split; [rewrite <- app_assoc; reflexivity|].
      split; [cbn [length]; congruence|].
      constructor; [reflexivity | exact Hroles].
    + exists added. rewrite app_nil_r. auto.
Qed.

Lemma event_streaming_message (eventType : string) (data : HousingAPI.EventData)
    (s : Store.State) :
  isDoneEvent (eventType, data) = false ->
  Store.streamingMessage (Store.handleStreamEvent eventType data s).1 =
  Store.streamingMessage s +:+ chunkText (eventType, data).
Proof.
  unfold isDoneEvent, chunkText. cbn [fst snd]. intros Hdone.
  event_cases eventType; try discriminate;
    try (symmetry; apply string_app_empty_r); try reflexivity.
Qed.

Lemma deliver_streaming_message (calls : list (string * HousingAPI.EventData))
    (s : Store.State) :
  forallb (fun call => negb (isDoneEvent call)) calls = true ->
  Store.streamingMessage (deliver Store.handleStreamEvent calls s) =
  Store.streamingMessage s +:+ String.concat "" (map chunkText calls).
Proof.
  revert s. induction calls as [|[eventType data] rest IH]; intros s H.
  - cbn. symmetry. apply string_app_empty_r.
  - cbn [forallb] in H. apply andb_prop in H as [Hhead Hrest].
    rewrite deliver_cons, IH by exact Hrest. cbn [fst snd map].
    rewrite event_streaming_message by (apply negb_true_iff, Hhead).
    rewrite concat_cons, string_app_assoc. reflexivity.
Qed.

(** X10. The streamed answer. While no done or complete event is handled,
    [streamingMessage] is its old value followed by the texts of the
    'message' and 'response_chunk' events in order, each being
    [data.content], else [data.message], else nothing; other events add
    nothing. When that text is not empty, the done event that follows
    records it as the assistant message and empties [streamingMessage]: the
    recorded answer does not depend on how the text was cut into chunks. *)
Theorem streamed_answer_is_chunk_concatenation
    (calls : list (string * HousingAPI.EventData)) (doneType : string)
    (data : HousingAPI.EventData) (s : Store.State) :
  forallb (fun call => negb (isDoneEvent call)) calls = true ->
  let text := Store.streamingMessage s +:+ String.concat "" (map chunkText calls) in
  Store.streamingMessage (deliver Store.handleStreamEvent calls s) = text /\
  (isDoneEvent (doneType, data) = true -> text <> "" ->
   let final := deliver Store.handleStreamEvent (calls ++ [(doneType, data)]) s in
   Store.conversationHistory final =
     Store.conversationHistory s ++ [assistantEntry (Some text)] /\
   Store.streamingMessage final = "").
Proof.
  intros Hquiet. cbn zeta.
  split; [apply deliver_streaming_message, Hquiet|].
  intros Hdone Htext.
  rewrite deliver_app. cbn [deliver fold_left fst snd].
  rewrite done_event_handled, handleDone_effect by exact Hdone. cbn zeta.
  set (before := deliver Store.handleStreamEvent calls s).
  assert (Hfull : Store.fullMessage data before =
            Some (Store.streamingMessage s +:+ String.concat "" (map chunkText calls))).
  { unfold Store.fullMessage, before.
    rewrite deliver_streaming_message by exact Hquiet.
    unfold JS.or at 2. cbn [JS.truthy].
    destruct (String.eqb_spec
                (Store.streamingMessage s +:+ String.concat "" (map chunkText calls)) "");
      [contradiction|].
    cbn [negb]. unfold JS.or. cbn [JS.truthy].
    destruct (String.eqb_spec
                (Store.streamingMessage s +:+ String.concat "" (map chunkText calls)) "");
      [contradiction|reflexivity]. }
  rewrite Hfull.
  assert (Hhist : Store.conversationHistory before = Store.conversationHistory s).
  { apply deliver_keeps_history, Hquiet. }
  destruct (hasMarker _), (JS.truthy (HousingAPI.data_conversation_id data));
    cbn [fst Store.conversationHistory Store.streamingMessage Store.set_currentToolCalls
         Store.set_streamingProgress Store.set_streamingMessage Store.set_currentStep
         Store.set_reportData Store.addMessage Store.set_conversationHistory
         Store.set_conversationId];
    rewrite Hhist; split; reflexivity.
Qed.

Lemma streamed_answer_is_chunk_concatenation_witness :
  let calls := [("thinking", messageData "正在分析"); ("response_chunk", contentData "首付");
                ("message", messageData " 30%")] in
  Store.streamingMessage (deliver Store.handleStreamEvent calls Store.initialState) =
    "首付 30%" /\
  Store.conversationHistory
    (deliver Store.handleStreamEvent (calls ++ [("done", noData)]) Store.initialState) =
    [assistantEntry (Some "首付 30%")].
Proof.
  cbn zeta.
  destruct (streamed_answer_is_chunk_concatenation
              [("thinking", messageData "正在分析"); ("response_chunk", contentData "首付");
               ("message", messageData " 30%")]
              "done" noData Store.initialState) as [Htext Hdone]; [reflexivity|].
  split; [exact Htext|].
  apply Hdone; [reflexivity | vm_compute; discriminate].
Defined.

(* ===================================================================== *)
(** ** The stream parser: the end of the stream                           *)
(* ===================================================================== *)

Lemma callbacks_whole (JSON_parse : string -> option HousingAPI.EventData)
    (chunks : list string) :
  HousingAPI.callbacks JSON_parse chunks =
  (HousingAPI.processLines JSON_parse HousingAPI.record_call
     (completeLines (String.concat "" chunks)) (None, [])).2.
Proof.
  unfold HousingAPI.callbacks. rewrite readAll_concat by reflexivity. reflexivity.
Qed.

(** Two texts without line feed make a text without line feed. *)
Lemma split_whole_app (a b : string) :
  JS.split_newline a = [a] -> JS.split_newline b = [b] ->
  JS.split_newline (a +:+ b) = [a +:+ b].
Proof.
  intros Ha Hb. induction a as [|c r IH]; [exact Hb|].
  rewrite string_app_cons. cbn [JS.split_newline] in *.
  destruct (Ascii.eqb c JS.newline); [discriminate Ha|].
  pose proof (split_newline_nonempty r) as Hne.
  destruct (JS.split_newline r) as [|l ls]; [congruence|].
  injection Ha as Hl Hls. subst l ls.
  rewrite IH by reflexivity. reflexivity.
Qed.

(** X11. Text received after the last line feed is never handed to the
    callback: a final chunk without line feed adds no call. In particular
    an event whose data line is not ended by a line feed when the stream
    closes is lost, for the loop leaves with that line still in the
    buffer. *)
Theorem unfinished_line_is_not_delivered
    (JSON_parse : string -> option HousingAPI.EventData)
    (chunks : list string) (tail : string) :
  JS.split_newline tail = [tail] ->
  HousingAPI.callbacks JSON_parse (chunks ++ [tail]) =
  HousingAPI.callbacks JSON_parse chunks.
Proof.
  intros Htail. rewrite !callbacks_whole, concat_app.
  cbn [String.concat]. rewrite completeLines_app.
  assert (Hnone : completeLines (pendingLine (String.concat "" chunks) +:+ tail) = []).
  { unfold completeLines.
    rewrite split_whole_app by (apply pendingLine_whole || exact Htail). reflexivity. }
  rewrite Hnone, app_nil_r. reflexivity.
Qed.

Lemma unfinished_line_is_not_delivered_witness :
  HousingAPI.callbacks parseExample
    (["event: response_chunk" +:+ nl +:+ "data: " +:+ jsonField "content" "30%" +:+ nl +:+ nl;
      "event: done" +:+ nl] ++
     ["data: " +:+ jsonField "conversation_id" "conv_1"]) =
  HousingAPI.callbacks parseExample
    ["event: response_chunk" +:+ nl +:+ "data: " +:+ jsonField "content" "30%" +:+ nl +:+ nl;
     "event: done" +:+ nl].
Proof.
  apply (unfinished_line_is_not_delivered parseExample). reflexivity.
Defined.

(* ===================================================================== *)
(** ** Extracting and validating form fields                              *)
(* ===================================================================== *)

Lemma find_first {A} (p : A -> bool) (l : list A) (x : A) :
  List.find p l = Some x ->
  exists earlier later,
    l = earlier ++ x :: later /\ p x = true /\ forall y, In y earlier -> p y = false.
Proof.
  induction l as [|a l IH]; [discriminate|].
  cbn [List.find]. destruct (p a) eqn:Hp.
  - intros H. injection H as ->. exists [], l. split; [reflexivity|].
    split; [exact Hp|]. intros y [].
  - intros H. destruct (IH H) as (earlier & later & -> & Hx & Hearlier).
    exists (a :: earlier), later. split; [reflexivity|]. split; [exact Hx|].
    intros y [<-|Hy]; [exact Hp | apply Hearlier, Hy].
Qed.

Lemma locations_named (l : string) :
  In l ApiClient.locations -> l <> "" /\ l <> "北京".
Proof.
  unfold ApiClient.locations. cbn [In]. intros H.
  repeat (destruct H as [<-|H]; [split; discriminate|]). contradiction.
Qed.

(** X12. The location that [extractLocation] returns: the first district
    of its list, in list order, that occurs in the input; failing that
    '北京' when the input holds it; failing that the empty text. So the
    result is empty or occurs in the input, a district is returned whenever
    one occurs, and the result is empty only when neither a district nor
    '北京' occurs. *)
Theorem extractLocation_sound (input : string) :
  let location := ApiClient.extractLocation input in
  (location = "" \/ location = "北京" \/ In location ApiClient.locations) /\
  (location <> "" -> JS.includes input location = true) /\
  (In location ApiClient.locations ->
   exists earlier later,
     ApiClient.locations = earlier ++ location :: later /\
     forall l, In l earlier -> JS.includes input l = false) /\
  (forall l, In l ApiClient.locations -> JS.includes input l = true ->
   In location ApiClient.locations) /\
  (location = "北京" -> forall l, In l ApiClient.locations -> JS.includes input l = false) /\
  (location = "" ->
   JS.includes input "北京" = false /\
   forall l, In l ApiClient.locations -> JS.includes input l = false).
Proof.
  cbn zeta. unfold ApiClient.extractLocation.
  destruct (List.find _ ApiClient.locations) as [found|] eqn:Hfind.
  - pose proof (find_some _ _ Hfind) as [Hin Hinc].
    destruct (locations_named _ Hin) as [Hne Hnb].
    destruct (find_first _ _ _ Hfind) as (earlier & later & Hsplit & _ & Hearlier).
    split; [right; right; exact Hin|].
    split; [intros _; exact Hinc|].
    split; [intros _; exists earlier, later; split; assumption|].
    split; [intros; exact Hin|].
    split; intros; contradiction.
  - pose proof (find_none _ _ Hfind) as Hnone.
    destruct (JS.includes input "北京") eqn:Hbj.
    + split; [right; left; reflexivity|].
      split; [intros _; exact Hbj|].
      split; [intros Hin; destruct (locations_named _ Hin); contradiction|].
      split; [intros l Hl Hinc; rewrite (Hnone l Hl) in Hinc; discriminate|].
      split; [intros _; exact Hnone | discriminate].
    + split; [left; reflexivity|].
      split; [intros H; contradiction|].
      split; [intros Hin; destruct (locations_named _ Hin); contradiction|].
      split; [intros l Hl Hinc; rewrite (Hnone l Hl) in Hinc; discriminate|].
      split; [discriminate|]. intros _. split; [reflexivity | exact Hnone].
Qed.

Lemma extractLocation_sound_witness :
  JS.includes "想在海淀或朝阳买房" (ApiClient.extractLocation "想在海淀或朝阳买房") = true /\
  In (ApiClient.extractLocation "想在海淀或朝阳买房") ApiClient.locations.
Proof.
  destruct (extractLocation_sound "想在海淀或朝阳买房") as (_ & Hocc & _ & Hany & _).
  split.
  - apply Hocc. vm_compute. discriminate.
  - apply (Hany "海淀"); vm_compute; [right; left|]; reflexivity.
Defined.

Lemma extractLocation_range (input : string) :
  In (ApiClient.extractLocation input) ("" :: "北京" :: ApiClient.locations).
Proof.
  unfold ApiClient.extractLocation.
  destruct (List.find _ ApiClient.locations) as [found|] eqn:Hfind.
  - right. right. apply (find_some _ _ Hfind).
  - destruct (JS.includes input "北京"); [right; left | left]; reflexivity.
Qed.

(** X13. What the extractors of the API module return, seen by the
    validators of the form: the extracted location is accepted by
    [validateLocation] exactly when it is one of the sixteen districts
    ('北京' and the empty text, the two fallbacks, are rejected); every
    district name is also accepted with '区' appended; and the extracted
    purpose is always accepted by [validatePurpose]. *)
Theorem extracted_fields_validate (input : string) :
  (Validation.valid (Validation.validateLocation (Some (ApiClient.extractLocation input))) =
     true <->
   In (ApiClient.extractLocation input) ApiClient.locations) /\
  (forall location, In location ApiClient.locations ->
   Validation.valid (Validation.validateLocation (Some (location +:+ "区"))) = true) /\
  Validation.valid (Validation.validatePurpose (Some (ApiClient.extractPurpose input))) =
    true.
Proof.
  split; [|split].
  - pose proof (extractLocation_range input) as Hrange.
    unfold ApiClient.locations in *. cbn [In] in *.
    repeat (destruct Hrange as [<-|Hrange];
            [vm_compute; intuition discriminate|]).
    contradiction.
  - unfold ApiClient.locations. cbn [In]. intros location H.
    repeat (destruct H as [<-|H]; [vm_compute; reflexivity|]). contradiction.
  - unfold ApiClient.extractPurpose.
    destruct (JS.includes input "自住"); [vm_compute; reflexivity|].
    destruct (JS.includes input "投资"); [vm_compute; reflexivity|].
    destruct (JS.includes input "改善"); vm_compute; reflexivity.
Qed.

Lemma extracted_fields_validate_witness :
  Validation.valid
    (Validation.validateLocation (Some (ApiClient.extractLocation "想在海淀买房"))) = true /\
  Validation.valid (Validation.validateLocation (Some ("海淀" +:+ "区"))) = true.
Proof.
  destruct (extracted_fields_validate "想在海淀买房") as (Hloc & Hdistrict & _).
  split.
  - apply Hloc. vm_compute. right. left. reflexivity.
  - apply Hdistrict. vm_compute. right. left. reflexivity.
Defined.

(** X14. The three validators of a choice accept exactly the values of
    their lists, as they are written: a listed value with white space
    around it is rejected (unlike a location, it is not trimmed), and so
    are [null] and [undefined]. *)
Theorem choice_validators_accept_listed_values (value : string) :
  (Validation.valid (Validation.validateMaritalStatus (Some value)) = true <->
   In value ["未婚"; "已婚"; "离异"; "丧偶"]) /\
  (Validation.valid (Validation.validatePurpose (Some value)) = true <->
   In value ["自住"; "投资"; "改善居住"; "过渡居住"; "其他"]) /\
  (Validation.valid (Validation.validateLoanPreference (Some value)) = true <->
   In value ["商贷"; "公积金"; "组合贷"; "全款"]) /\
  Validation.valid (Validation.validateMaritalStatus None) = false /\
  Validation.valid (Validation.validatePurpose None) = false /\
  Validation.valid (Validation.validateLoanPreference None) = false.
Proof.
  assert (Hlisted : forall l,
            (forall v, In v l -> String.eqb (JS.trim v) "" = false) ->
            (if Validation.isEmpty (Some value) then false
             else if negb (Validation.listIncludes l value) then false else true) = true <->
            In value l).
  { intros l Hl. unfold Validation.isEmpty, Validation.listIncludes. split.
    - destruct (String.eqb (JS.trim value) ""); [discriminate|].
      destruct (existsb (String.eqb value) l) eqn:Hex; [|discriminate]. intros _.
      apply existsb_exists in Hex as (v & Hin & Heq).
      apply String.eqb_eq in Heq. subst v. exact Hin.
    - intros Hin. rewrite (Hl value Hin).
      assert (Hex : existsb (String.eqb value) l = true).
      { apply existsb_exists. exists value. split; [exact Hin | apply String.eqb_refl]. }
      rewrite Hex. reflexivity. }
  unfold Validation.validateMaritalStatus, Validation.validatePurpose,
    Validation.validateLoanPreference.
  cbn [default from_option id].
  assert (Hshape : forall (b c : bool) m1 m2,
            Validation.valid
              (if b then Validation.rejected m1
               else if c then Validation.rejected m2 else Validation.accepted) =
            (if b then false else if c then false else true)).
  { intros [] [] m1 m2; reflexivity. }
  rewrite !Hshape.
  split; [|split; [|split; [|repeat split]]]; apply Hlisted; cbn [In]; intros v H;
    repeat (destruct H as [<-|H]; [vm_compute; reflexivity|]); contradiction.
Qed.

Lemma choice_validators_accept_listed_values_witness :
  Validation.valid (Validation.validateLoanPreference (Some "组合贷")) = true.
Proof.
  apply (choice_validators_accept_listed_values "组合贷"). cbn. tauto.
Defined.

Lemma string_length_app (a b : string) :
  String.length (a +:+ b) = String.length a + String.length b.
Proof.
  induction a as [|c a IH]; [reflexivity|].
  rewrite string_app_cons. cbn [String.length]. rewrite IH. reflexivity.
Qed.

Lemma removeSuffix_unfold (suffix s : string) :
  Validation.removeSuffix suffix s =
  if String.eqb s suffix then ""
  else match s with
       | EmptyString => ""
       | String c r => String c (Validation.removeSuffix suffix r)
       end.
Proof. destruct s; reflexivity. Qed.

(** Removing the suffix undoes appending it. *)
Lemma removeSuffix_app (suffix t : string) :
  Validation.removeSuffix suffix (t +:+ suffix) = t.
Proof.
  induction t as [|c t IH].
  - change ("" +:+ suffix) with suffix.
    rewrite removeSuffix_unfold, String.eqb_refl. reflexivity.
  - rewrite string_app_cons, removeSuffix_unfold.
    destruct (String.eqb_spec (String c (t +:+ suffix)) suffix) as [Heq|_].
    + apply (f_equal String.length) in Heq.
      cbn [String.length] in Heq. rewrite string_length_app in Heq. lia.
    + rewrite IH. reflexivity.
Qed.

(** The text either does not end with the suffix and is left alone, or is
    what remains followed by the suffix. *)
Lemma removeSuffix_cases (suffix s : string) :
  Validation.removeSuffix suffix s = s \/
  s = Validation.removeSuffix suffix s +:+ suffix.
Proof.
  induction s as [|c s IH]; rewrite removeSuffix_unfold.
  - destruct (String.eqb_spec "" suffix) as [<-|_]; left; reflexivity.
  - destruct (String.eqb_spec (String c s) suffix) as [<-|_]; [right; reflexivity|].
    destruct IH as [IH|IH].
    + left. rewrite IH. reflexivity.
    + right. rewrite string_app_cons, <- IH. reflexivity.
Qed.

(** X15. [validateLocation] accepts a text exactly when, with the white
    space around it trimmed, it is one of the sixteen districts of the
    list, written with its '区' or without it; [null] and [undefined] are
    rejected. *)
Theorem validateLocation_accepts_districts (location : string) :
  (Validation.valid (Validation.validateLocation (Some location)) = true <->
   exists district,
     In district Validation.beijingDistricts /\
     (JS.trim location = district \/ JS.trim location +:+ "区" = district)) /\
  Validation.valid (Validation.validateLocation None) = false.
Proof.
  split; [|reflexivity]. unfold Validation.validateLocation, Validation.isEmpty.
  cbn [default from_option id]. split.
  - destruct (String.eqb (JS.trim location) ""); [discriminate|].
    destruct (Validation.listIncludes _ _) eqn:Hinc; [|discriminate]. intros _.
    unfold Validation.listIncludes in Hinc. apply existsb_exists in Hinc.
    destruct Hinc as (district & Hin & Heq). apply String.eqb_eq in Heq.
    exists district. split; [exact Hin|].
    destruct (removeSuffix_cases "区" (JS.trim location)) as [Hkeep|Hcut].
    + right. rewrite Hkeep in Heq. exact Heq.
    + left. rewrite Hcut. exact Heq.
  - intros (district & Hin & Hshape).
    assert (Htrim : JS.trim location = district \/
                    JS.trim location = Validation.removeSuffix "区" district).
    { destruct Hshape as [H|H]; [left; exact H|]. right.
      rewrite <- H. symmetry. apply removeSuffix_app. }
    clear Hshape. unfold Validation.beijingDistricts in Hin. cbn [In] in Hin.
    repeat (destruct Hin as [<-|Hin];
            [destruct Htrim as [->| ->]; vm_compute; reflexivity|]).
    contradiction.
Qed.

Lemma validateLocation_accepts_districts_witness :
  Validation.valid (Validation.validateLocation (Some " 海淀 ")) = true.
Proof.
  apply (validateLocation_accepts_districts " 海淀 ").
  exists "海淀区". split; [vm_compute; tauto|]. right. vm_compute. reflexivity.
Defined.

(* ===================================================================== *)
(** ** Masking telephone and identity-card numbers                        *)
(* ===================================================================== *)

Lemma between_digit (lo hi : nat) (c : ascii) :
  Nat.leb 48 lo && Nat.leb hi 57 = true ->
  Validation.between lo hi c = true -> Validation.isDigit c = true.
Proof.
  unfold Validation.isDigit, Validation.between. intros Hb H.
  apply andb_prop in Hb as [H1 H2]. apply andb_prop in H as [H3 H4].
  apply Nat.leb_le in H1, H2, H3, H4.
  apply andb_true_intro. split; apply Nat.leb_le; lia.
Qed.

Lemma charIs_digit (n : nat) (c : ascii) :
  Nat.leb 48 n && Nat.leb n 57 = true ->
  Validation.charIs n c = true -> Validation.isDigit c = true.
Proof.
  unfold Validation.isDigit, Validation.between, Validation.charIs. intros Hb H.
  apply andb_prop in Hb as [H1 H2]. apply Nat.leb_le in H1, H2.
  apply Nat.eqb_eq in H. apply andb_true_intro. split; apply Nat.leb_le; lia.
Qed.

Ltac all_conjuncts :=
  repeat match goal with
         | H : _ && _ = true |- _ =>
           let H1 := fresh "Hc" in
           let H2 := fresh "Hc" in
           apply andb_prop in H as [H1 H2]
         end.

Ltac digit_fact :=
  first [ assumption
        | eapply charIs_digit; [|eassumption]; reflexivity
        | eapply between_digit; [|eassumption]; reflexivity ].

Ltac use_digits :=
  repeat match goal with
         | H : Validation.isDigit ?c = ?b |- context [Validation.isDigit ?c] =>
           rewrite H
         end.

Ltac run_format :=
  repeat (progress
            (try unfold Format.maskMiddle;
             cbn [Format.removeNonDigits Format.replaceFirst Format.digits
                  String.length Nat.eqb String.eqb Ascii.eqb];
             use_digits)).

(** X16. A telephone number that [validatePhone] accepts is shown by
    [formatPhone] with its four middle digits hidden: the first three
    characters, four stars, the last four characters. *)
Theorem valid_phone_is_masked (phone : string) :
  Validation.valid (Validation.validatePhone (Some phone)) = true ->
  Format.formatPhone phone =
  substring 0 3 phone +:+ "****" +:+ substring 7 4 phone.
Proof.
  unfold Validation.validatePhone. destruct (Validation.isEmpty _); [discriminate|].
  cbn [default from_option id].
  destruct (Validation.phoneRegex phone) eqn:Hre; [|discriminate]. intros _.
  unfold Validation.phoneRegex in Hre.
  destruct phone as [|c1 [|c2 r]]; try discriminate Hre.
  cbn [list_ascii_of_string] in Hre.
  do 9 (destruct r as [|? r];
        [cbn [list_ascii_of_string length Nat.eqb] in Hre;
         rewrite ?andb_false_r in Hre; discriminate Hre|]).
  destruct r as [|? r];
    [|cbn [list_ascii_of_string length Nat.eqb] in Hre;
      rewrite ?andb_false_r in Hre; discriminate Hre].
  cbn [list_ascii_of_string length Nat.eqb forallb] in Hre.
  all_conjuncts.
  assert (H1 : Validation.isDigit c1 = true) by digit_fact.
  assert (H2 : Validation.isDigit c2 = true) by digit_fact.
  unfold Format.formatPhone. run_format. reflexivity.
Qed.

Lemma valid_phone_is_masked_witness :
  Format.formatPhone "13812345678" = "138****5678".
Proof. apply (valid_phone_is_masked "13812345678"). reflexivity. Defined.

Lemma charIs_eq (n : nat) (c : ascii) :
  Validation.charIs n c = true -> c = ascii_of_nat n.
Proof.
  unfold Validation.charIs. intros H. apply Nat.eqb_eq in H.
  rewrite <- H. symmetry. apply ascii_nat_embedding.
Qed.

(** X17. An identity-card number that [validateIdCard] accepts is masked by
    [formatIdCard] only when its last character is a digit: the result is
    then the first six characters, eight stars and the last four
    characters. When the check character is the letter X, which the
    validator allows, the expression of [formatIdCard], which asks for
    eighteen digits, does not match, and the number is returned in full. *)
Theorem valid_id_card_masking (idCard : string) :
  Validation.valid (Validation.validateIdCard (Some idCard)) = true ->
  Format.formatIdCard idCard =
  if String.eqb (substring 17 1 idCard) "X" then idCard
  else substring 0 6 idCard +:+ "********" +:+ substring 14 4 idCard.
Proof.
  unfold Validation.validateIdCard. destruct (Validation.isEmpty _); [discriminate|].
  cbn [default from_option id].
  destruct (Validation.idCardRegex idCard) eqn:Hre; [|discriminate]. intros _.
  unfold Validation.idCardRegex in Hre.
  do 18 (destruct idCard as [|? idCard]; [discriminate Hre|]).
  destruct idCard as [|? idCard]; [|discriminate Hre].
  cbn [list_ascii_of_string forallb] in Hre.
  apply andb_prop in Hre as [Hre Hk]. apply andb_prop in Hre as [Hre Hn].
  apply andb_prop in Hre as [Hre Hd]. apply andb_prop in Hre as [Hre Hm].
  apply andb_prop in Hre as [Hre Hy']. apply andb_prop in Hre as [Hre Hy].
  apply andb_prop in Hre as [Ha1 Ha].
  assert (Hyear : Validation.isDigit a5 = true /\ Validation.isDigit a6 = true).
  { apply orb_prop in Hy as [Hy|Hy]; all_conjuncts; split; digit_fact. }
  assert (Hmonth : Validation.isDigit a9 = true /\ Validation.isDigit a10 = true).
  { apply orb_prop in Hm as [Hm|Hm]; all_conjuncts; split; digit_fact. }
  assert (Hday : Validation.isDigit a11 = true /\ Validation.isDigit a12 = true).
  { apply orb_prop in Hd as [Hd|Hd]; [apply orb_prop in Hd as [Hd|Hd]|];
      all_conjuncts; split; digit_fact. }
  destruct Hyear, Hmonth, Hday. all_conjuncts.
  assert (Hfirst : Validation.isDigit a = true) by digit_fact.
  assert (HX : Validation.isDigit "X" = false) by reflexivity.
  unfold Format.formatIdCard.
  cbn [String.eqb String.length Nat.eqb substring].
  apply orb_prop in Hk as [Hk|Hk].
  - destruct (Ascii.eqb_spec a16 "X") as [->|_]; [congruence|].
    cbn [andb]. run_format. reflexivity.
  - apply charIs_eq in Hk. change (ascii_of_nat 88) with "X"%char in Hk. subst a16.
    cbn [Ascii.eqb Bool.eqb andb].
    run_format. reflexivity.
Qed.

Lemma valid_id_card_masking_witness :
  Format.formatIdCard idWithDigit = "110105********0021" /\
  Format.formatIdCard idWithLetter = idWithLetter.
Proof.
  split.
  - apply (valid_id_card_masking idWithDigit). reflexivity.
  - apply (valid_id_card_masking idWithLetter). reflexivity.
Defined.

(* ===================================================================== *)
(** ** Masking and cutting texts                                          *)
(* ===================================================================== *)

(** X18. [formatPropertyNumber] keeps the length of the number, its first
    two and its last two characters, and shows a star at every position in
    between (numbers of up to four characters are returned as they are);
    masking a masked number changes nothing. *)
Theorem formatPropertyNumber_mask (propertyNumber : list N) :
  let shown := Format.formatPropertyNumber propertyNumber in
  let len := length propertyNumber in
  length shown = len /\
  take 2 shown = take 2 propertyNumber /\
  drop (len - 2) shown = drop (len - 2) propertyNumber /\
  (forall i, 2 <= i < len - 2 -> shown !! i = Some Format.star) /\
  Format.formatPropertyNumber shown = shown.
Proof.
  cbn zeta. unfold Format.formatPropertyNumber.
  destruct (Nat.leb_spec (length propertyNumber) 4) as [Hshort|Hlong].
  - repeat split; try reflexivity.
    + intros i Hi. lia.
    + destruct (Nat.leb_spec (length propertyNumber) 4); [reflexivity|lia].
  - set (len := length propertyNumber) in *.
    set (shown := take 2 propertyNumber ++ replicate (len - 4) Format.star ++
                  drop (len - 2) propertyNumber).
    assert (Htake : length (take 2 propertyNumber) = 2)
      by (rewrite length_take; fold len; lia).
    assert (Hlen : length shown = len).
    { unfold shown. rewrite !List.length_app, Htake, length_replicate, length_drop.
      fold len. lia. }
    assert (Hfirst : take 2 shown = take 2 propertyNumber).
    { unfold shown. apply take_app_length'. symmetry. exact Htake. }
    assert (Hlast : drop (len - 2) shown = drop (len - 2) propertyNumber).
    { unfold shown. rewrite app_assoc. apply drop_app_length'.
      rewrite List.length_app, Htake, length_replicate. lia. }
    split; [exact Hlen|]. split; [exact Hfirst|]. split; [exact Hlast|]. split.
    + intros i Hi. unfold shown.
      rewrite lookup_app_r by (rewrite Htake; lia).
      rewrite lookup_app_l by (rewrite length_replicate, Htake; lia).
      apply lookup_replicate_2. rewrite Htake. lia.
    + rewrite Hlen. destruct (Nat.leb_spec len 4); [lia|].
      rewrite Hfirst, Hlast. reflexivity.
Qed.

Lemma formatPropertyNumber_mask_witness :
  Format.formatPropertyNumber [88; 49; 50; 51; 52; 53; 54]%N !! 3 = Some Format.star.
Proof.
  apply (formatPropertyNumber_mask [88; 49; 50; 51; 52; 53; 54]%N). cbn. lia.
Defined.

(** X19. [truncateText] returns a text of at most [maxLength] characters as
    it is. A longer text is cut: the result is a beginning of the text
    followed by the suffix, and its length is [maxLength], or the length of
    the suffix when that is larger (the suffix is then all there is). So
    the result is never longer than [maxLength] when the suffix fits into
    it, as with the defaults 50 and '...'. The empty text stays empty. *)
Theorem truncateText_length (text : list N) (maxLength : option Z)
    (suffix : option (list N)) :
  let limit := JS.default_param maxLength 50%Z in
  let ending := JS.default_param suffix [Format.dot; Format.dot; Format.dot] in
  let shown := Format.truncateText text maxLength suffix in
  ((Z.of_nat (length text) <= limit)%Z -> shown = text) /\
  ((limit < Z.of_nat (length text))%Z -> text <> [] ->
   Z.of_nat (length shown) = Z.max limit (Z.of_nat (length ending)) /\
   exists kept, shown = kept ++ ending /\ kept `prefix_of` text) /\
  ((Z.of_nat (length ending) <= limit)%Z -> (Z.of_nat (length shown) <= limit)%Z) /\
  Format.truncateText [] maxLength suffix = [].
Proof.
  cbn zeta. unfold Format.truncateText.
  set (limit := JS.default_param maxLength 50%Z).
  set (ending := JS.default_param suffix [Format.dot; Format.dot; Format.dot]).
  destruct text as [|unit rest].
  { split; [reflexivity|]. split; [intros _ H; contradiction H; reflexivity|].
    split; [cbn [length]; lia | reflexivity]. }
  set (text := unit :: rest).
  destruct (Z.leb_spec (Z.of_nat (length text)) limit) as [Hshort|Hlong].
  - split; [reflexivity|]. split; [lia|]. split; [|reflexivity]. intros _. exact Hshort.
  - assert (Hlen : Z.of_nat (length (take (Z.to_nat (limit - Z.of_nat (length ending)))
                                      text ++ ending)) =
                   Z.max limit (Z.of_nat (length ending))).
    { rewrite List.length_app, length_take. lia. }
    split; [lia|]. split; [|split; [|reflexivity]].
    + intros _ _. split; [exact Hlen|].
      eexists. split; [reflexivity|]. apply prefix_take.
    + intros Hfits. rewrite Hlen. lia.
Qed.

Lemma truncateText_length_witness :
  (Z.of_nat (length (Format.truncateText [49; 50; 51; 52; 53; 54]%N (Some 5%Z) None)) <=
   5)%Z.
Proof.
  apply (truncateText_length [49; 50; 51; 52; 53; 54]%N (Some 5%Z) None). cbn. lia.
Defined.

(* ===================================================================== *)
(** ** camelCase and kebab-case                                           *)
(* ===================================================================== *)

Lemma lower_of_upper (c : ascii) :
  Format.isUpper c = true ->
  Format.isLower (ascii_of_nat (nat_of_ascii c + 32)) = true /\
  Format.isUpper (ascii_of_nat (nat_of_ascii c + 32)) = false /\
  ascii_of_nat (nat_of_ascii (ascii_of_nat (nat_of_ascii c + 32)) - 32) = c.
Proof.
  unfold Format.isUpper, Format.isLower, Validation.between. intros H.
  apply andb_prop in H as [H1 H2]. apply Nat.leb_le in H1, H2.
  rewrite nat_ascii_embedding by lia.
  split; [apply andb_true_intro; split; apply Nat.leb_le; lia|].
  split; [apply andb_false_iff; right; apply Nat.leb_gt; lia|].
  replace (nat_of_ascii c + 32 - 32) with (nat_of_ascii c) by lia.
  apply ascii_nat_embedding.
Qed.

Lemma upper_of_lower (c : ascii) :
  Format.isLower c = true ->
  Format.isUpper (ascii_of_nat (nat_of_ascii c - 32)) = true /\
  ascii_of_nat (nat_of_ascii (ascii_of_nat (nat_of_ascii c - 32)) + 32) = c.
Proof.
  unfold Format.isUpper, Format.isLower, Validation.between. intros H.
  apply andb_prop in H as [H1 H2]. apply Nat.leb_le in H1, H2.
  rewrite nat_ascii_embedding by lia.
  split; [apply andb_true_intro; split; apply Nat.leb_le; lia|].
  replace (nat_of_ascii c - 32 + 32) with (nat_of_ascii c) by lia.
  apply ascii_nat_embedding.
Qed.

Lemma camelToKebab_cons (c : ascii) (r : string) :
  Format.camelToKebab (String c r) =
  if Format.isUpper c
  then String "-" (String (ascii_of_nat (nat_of_ascii c + 32)) (Format.camelToKebab r))
  else String c (Format.camelToKebab r).
Proof.
  unfold Format.camelToKebab. cbn [Format.hyphenateUpper].
  destruct (Format.isUpper c) eqn:Hc; cbn [Format.toLowerCase]; rewrite Hc; reflexivity.
Qed.

Lemma kebab_of_camel (s : string) :
  hasNoHyphen s = true -> Format.kebabToCamel (Format.camelToKebab s) = s.
Proof.
  unfold hasNoHyphen. induction s as [|c r IH]; [reflexivity|].
  cbn [list_ascii_of_string forallb]. intros H. apply andb_prop in H as [Hc Hr].
  apply negb_true_iff in Hc. rewrite camelToKebab_cons.
  destruct (Format.isUpper c) eqn:Hup.
  - destruct (lower_of_upper c Hup) as (Hlow & _ & Hback).
    cbn [Format.kebabToCamel]. change (Validation.charIs 45 "-") with true.
    cbn iota. rewrite Hlow, Hback, IH by exact Hr. reflexivity.
  - cbn [Format.kebabToCamel]. rewrite Hc, IH by exact Hr. reflexivity.
Qed.

Lemma camel_of_kebab (n : nat) (s : string) :
  String.length s <= n -> hasNoUpper s = true ->
  Format.camelToKebab (Format.kebabToCamel s) = s.
Proof.
  unfold hasNoUpper. revert s. induction n as [|n IH]; intros s Hlen Hs.
  - destruct s; [reflexivity | cbn [String.length] in Hlen; lia].
  - destruct s as [|c r]; [reflexivity|].
    cbn [list_ascii_of_string forallb] in Hs. apply andb_prop in Hs as [Hc Hr].
    apply negb_true_iff in Hc. cbn [String.length] in Hlen.
    cbn [Format.kebabToCamel].
    destruct (Validation.charIs 45 c) eqn:Hhyphen.
    + destruct r as [|letter r'].
      * rewrite camelToKebab_cons, Hc. reflexivity.
      * cbn [list_ascii_of_string forallb] in Hr. apply andb_prop in Hr as [Hletter Hr'].
        cbn [String.length] in Hlen.
        destruct (Format.isLower letter) eqn:Hlow.
        -- destruct (upper_of_lower letter Hlow) as [Hup Hback].
           rewrite camelToKebab_cons, Hup, Hback, IH by (lia || exact Hr').
           apply charIs_eq in Hhyphen. rewrite Hhyphen. reflexivity.
        -- rewrite camelToKebab_cons, Hc, IH; [reflexivity|cbn [String.length]; lia|].
           cbn [list_ascii_of_string forallb]. apply andb_true_intro.
           split; [exact Hletter | exact Hr'].
    + rewrite camelToKebab_cons, Hc, IH by (lia || exact Hr). reflexivity.
Qed.

(** X20. The two case conversions undo each other on ASCII names:
    [kebabToCamel] after [camelToKebab] gives back every name without
    hyphen, and [camelToKebab] after [kebabToCamel] gives back every name
    without capital letter. *)
Theorem case_conversions_round_trip (name : string) :
  isAscii name = true ->
  (hasNoHyphen name = true ->
   Format.kebabToCamel (Format.camelToKebab name) = name) /\
  (hasNoUpper name = true ->
   Format.camelToKebab (Format.kebabToCamel name) = name).
Proof.
  intros _. split; [apply kebab_of_camel|].
  apply (camel_of_kebab (String.length name)). lia.
Qed.

Lemma case_conversions_round_trip_witness :
  Format.kebabToCamel (Format.camelToKebab "conversationId") = "conversationId" /\
  Format.camelToKebab (Format.kebabToCamel "is-first-home") = "is-first-home".
Proof.
  split.
  - apply (case_conversions_round_trip "conversationId"); reflexivity.
  - apply (case_conversions_round_trip "is-first-home"); reflexivity.
Defined.

(* ===================================================================== *)
(** ** Validating a form                                                  *)
(* ===================================================================== *)

Section FormFacts.

Context {V : Type}.

Implicit Types (value : option V) (fieldRules : list (@Validation.RuleEntry V)).

Lemma firstFailure_some fieldRules value (m : string) :
  Validation.firstFailure fieldRules value = Some m <->
  exists before rule after,
    fieldRules = before ++ Validation.IsFunction rule :: after /\
    (forall r, In (Validation.IsFunction r) before ->
               Validation.valid (r value) = true) /\
    Validation.valid (rule value) = false /\
    m = Validation.message (rule value).
Proof.
  induction fieldRules as [|[rule|] rest IH]; cbn [Validation.firstFailure].
  - split; [discriminate|]. intros (before & rule & after & H & _).
    destruct before; discriminate H.
  - destruct (Validation.valid (rule value)) eqn:Hvalid.
    + rewrite IH. split.
      * intros (before & r & after & -> & Hbefore & Hr & Hm).
        exists (Validation.IsFunction rule :: before), r, after.
        split; [reflexivity|]. split; [|auto].
        intros r' [Hr'|Hr']; [injection Hr' as <-; exact Hvalid | apply Hbefore, Hr'].
      * intros (before & r & after & H & Hbefore & Hr & Hm).
        destruct before as [|entry before].
        -- injection H as -> ->. congruence.
        -- injection H as <- ->. exists before, r, after.
           split; [reflexivity|]. split; [|auto].
           intros r' Hr'. apply Hbefore. right. exact Hr'.
    + split.
      * intros H. injection H as <-. exists [], rule, rest.
        split; [reflexivity|]. split; [intros r []|]. split; [exact Hvalid|reflexivity].
      * intros (before & r & after & H & Hbefore & Hr & Hm).
        destruct before as [|entry before].
        -- injection H as -> ->. rewrite Hm. reflexivity.
        -- injection H as <- ->.
           rewrite (Hbefore rule (or_introl eq_refl)) in Hvalid. discriminate.
  - rewrite IH. split.
    + intros (before & r & after & -> & Hbefore & Hr & Hm).
      exists (Validation.NotFunction :: before), r, after.
      split; [reflexivity|]. split; [|auto].
      intros r' [Hr'|Hr']; [discriminate | apply Hbefore, Hr'].
    + intros (before & r & after & H & Hbefore & Hr & Hm).
      destruct before as [|entry before]; [discriminate|].
      injection H as <- ->. exists before, r, after.
      split; [reflexivity|]. split; [|auto].
      intros r' Hr'. apply Hbefore. right. exact Hr'.
Qed.

Lemma firstFailure_none fieldRules value :
  Validation.firstFailure fieldRules value = None <->
  forall r, In (Validation.IsFunction r) fieldRules -> Validation.valid (r value) = true.
Proof.
  induction fieldRules as [|[rule|] rest IH]; cbn [Validation.firstFailure].
  - split; [intros _ r []|reflexivity].
  - destruct (Validation.valid (rule value)) eqn:Hvalid.
    + rewrite IH. split.
      * intros H r [Hr|Hr]; [injection Hr as <-; exact Hvalid | apply H, Hr].
      * intros H r Hr. apply H. right. exact Hr.
    + split; [discriminate|]. intros H.
      rewrite (H rule (or_introl eq_refl)) in Hvalid. discriminate.
  - rewrite IH. split.
    + intros H r [Hr|Hr]; [discriminate | apply H, Hr].
    + intros H r Hr. apply H. right. exact Hr.
Qed.

Variable formData : gmap string V.

Implicit Types (rules : list (string * list (@Validation.RuleEntry V)))
  (errors : gmap string string).

Lemma collectErrors_cons (field : string) fieldRules rules errors :
  Validation.collectErrors formData ((field, fieldRules) :: rules) errors =
  Validation.collectErrors formData rules
    match Validation.firstFailure fieldRules (formData !! field) with
    | Some m => <[field := m]> errors
    | None => errors
    end.
Proof. reflexivity. Qed.

(** An error, once recorded for a field, is never removed. *)
Lemma collectErrors_keeps rules errors (field : string) :
  is_Some (errors !! field) ->
  is_Some (Validation.collectErrors formData rules errors !! field).
Proof.
  revert errors. induction rules as [|[f fieldRules] rules IH]; intros errors H;
    [exact H|].
  rewrite collectErrors_cons. apply IH.
  destruct (Validation.firstFailure fieldRules (formData !! f)); [|exact H].
  destruct (decide (f = field)) as [->|Hne].
  - rewrite lookup_insert_eq. eauto.
  - rewrite lookup_insert_ne by exact Hne. exact H.
Qed.

Lemma collectErrors_reports rules errors (field : string) fieldRules (m : string) :
  In (field, fieldRules) rules ->
  Validation.firstFailure fieldRules (formData !! field) = Some m ->
  is_Some (Validation.collectErrors formData rules errors !! field).
Proof.
  revert errors. induction rules as [|[f rs] rules IH]; intros errors Hin Hfail;
    [contradiction|].
  rewrite collectErrors_cons. destruct Hin as [Heq|Hin].
  - injection Heq as -> ->. rewrite Hfail. apply collectErrors_keeps.
    rewrite lookup_insert_eq. eauto.
  - apply IH; assumption.
Qed.

Lemma collectErrors_lookup rules errors (field m : string) :
  Validation.collectErrors formData rules errors !! field = Some m ->
  errors !! field = Some m \/
  exists fieldRules,
    In (field, fieldRules) rules /\
    Validation.firstFailure fieldRules (formData !! field) = Some m.
Proof.
  revert errors. induction rules as [|[f rs] rules IH]; intros errors H;
    [left; exact H|].
  rewrite collectErrors_cons in H. apply IH in H as [H|(fieldRules & Hin & Hfail)].
  - destruct (Validation.firstFailure rs (formData !! f)) as [m'|] eqn:Hfail;
      [|left; exact H].
    destruct (decide (f = field)) as [->|Hne].
    + rewrite lookup_insert_eq in H. injection H as ->.
      right. exists rs. split; [left; reflexivity | exact Hfail].
    + rewrite lookup_insert_ne in H by exact Hne. left. exact H.
  - right. exists fieldRules. split; [right; exact Hin | exact Hfail].
Qed.

Lemma collectErrors_none rules :
  Validation.collectErrors formData rules ∅ = ∅ <->
  forall field fieldRules,
    In (field, fieldRules) rules ->
    Validation.firstFailure fieldRules (formData !! field) = None.
Proof.
  split.
  - intros Hempty field fieldRules Hin.
    destruct (Validation.firstFailure fieldRules (formData !! field)) as [m|] eqn:Hfail;
      [|reflexivity].
    destruct (collectErrors_reports rules ∅ field fieldRules m Hin Hfail) as [m' Hm'].
    rewrite Hempty, lookup_empty in Hm'. discriminate.
  - induction rules as [|[f rs] rules IH]; intros H; [reflexivity|].
    rewrite collectErrors_cons, (H f rs (or_introl eq_refl)).
    apply IH. intros field fieldRules Hin. apply H. right. exact Hin.
Qed.

End FormFacts.

(** X21. [validateForm] reports, for each field, the message of the first
    rule of the field that rejects the field's value, and nothing for a
    field whose rules all accept it:
    - the result is valid exactly when every rule function of every field
      accepts the value of its field, and exactly when no error is listed;
    - an error listed for a field is the message of a rule of that field
      which rejects the value while all rule functions before it accept it;
    - a field with a rejecting rule has an error listed;
    - a rule made by [createRule] accepts what its validator accepts and
      rejects with the message it was made with. *)
Theorem validateForm_reports_first_failures {V : Type} (formData : gmap string V)
    (rules : list (string * list (@Validation.RuleEntry V))) :
  let result := Validation.validateForm formData rules in
  (Validation.form_valid result = true <->
   forall field fieldRules rule,
     In (field, fieldRules) rules -> In (Validation.IsFunction rule) fieldRules ->
     Validation.valid (rule (formData !! field)) = true) /\
  (Validation.form_valid result = true <-> Validation.form_errors result = ∅) /\
  (forall field m,
     Validation.form_errors result !! field = Some m ->
     exists fieldRules before rule after,
       In (field, fieldRules) rules /\
       fieldRules = before ++ Validation.IsFunction rule :: after /\
       (forall r, In (Validation.IsFunction r) before ->
                  Validation.valid (r (formData !! field)) = true) /\
       Validation.valid (rule (formData !! field)) = false /\
       m = Validation.message (rule (formData !! field))) /\
  (forall field fieldRules rule,
     In (field, fieldRules) rules -> In (Validation.IsFunction rule) fieldRules ->
     Validation.valid (rule (formData !! field)) = false ->
     is_Some (Validation.form_errors result !! field)) /\
  (forall (validator : option V -> bool) (msg : string) (value : option V),
     Validation.valid (Validation.createRule validator msg value) = validator value /\
     (validator value = false ->
      Validation.message (Validation.createRule validator msg value) = msg)).
Proof.
  cbn zeta. unfold Validation.validateForm.
  cbn [Validation.form_valid Validation.form_errors].
  split; [|split; [|split; [|split]]].
  - rewrite bool_decide_eq_true, collectErrors_none. split.
    + intros H field fieldRules rule Hin Hrule.
      apply (proj1 (firstFailure_none fieldRules (formData !! field)) (H _ _ Hin)), Hrule.
    + intros H field fieldRules Hin. apply firstFailure_none.
      intros r Hr. apply (H field fieldRules r Hin Hr).
  - apply bool_decide_eq_true.
  - intros field m Hm. apply collectErrors_lookup in Hm as [Hm|(fieldRules & Hin & Hfail)];
      [rewrite lookup_empty in Hm; discriminate|].
    apply firstFailure_some in Hfail as (before & rule & after & Hsplit & Hrest).
    exists fieldRules, before, rule, after. auto.
  - intros field fieldRules rule Hin Hrule Hvalid.
    destruct (Validation.firstFailure fieldRules (formData !! field)) as [m|] eqn:Hfail.
    + apply (collectErrors_reports formData rules ∅ field fieldRules m Hin Hfail).
    + rewrite (proj1 (firstFailure_none _ _) Hfail rule Hrule) in Hvalid. discriminate.
  - intros validator msg value. unfold Validation.createRule.
    cbn [Validation.valid Validation.message]. split; [reflexivity|].
    intros ->. reflexivity.
Qed.

Lemma validateForm_reports_first_failures_witness :
  is_Some (Validation.form_errors (Validation.validateForm {[ "budget" := 30%Z ]}
                                     budgetRules) !! "budget").
Proof.
  destruct (validateForm_reports_first_failures {[ "budget" := 30%Z ]} budgetRules)
    as (_ & _ & _ & Hlisted & _).
  eapply Hlisted.
  - left. reflexivity.
  - right. left. reflexivity.
  - vm_compute. reflexivity.
Defined.

(* ===================================================================== *)
(** ** The conversation id over a stream                                  *)
(* ===================================================================== *)

Lemma event_conversationId (eventType : string) (data : HousingAPI.EventData)
    (s : Store.State) :
  Store.conversationId (Store.handleStreamEvent eventType data s).1 =
  if carriesId (eventType, data) then HousingAPI.data_conversation_id data
  else Store.conversationId s.
Proof.
  unfold carriesId. cbn [snd].
  destruct (isDoneEvent (eventType, data)) eqn:Hdone; cbn [andb].
  - rewrite done_event_handled, handleDone_effect by exact Hdone. cbn zeta.
    destruct (Store.fullMessage data s) as [text|];
      destruct (JS.truthy (HousingAPI.data_conversation_id data));
      try destruct (hasMarker text); reflexivity.
  - unfold isDoneEvent in Hdone. cbn [fst] in Hdone.
    event_cases eventType; try reflexivity; discriminate.
Qed.

Lemma deliver_keeps_conversationId (calls : list (string * HousingAPI.EventData))
    (s : Store.State) :
  forallb (fun call => negb (carriesId call)) calls = true ->
  Store.conversationId (deliver Store.handleStreamEvent calls s) = Store.conversationId s.
Proof.
  revert s. induction calls as [|[eventType data] rest IH]; intros s H; [reflexivity|].
  cbn [forallb] in H. apply andb_prop in H as [Hhead Hrest].
  rewrite deliver_cons, IH by exact Hrest. cbn [fst snd].
  rewrite event_conversationId. apply negb_true_iff in Hhead. rewrite Hhead. reflexivity.
Qed.

(** X22. The conversation id while events are handled: it changes only at
    a done or complete event that carries a non-empty [conversation_id],
    and then becomes that id. After any sequence of events it is therefore
    the id carried by the last such event, or the previous id when there is
    none (a done event without id does not clear it). *)
Theorem conversation_id_follows_done_events
    (calls : list (string * HousingAPI.EventData)) (s : Store.State) :
  (forallb (fun call => negb (carriesId call)) calls = true ->
   Store.conversationId (deliver Store.handleStreamEvent calls s) =
     Store.conversationId s) /\
  (forall before call after,
     calls = before ++ call :: after ->
     carriesId call = true ->
     forallb (fun later => negb (carriesId later)) after = true ->
     Store.conversationId (deliver Store.handleStreamEvent calls s) =
       HousingAPI.data_conversation_id call.2).
Proof.
  split; [apply deliver_keeps_conversationId|].
  intros before [eventType data] after -> Hcarries Hafter.
  rewrite deliver_app, deliver_cons, deliver_keeps_conversationId by exact Hafter.
  cbn [fst snd]. rewrite event_conversationId, Hcarries. reflexivity.
Qed.

Lemma conversation_id_follows_done_events_witness :
  Store.conversationId
    (deliver Store.handleStreamEvent
       ([("response_chunk", contentData "30%")] ++ reportCall :: [("done", noData)])
       Store.initialState) = Some "conv_1".
Proof.
  apply (proj2 (conversation_id_follows_done_events
                  ([("response_chunk", contentData "30%")] ++
                   reportCall :: [("done", noData)])
                  Store.initialState)
           [("response_chunk", contentData "30%")] reportCall [("done", noData)]);
    reflexivity.
Defined.

(* ===================================================================== *)
(** ** The stream parser: lines ended by CR LF                            *)
(* ===================================================================== *)

Lemma byte_is_cr (n : nat) : 128 <= n -> JS.byte_is (ascii_of_nat 13) n = false.
Proof.
  intros Hn. unfold JS.byte_is. rewrite nat_ascii_embedding by lia.
  apply Nat.eqb_neq. lia.
Qed.

Lemma ws_head_app_cr (x : string) :
  x <> "" ->
  JS.ws_head (x +:+ cr) = option_map (fun r => r +:+ cr) (JS.ws_head x).
Proof.
  intros Hx. unfold cr.
  assert (Hleb : Nat.leb 128 (nat_of_ascii (ascii_of_nat 13)) = false) by reflexivity.
  destruct x as [|c [|c2 [|c3 r3]]]; [contradiction| | |];
    rewrite ?string_app_cons;
    change ("" +:+ String (ascii_of_nat 13) "") with (String (ascii_of_nat 13) "");
    unfold JS.ws_head; cbv beta iota zeta;
    rewrite ?Hleb; repeat rewrite byte_is_cr by lia;
    rewrite ?andb_false_r; cbn [andb orb];
    repeat match goal with
           | |- context [if ?b then _ else _] => destruct b eqn:?
           end;
    reflexivity.
Qed.

Lemma strip_empty (head : string -> option string) (fuel : nat) :
  head "" = None -> JS.strip head fuel "" = "".
Proof. intros H. destruct fuel; cbn [JS.strip]; [|rewrite H]; reflexivity. Qed.

Lemma strip_head_app_cr (fuel : nat) (x : string) :
  String.length x <= fuel ->
  JS.strip JS.ws_head (S fuel) (x +:+ cr) =
  if String.eqb (JS.strip JS.ws_head fuel x) "" then ""
  else JS.strip JS.ws_head fuel x +:+ cr.
Proof.
  revert x. induction fuel as [|fuel IH]; intros x Hlen.
  - destruct x; [reflexivity | cbn [String.length] in Hlen; lia].
  - destruct x as [|c r].
    + change ("" +:+ cr) with cr. rewrite strip_empty by reflexivity. reflexivity.
    + set (x := String c r) in *.
      assert (Hx : x <> "") by discriminate.
      change (JS.strip JS.ws_head (S (S fuel)) (x +:+ cr)) with
        (match JS.ws_head (x +:+ cr) with
         | Some rest => JS.strip JS.ws_head (S fuel) rest
         | None => x +:+ cr
         end).
      change (JS.strip JS.ws_head (S fuel) x) with
        (match JS.ws_head x with
         | Some rest => JS.strip JS.ws_head fuel rest
         | None => x
         end).
      rewrite (ws_head_app_cr x Hx).
      destruct (JS.ws_head x) as [rest|] eqn:Hhead; cbn [option_map].
      * apply IH. apply ws_head_shorter in Hhead. lia.
      * reflexivity.
Qed.

Lemma rev_string_app (acc a b : string) :
  JS.rev_string acc (a +:+ b) = JS.rev_string (JS.rev_string acc a) b.
Proof.
  revert acc. induction a as [|c a IH]; intros acc; [reflexivity|].
  rewrite string_app_cons. cbn [JS.rev_string]. apply IH.
Qed.

Lemma trimEnd_app_cr (t : string) : JS.trimEnd (t +:+ cr) = JS.trimEnd t.
Proof.
  unfold JS.trimEnd. rewrite rev_string_app, string_length_app.
  cbn [JS.rev_string cr String.length]. rewrite Nat.add_1_r. reflexivity.
Qed.

(** A carriage return at the end of a line is trimmed away with the rest. *)
Lemma trim_app_cr (line : string) : JS.trim (line +:+ cr) = JS.trim line.
Proof.
  unfold JS.trim, JS.trimStart. rewrite string_length_app.
  cbn [cr String.length]. rewrite Nat.add_1_r. fold cr.
  rewrite strip_head_app_cr by lia.
  destruct (String.eqb_spec (JS.strip JS.ws_head (String.length line) line) "") as [->|_].
  - reflexivity.
  - apply trimEnd_app_cr.
Qed.

Section CarriageReturns.

Variable JSON_parse : string -> option HousingAPI.EventData.
Context {Receiver : Type}.
Variable onEvent : HousingAPI.Callback Receiver.

Lemma processLine_cr (line : string) (st : option string * Receiver) :
  HousingAPI.processLine JSON_parse onEvent (line +:+ cr) st =
  HousingAPI.processLine JSON_parse onEvent line st.
Proof. unfold HousingAPI.processLine. rewrite trim_app_cr. reflexivity. Qed.

Lemma processLines_cr (lines : list string) (st : option string * Receiver) :
  HousingAPI.processLines JSON_parse onEvent (map (fun line => line +:+ cr) lines) st =
  HousingAPI.processLines JSON_parse onEvent lines st.
Proof.
  revert st. induction lines as [|line rest IH]; intros st; [reflexivity|].
  unfold HousingAPI.processLines in *. cbn [map fold_left].
  rewrite processLine_cr. apply IH.
Qed.

End CarriageReturns.

Lemma split_line_ended (line : string) :
  JS.split_newline line = [line] -> JS.split_newline (line +:+ nl) = [line; ""].
Proof.
  intros Hline. induction line as [|c r IH]; [reflexivity|].
  rewrite string_app_cons. cbn [JS.split_newline] in *.
  destruct (Ascii.eqb c JS.newline); [discriminate Hline|].
  pose proof (split_newline_nonempty r) as Hne.
  destruct (JS.split_newline r) as [|l ls]; [congruence|].
  injection Hline as Hl Hls. subst l ls.
  rewrite IH by reflexivity. reflexivity.
Qed.

(** The complete lines of a text written line by line. *)
Lemma completeLines_linesWith (lines : list string) :
  Forall (fun line => JS.split_newline line = [line]) lines ->
  completeLines (linesWith nl lines) = lines /\ pendingLine (linesWith nl lines) = "".
Proof.
  unfold linesWith. induction 1 as [|line rest Hline Hrest [IHc IHp]];
    [split; reflexivity|].
  cbn [map]. rewrite concat_cons.
  assert (Hc : completeLines (line +:+ nl) = [line])
    by (unfold completeLines; rewrite split_line_ended by exact Hline; reflexivity).
  assert (Hp : pendingLine (line +:+ nl) = "")
    by (unfold pendingLine; rewrite split_line_ended by exact Hline; reflexivity).
  set (text := String.concat "" (map (fun line0 => line0 +:+ nl) rest)) in *.
  rewrite (completeLines_app (line +:+ nl) text), (pendingLine_app (line +:+ nl) text).
  rewrite Hc, Hp. change ("" +:+ text) with text.
  rewrite IHc, IHp. split; reflexivity.
Qed.

Lemma linesWith_crlf (lines : list string) :
  linesWith crlf lines = linesWith nl (map (fun line => line +:+ cr) lines).
Proof.
  unfold linesWith, crlf. rewrite map_map. f_equal. apply map_ext.
  intros line. symmetry. apply string_app_assoc.
Qed.

(** X23. Lines ended by CR LF are read like lines ended by LF: each line
    is trimmed before it is looked at, and the carriage return goes with
    the white space. A stream written with CR LF line endings leads to the
    same calls as the same lines written with LF. *)
Theorem crlf_line_endings_are_accepted
    (JSON_parse : string -> option HousingAPI.EventData) (lines : list string) :
  Forall (fun line => JS.split_newline line = [line]) lines ->
  HousingAPI.callbacks JSON_parse [linesWith crlf lines] =
  HousingAPI.callbacks JSON_parse [linesWith nl lines].
Proof.
  intros Hlines. rewrite !callbacks_whole. cbn [String.concat].
  rewrite linesWith_crlf.
  assert (Hcr : Forall (fun line => JS.split_newline line = [line])
                  (map (fun line => line +:+ cr) lines)).
  { apply Forall_map. eapply Forall_impl; [exact Hlines|].
    intros line Hline. apply split_whole_app; [exact Hline | reflexivity]. }
  rewrite (proj1 (completeLines_linesWith lines Hlines)).
  rewrite (proj1 (completeLines_linesWith _ Hcr)).
  rewrite processLines_cr. reflexivity.
Qed.

Lemma crlf_line_endings_are_accepted_witness :
  HousingAPI.callbacks parseExample
    [linesWith crlf ["event: done"; "data: " +:+ jsonField "conversation_id" "conv_1"; ""]] =
  HousingAPI.callbacks parseExample
    [linesWith nl ["event: done"; "data: " +:+ jsonField "conversation_id" "conv_1"; ""]].
Proof.
  apply (crlf_line_endings_are_accepted parseExample).
  repeat constructor.
Defined.

(* ===================================================================== *)
(** ** Resetting: nothing to reset, and a reset that fails                *)
(* ===================================================================== *)

Lemma handleError_message (msg : string) (e : JS.Error) (s : Store.State) :
  Store.error (Store.handleError msg e s) =
  Some (if JS.truthy (JS.response_detail e)
        then msg +:+ ": " +:+ default "" (JS.response_detail e)
        else msg).
Proof. unfold Store.handleError. destruct (JS.truthy _); reflexivity. Qed.

Lemma handleError_keeps (msg : string) (e : JS.Error) (s : Store.State) :
  Store.conversationId (Store.handleError msg e s) = Store.conversationId s /\
  Store.sessions (Store.handleError msg e s) = Store.sessions s.
Proof. unfold Store.handleError. destruct (JS.truthy _); split; reflexivity. Qed.

(** X24. The reset actions lose nothing unless the server has confirmed.
    Without a conversation id (none yet, or an empty one)
    [resetCurrentSession] sends no request and leaves the store as it is,
    history included, with result [undefined]. When the request of
    [resetCurrentSession] or of [resetAllSessions] is rejected, the result
    is [false], the conversation id, the history, the step, the report and
    the listed sessions are what they were, and [error] is the action's
    message, followed by ': ' and the detail when the error thrown carries
    one. *)
Theorem failed_reset_keeps_conversation (net : HousingAPI.Transport) (s : Store.State) :
  (JS.truthy (Store.conversationId s) = false ->
   Store.resetCurrentSession net s = (s, None)) /\
  (forall id e,
     Store.conversationId s = Some id -> id <> "" ->
     HousingAPI.resetSession net id = HousingAPI.Rejected e ->
     let after := Store.resetCurrentSession net s in
     after.2 = Some false /\
     Store.conversationId after.1 = Some id /\
     Store.conversationHistory after.1 = Store.conversationHistory s /\
     Store.currentStep after.1 = Store.currentStep s /\
     Store.reportData after.1 = Store.reportData s /\
     Store.error after.1 =
       Some (if JS.truthy (JS.response_detail e)
             then "重置会话失败" +:+ ": " +:+ default "" (JS.response_detail e)
             else "重置会话失败")) /\
  (forall e,
     HousingAPI.resetAllSessions net = HousingAPI.Rejected e ->
     let after := Store.resetAllSessions net s in
     after.2 = false /\
     Store.conversationId after.1 = Store.conversationId s /\
     Store.conversationHistory after.1 = Store.conversationHistory s /\
     Store.currentStep after.1 = Store.currentStep s /\
     Store.sessions after.1 = Store.sessions s /\
     Store.error after.1 =
       Some (if JS.truthy (JS.response_detail e)
             then "重置所有会话失败" +:+ ": " +:+ default "" (JS.response_detail e)
             else "重置所有会话失败")).
Proof.
  split; [|split].
  - unfold Store.resetCurrentSession, JS.truthy.
    destruct (Store.conversationId s) as [id|]; [|reflexivity].
    destruct (String.eqb id ""); [reflexivity|discriminate].
  - intros id e Hid Hne Hreq. cbn zeta. unfold Store.resetCurrentSession.
    rewrite Hid. destruct (String.eqb_spec id ""); [contradiction|]. rewrite Hreq.
    cbn [fst snd].
    destruct (handleError_fields "重置会话失败" e s) as (Hh & Hstep & Hrep & _).
    destruct (handleError_keeps "重置会话失败" e s) as (Hcid & _).
    rewrite Hh, Hstep, Hrep, Hcid, handleError_message.
    repeat split; try reflexivity. exact Hid.
  - intros e Hreq. cbn zeta. unfold Store.resetAllSessions. rewrite Hreq.
    cbn [fst snd].
    destruct (handleError_fields "重置所有会话失败" e s) as (Hh & Hstep & _).
    destruct (handleError_keeps "重置所有会话失败" e s) as (Hcid & Hsess).
    rewrite Hh, Hstep, Hcid, Hsess, handleError_message.
    repeat split; reflexivity.
Qed.

Lemma failed_reset_keeps_conversation_witness :
  Store.resetCurrentSession failingNet Store.initialState = (Store.initialState, None) /\
  Store.conversationHistory (Store.resetCurrentSession failingNet chattingStore).1 =
    Store.conversationHistory chattingStore /\
  Store.conversationId (Store.resetAllSessions failingNet chattingStore).1 =
    Store.conversationId chattingStore.
Proof.
  split; [|split].
  - apply (failed_reset_keeps_conversation failingNet Store.initialState). reflexivity.
  - apply (proj1 (proj2 (failed_reset_keeps_conversation failingNet chattingStore))
             "conv_1" networkError); [reflexivity | discriminate | reflexivity].
  - apply (proj2 (proj2 (failed_reset_keeps_conversation failingNet chattingStore))
             networkError). reflexivity.
Defined.
